(** * The message processor of devops-microservices-lab

    A shallow embedding of [packages/processor/processor.py], the consumer
    that archives every message of a topic exchange as a JSON file, together
    with the parts of the Python library the program calls: the UTF-8 codec
    ([bytes.decode]), the [json] decoder and encoder, [strftime],
    [os.path.join], buffered text files and the blocking channel of [pika].

    Conventions.
    - A Python [str] is a list of code points ([pystr]); a [bytes] object is
      a list of byte values. Both are lists of [N].
    - A Python [int] is a [Z]. A Python [float] is kept abstract
      ([PyFloat]): the decoder and encoder only parse and print floats.
    - The world outside the interpreter (clock, disk, broker) is an
      environment of oracles ([Env]) and a state ([World]). A file is
      identified by its path and holds the text written to it.

    - A call of the broker library may raise: the broker answers every
      method the program issues ([broker_fault]), the confirmations of the
      handler included, and the consumer loop may end with an error of the
      library ([Lost]).

    Outside the model: the limits of the interpreter (recursion depth, the
    cap on the digits of an [int], memory), signals that arrive while a
    statement runs, and a standard output that cannot be written.
    Equality of values is structural, so NaN is equal to itself. *)

From Stdlib Require Import NArith ZArith List Ascii String Lia.
From Stdlib Require Import Decimal DecimalFacts DecimalN DecimalZ.
From stdpp Require Import base option list gmap.

Local Open Scope N_scope.
Local Set Warnings "-register-all".

(** ** Strings *)

Abbreviation pystr := (list N) (only parsing).

(** A literal of the source, as code points. *)
Definition str (s : string) : pystr :=
  List.map N_of_ascii (list_ascii_of_string s).

Abbreviation QUOTE := 34 (only parsing).
Abbreviation BACKSLASH := 92 (only parsing).
Abbreviation PLUS := 43 (only parsing).
Abbreviation COMMA := 44 (only parsing).
Abbreviation MINUS := 45 (only parsing).
Abbreviation DOT := 46 (only parsing).
Abbreviation SLASH := 47 (only parsing).
Abbreviation ZERO := 48 (only parsing).
Abbreviation COLON := 58 (only parsing).
Abbreviation LBRACKET := 91 (only parsing).
Abbreviation RBRACKET := 93 (only parsing).
Abbreviation LBRACE := 123 (only parsing).
Abbreviation RBRACE := 125 (only parsing).
Abbreviation NEWLINE := 10 (only parsing).
Abbreviation SPACE := 32 (only parsing).
Abbreviation UNDERSCORE := 95 (only parsing).

(** [s.startswith(p)], returning what follows the prefix. *)
Fixpoint strip (p s : pystr) : option pystr :=
  match p, s with
  | [], _ => Some s
  | a :: p', b :: s' => if a =? b then strip p' s' else None
  | _ :: _, [] => None
  end.

(** ** [bytes.decode('utf-8')]

    The strict UTF-8 decoder: shortest forms only, no surrogates, nothing
    above U+10FFFF. [None] stands for [UnicodeDecodeError]. *)
Module Utf8.

Definition is_cont (b : N) : bool := (0x80 <=? b) && (b <=? 0xBF).

Definition low6 (b : N) : N := N.land b 0x3F.

Fixpoint decode (bs : list N) : option pystr :=
  match bs with
  | [] => Some []
  | b0 :: r0 =>
    if b0 <? 0x80 then cons b0 <$> decode r0
    else if b0 <? 0xC2 then None
    else if b0 <? 0xE0 then
      match r0 with
      | b1 :: r1 =>
        if is_cont b1
        then cons (N.lor (N.shiftl (N.land b0 0x1F) 6) (low6 b1)) <$> decode r1
        else None
      | _ => None
      end
    else if b0 <? 0xF0 then
      match r0 with
      | b1 :: b2 :: r2 =>
        if is_cont b1 && is_cont b2
           && negb ((b0 =? 0xE0) && (b1 <? 0xA0))
           && negb ((b0 =? 0xED) && (0x9F <? b1))
        then cons (N.lor (N.shiftl (N.land b0 0x0F) 12)
                     (N.lor (N.shiftl (low6 b1) 6) (low6 b2))) <$> decode r2
        else None
      | _ => None
      end
    else if b0 <? 0xF5 then
      match r0 with
      | b1 :: b2 :: b3 :: r3 =>
        if is_cont b1 && is_cont b2 && is_cont b3
           && negb ((b0 =? 0xF0) && (b1 <? 0x90))
           && negb ((b0 =? 0xF4) && (0x8F <? b1))
        then cons (N.lor (N.shiftl (N.land b0 0x07) 18)
                     (N.lor (N.shiftl (low6 b1) 12)
                        (N.lor (N.shiftl (low6 b2) 6) (low6 b3)))) <$> decode r3
        else None
      | _ => None
      end
    else None
  end.

End Utf8.

(** Code points that UTF-8 can carry: Unicode scalar values. *)
Definition is_high_surrogate (c : N) : bool := (0xD800 <=? c) && (c <=? 0xDBFF).
Definition is_low_surrogate (c : N) : bool := (0xDC00 <=? c) && (c <=? 0xDFFF).
Definition is_scalar (c : N) : bool :=
  (c <? 0x110000) && negb ((0xD800 <=? c) && (c <=? 0xDFFF)).

(** ** Number literals of JSON *)

Definition is_digit (c : N) : bool := (ZERO <=? c) && (c <=? 57).

(** The longest run of digits at the head of [s], and what follows it. *)
Fixpoint span_digits (s : pystr) : pystr * pystr :=
  match s with
  | c :: s' =>
    if is_digit c then let '(d, r) := span_digits s' in (c :: d, r) else ([], s)
  | [] => ([], [])
  end.

(** The four parts of a number literal. Each function splits the text
    into the part and what follows it; the part is empty when it is absent
    or incomplete. *)

(** An optional minus sign. *)
Definition lex_sign (s : pystr) : pystr * pystr :=
  match s with
  | c :: s' => if c =? MINUS then ([c], s') else ([], s)
  | [] => ([], s)
  end.

(** The integer digits: as many as there are after a digit from 1 to 9,
    one only after a zero. *)
Definition lex_int (s : pystr) : option (pystr * pystr) :=
  match s with
  | [] => None
  | c :: s' =>
    if (49 <=? c) && (c <=? 57)
    then let '(d, r) := span_digits s' in Some (c :: d, r)
    else if c =? ZERO then Some ([c], s')
    else None
  end.

(** A dot followed by at least one digit. *)
Definition lex_frac (s : pystr) : pystr * pystr :=
  match s with
  | p :: c :: s' =>
    if (p =? DOT) && is_digit c
    then let '(d, r) := span_digits s' in (p :: c :: d, r)
    else ([], s)
  | _ => ([], s)
  end.

(** The letter e, an optional sign and at least one digit. *)
Definition lex_exp (s : pystr) : pystr * pystr :=
  match s with
  | e :: s' =>
    if (e =? 101) || (e =? 69) then
      let '(sg, s'') :=
        match s' with
        | c :: t => if (c =? MINUS) || (c =? PLUS) then ([c], t) else ([], s')
        | [] => ([], s')
        end in
      let '(d, r) := span_digits s'' in
      match d with
      | [] => ([], s)
      | _ :: _ => (e :: sg ++ d, r)
      end
    else ([], s)
  | [] => ([], s)
  end.

(** [_match_number]: the literal at the head of the text, whether it is a
    float (it has a fraction or an exponent), and the rest of the text. *)
Definition match_number (s : pystr) : option (pystr * bool * pystr) :=
  let '(sign, s1) := lex_sign s in
  match lex_int s1 with
  | None => None
  | Some (ip, s2) =>
    let '(frac, s3) := lex_frac s2 in
    let '(ex, s4) := lex_exp s3 in
    Some (sign ++ ip ++ frac ++ ex,
          negb (match frac, ex with [], [] => true | _, _ => false end), s4)
  end.

(** A whole string that is one float literal: what [float.__repr__] has to
    produce for the decoder to read it back. *)
Definition is_float_literal (s : pystr) : bool :=
  match match_number s with
  | Some (lit, true, []) => true
  | _ => false
  end.

(** *** [int(literal)] and [int.__repr__], through decimal digits *)

Definition digit_of_char (c : N) (u : Decimal.uint) : Decimal.uint :=
  match N.to_nat (c - ZERO) with
  | 0%nat => D0 u | 1%nat => D1 u | 2%nat => D2 u | 3%nat => D3 u
  | 4%nat => D4 u | 5%nat => D5 u | 6%nat => D6 u | 7%nat => D7 u
  | 8%nat => D8 u | _ => D9 u
  end.

Fixpoint uint_of_digits (s : pystr) : Decimal.uint :=
  match s with
  | [] => Nil
  | c :: s' => digit_of_char c (uint_of_digits s')
  end.

Fixpoint digits_of_uint (u : Decimal.uint) : pystr :=
  match u with
  | Nil => []
  | D0 u => 48 :: digits_of_uint u | D1 u => 49 :: digits_of_uint u
  | D2 u => 50 :: digits_of_uint u | D3 u => 51 :: digits_of_uint u
  | D4 u => 52 :: digits_of_uint u | D5 u => 53 :: digits_of_uint u
  | D6 u => 54 :: digits_of_uint u | D7 u => 55 :: digits_of_uint u
  | D8 u => 56 :: digits_of_uint u | D9 u => 57 :: digits_of_uint u
  end.

(** [int(s)] for a literal accepted by [match_number] as an integer. *)
Definition int_of_str (s : pystr) : Z :=
  match s with
  | c :: s' =>
    if c =? MINUS then Z.of_int (Decimal.Neg (uint_of_digits s'))
    else Z.of_int (Decimal.Pos (uint_of_digits s))
  | [] => 0%Z
  end.

(** [int.__repr__]. *)
Definition int_repr (z : Z) : pystr :=
  match Z.to_int z with
  | Decimal.Pos u => digits_of_uint u
  | Decimal.Neg u => MINUS :: digits_of_uint u
  end.

(** ** Floats

    [float(literal)] and [float.__repr__] are not modelled bit by bit. The
    program relies on three facts about them, which the class records:
    infinities and NaN are single values, [repr] of a finite float is a
    float literal, and reading that literal gives the float back. *)
Inductive float_kind := FNaN | FPosInf | FNegInf | FFinite.

Class PyFloat := {
  float : Type;
  float_of_str : pystr -> float;
  float_nan : float;
  float_inf : float;
  float_neg_inf : float;
  float_classify : float -> float_kind;
  float_repr : float -> pystr;
  classify_nan : forall f, float_classify f = FNaN <-> f = float_nan;
  classify_inf : forall f, float_classify f = FPosInf <-> f = float_inf;
  classify_neg_inf : forall f, float_classify f = FNegInf <-> f = float_neg_inf;
  repr_literal : forall f,
    float_classify f = FFinite -> is_float_literal (float_repr f) = true;
  repr_roundtrip : forall f,
    float_classify f = FFinite -> float_of_str (float_repr f) = f
}.

(** The outcome of a scan that recurses on nested values: a value and the
    rest of the text, a decoding error, or not enough fuel. *)
Inductive scan (A : Type) :=
| Scanned (a : A) (rest : pystr)
| Invalid
| Starved.
Arguments Scanned {A} a rest.
Arguments Invalid {A}.
Arguments Starved {A}.

Definition scan_map {A B} (f : A -> B) (r : scan A) : scan B :=
  match r with
  | Scanned a rest => Scanned (f a) rest
  | Invalid => Invalid
  | Starved => Starved
  end.

(** ** JSON values, as [json.loads] builds them

    A [dict] keeps its keys in insertion order, so it is an association list. *)
Section Json.
Context {PF : PyFloat}.

Inductive json :=
| JNull
| JBool (b : bool)
| JInt (z : Z)
| JFloat (f : float)
| JStr (s : pystr)
| JList (l : list json)
| JDict (d : list (pystr * json)).

(** [d[k] = v]: a key already present keeps its place and takes the new
    value; a new key goes last. *)
Fixpoint dict_set (d : list (pystr * json)) (k : pystr) (v : json)
  : list (pystr * json) :=
  match d with
  | [] => [(k, v)]
  | (k', v') :: d' =>
    if decide (k' = k) then (k', v) :: d' else (k', v') :: dict_set d' k v
  end.

(** ** The decoder ([json.loads], with the [_json] scanner) *)

Definition is_ws (c : N) : bool :=
  (c =? SPACE) || (c =? 9) || (c =? NEWLINE) || (c =? 13).

Fixpoint skip_ws (s : pystr) : pystr :=
  match s with
  | c :: s' => if is_ws c then skip_ws s' else s
  | [] => []
  end.

Definition hex_val (c : N) : option N :=
  if (ZERO <=? c) && (c <=? 57) then Some (c - ZERO)
  else if (97 <=? c) && (c <=? 102) then Some (c - 97 + 10)
  else if (65 <=? c) && (c <=? 70) then Some (c - 65 + 10)
  else None.

(** Four hex digits, accumulated as [c <<= 4; c |= digit]. *)
Definition hex4 (a b c d : N) : option N :=
  match hex_val a, hex_val b, hex_val c, hex_val d with
  | Some a, Some b, Some c, Some d =>
    Some (N.lor (N.shiftl (N.lor (N.shiftl (N.lor (N.shiftl a 4) b) 4) c) 4) d)
  | _, _, _, _ => None
  end.

(** [Py_UNICODE_JOIN_SURROGATES]. *)
Definition join_surrogates (hi lo : N) : N :=
  N.lor (N.shiftl (N.land hi 0x3FF) 10) (N.land lo 0x3FF) + 0x10000.

(** The character a backslash escape other than [u] stands for. *)
Definition simple_escape (e : N) : option N :=
  if e =? QUOTE then Some QUOTE
  else if e =? BACKSLASH then Some BACKSLASH
  else if e =? SLASH then Some SLASH
  else if e =? 98 then Some 8
  else if e =? 102 then Some 12
  else if e =? 110 then Some NEWLINE
  else if e =? 114 then Some 13
  else if e =? 116 then Some 9
  else None.

Definition push (c : N) (r : option (pystr * pystr)) : option (pystr * pystr) :=
  match r with
  | Some (x, rest) => Some (c :: x, rest)
  | None => None
  end.

(** [scanstring], strict mode, called just after the opening quote: the
    decoded string and the text after the closing quote. *)
Fixpoint scanstring (s : pystr) : option (pystr * pystr) :=
  match s with
  | [] => None
  | c :: s1 =>
    if c =? QUOTE then Some ([], s1)
    else if c =? BACKSLASH then
      match s1 with
      | [] => None
      | e :: s2 =>
        if e =? 117 then
          match s2 with
          | a :: b :: x :: d :: s3 =>
            match s3 with
            | [] => None
            | _ :: _ =>
              match hex4 a b x d with
              | None => None
              | Some u =>
                if is_high_surrogate u then
                  match s3 with
                  | bs :: uu :: a' :: b' :: x' :: d' :: s4 =>
                    if negb (match s4 with [] => true | _ => false end)
                       && (bs =? BACKSLASH) && (uu =? 117)
                    then
                      match hex4 a' b' x' d' with
                      | None => None
                      | Some u2 =>
                        if is_low_surrogate u2
                        then push (join_surrogates u u2) (scanstring s4)
                        else push u (scanstring s3)
                      end
                    else push u (scanstring s3)
                  | _ => push u (scanstring s3)
                  end
                else push u (scanstring s3)
              end
            end
          | _ => None
          end
        else
          match simple_escape e with
          | Some ch => push ch (scanstring s2)
          | None => None
          end
      end
    else if c <=? 0x1F then None
    else push c (scanstring s1)
  end.

(** The loop of [_parse_array], entered at the first item. *)
Fixpoint parse_array_items (scan_value : pystr -> scan json) (n : nat)
    (s : pystr) (acc : list json) : scan (list json) :=
  match n with
  | O => Starved
  | S n' =>
    match scan_value s with
    | Scanned v s1 =>
      match skip_ws s1 with
      | c :: s2 =>
        if c =? RBRACKET then Scanned (acc ++ [v]) s2
        else if c =? COMMA
        then parse_array_items scan_value n' (skip_ws s2) (acc ++ [v])
        else Invalid
      | [] => Invalid
      end
    | Invalid => Invalid
    | Starved => Starved
    end
  end.

(** [_parse_array], called just after the opening bracket. *)
Definition parse_array (scan_value : pystr -> scan json) (n : nat) (s : pystr)
  : scan (list json) :=
  match skip_ws s with
  | c :: s1 =>
    if c =? RBRACKET then Scanned [] s1
    else parse_array_items scan_value n (c :: s1) []
  | [] => Invalid
  end.

(** The loop of [_parse_object], entered at the first key. *)
Fixpoint parse_object_items (scan_value : pystr -> scan json) (n : nat)
    (s : pystr) (acc : list (pystr * json)) : scan (list (pystr * json)) :=
  match n with
  | O => Starved
  | S n' =>
    match s with
    | q :: s1 =>
      if q =? QUOTE then
        match scanstring s1 with
        | Some (key, s2) =>
          match skip_ws s2 with
          | c :: s3 =>
            if c =? COLON then
              match scan_value (skip_ws s3) with
              | Scanned v s4 =>
                match skip_ws s4 with
                | c' :: s5 =>
                  if c' =? RBRACE then Scanned (dict_set acc key v) s5
                  else if c' =? COMMA
                  then parse_object_items scan_value n' (skip_ws s5)
                         (dict_set acc key v)
                  else Invalid
                | [] => Invalid
                end
              | Invalid => Invalid
              | Starved => Starved
              end
            else Invalid
          | [] => Invalid
          end
        | None => Invalid
        end
      else Invalid
    | [] => Invalid
    end
  end.

(** [_parse_object], called just after the opening brace. *)
Definition parse_object (scan_value : pystr -> scan json) (n : nat) (s : pystr)
  : scan (list (pystr * json)) :=
  match skip_ws s with
  | c :: s1 =>
    if c =? RBRACE then Scanned [] s1
    else parse_object_items scan_value n (c :: s1) []
  | [] => Invalid
  end.

(** Does [s] start with [c] followed by the literal [tail]? *)
Definition keyword (c : N) (tail : string) (s : pystr) : option pystr :=
  match s with
  | c' :: s' => if c' =? c then strip (str tail) s' else None
  | [] => None
  end.

(** A number at the head of [s]: [int] or [float] by the form of the
    literal. *)
Definition scan_number (s : pystr) : scan json :=
  match match_number s with
  | Some (lit, true, rest) => Scanned (JFloat (float_of_str lit)) rest
  | Some (lit, false, rest) => Scanned (JInt (int_of_str lit)) rest
  | None => Invalid
  end.

(** [scan_once]: one JSON value at the head of [s]. The fuel bounds the
    nesting depth and the number of items of one container. *)
Fixpoint scan_once (fuel : nat) (s : pystr) : scan json :=
  match fuel with
  | O => Starved
  | S fuel' =>
    match s with
    | [] => Invalid
    | c :: s1 =>
      if c =? QUOTE then
        match scanstring s1 with
        | Some (x, rest) => Scanned (JStr x) rest
        | None => Invalid
        end
      else if c =? LBRACE
      then scan_map JDict (parse_object (scan_once fuel') fuel' s1)
      else if c =? LBRACKET
      then scan_map JList (parse_array (scan_once fuel') fuel' s1)
      else
        match keyword 110 "ull" s with
        | Some rest => Scanned JNull rest
        | None =>
        match keyword 116 "rue" s with
        | Some rest => Scanned (JBool true) rest
        | None =>
        match keyword 102 "alse" s with
        | Some rest => Scanned (JBool false) rest
        | None =>
        match keyword 78 "aN" s with
        | Some rest => Scanned (JFloat float_nan) rest
        | None =>
        match keyword 73 "nfinity" s with
        | Some rest => Scanned (JFloat float_inf) rest
        | None =>
        match keyword MINUS "Infinity" s with
        | Some rest => Scanned (JFloat float_neg_inf) rest
        | None => scan_number s
        end end end end end end
    end
  end.

(** [json.loads(s)] for a [str]: no byte order mark, one value between
    optional white space, nothing after it. [None] stands for
    [JSONDecodeError]. *)
Definition json_loads (s : pystr) : option json :=
  match s with
  | c :: _ => if c =? 0xFEFF then None else
    match scan_once (S (length s)) (skip_ws s) with
    | Scanned v rest =>
      match skip_ws rest with
      | [] => Some v
      | _ :: _ => None
      end
    | _ => None
    end
  | [] => None
  end.

(** ** The encoder ([json.dump] with [indent=2]) *)

(** [Py_hexdigits[n]]. *)
Definition hexdigit (n : N) : N := if n <? 10 then ZERO + n else 87 + n.

(** A backslash, [u] and four lower-case hex digits. *)
Definition u_escape (n : N) : pystr :=
  [BACKSLASH; 117;
   hexdigit (N.land (N.shiftr n 12) 0xF); hexdigit (N.land (N.shiftr n 8) 0xF);
   hexdigit (N.land (N.shiftr n 4) 0xF); hexdigit (N.land n 0xF)].

(** What [ESCAPE_ASCII] substitutes for one character. *)
Definition escape_char (c : N) : pystr :=
  if c =? BACKSLASH then [BACKSLASH; BACKSLASH]
  else if c =? QUOTE then [BACKSLASH; QUOTE]
  else if c =? 8 then [BACKSLASH; 98]
  else if c =? 12 then [BACKSLASH; 102]
  else if c =? NEWLINE then [BACKSLASH; 110]
  else if c =? 13 then [BACKSLASH; 114]
  else if c =? 9 then [BACKSLASH; 116]
  else if (SPACE <=? c) && (c <=? 126) then [c]
  else if c <? 0x10000 then u_escape c
  else
    let n := c - 0x10000 in
    u_escape (N.lor 0xD800 (N.land (N.shiftr n 10) 0x3FF))
      ++ u_escape (N.lor 0xDC00 (N.land n 0x3FF)).

(** [encode_basestring_ascii]. *)
Definition encode_basestring_ascii (s : pystr) : pystr :=
  QUOTE :: List.concat (List.map escape_char s) ++ [QUOTE].

(** [floatstr] with [allow_nan=True]. *)
Definition floatstr (f : float) : pystr :=
  match float_classify f with
  | FNaN => str "NaN"
  | FPosInf => str "Infinity"
  | FNegInf => str "-Infinity"
  | FFinite => float_repr f
  end.

(** The text of a value that is not a container; [None] for a list or dict. *)
Definition atom (o : json) : option pystr :=
  match o with
  | JStr s => Some (encode_basestring_ascii s)
  | JNull => Some (str "null")
  | JBool true => Some (str "true")
  | JBool false => Some (str "false")
  | JInt z => Some (int_repr z)
  | JFloat f => Some (floatstr f)
  | JList _ | JDict _ => None
  end.

(** [_indent * level], with [_indent] two spaces. *)
Definition indent_str (level : nat) : pystr := List.repeat SPACE (2 * level).

(** [_iterencode]: the chunks the encoder yields, in order. In a list the
    opening bracket or the separator is held in [buf] and yielded with the
    next item; in a dict every piece is a chunk of its own. *)
Fixpoint iterencode (o : json) (level : nat) {struct o} : list pystr :=
  match o with
  | JList [] => [str "[]"]
  | JList l =>
    let newline_indent := NEWLINE :: indent_str (S level) in
    let separator := COMMA :: newline_indent in
    (fix items (l : list json) (buf : pystr) {struct l} : list pystr :=
       match l with
       | [] => []
       | v :: l' =>
         match atom v with
         | Some t => [buf ++ t]
         | None => buf :: iterencode v (S level)
         end ++ items l' separator
       end) l (LBRACKET :: newline_indent)
    ++ [NEWLINE :: indent_str level; [RBRACKET]]
  | JDict [] => [str "{}"]
  | JDict d =>
    let newline_indent := NEWLINE :: indent_str (S level) in
    let item_separator := COMMA :: newline_indent in
    [LBRACE] :: newline_indent ::
    (fix items (d : list (pystr * json)) (first : bool) {struct d} : list pystr :=
       match d with
       | [] => []
       | (k, v) :: d' =>
         (if first then [] else [item_separator])
         ++ encode_basestring_ascii k :: [COLON; SPACE]
         :: match atom v with
            | Some t => [t]
            | None => iterencode v (S level)
            end ++ items d' false
       end) d true
    ++ [NEWLINE :: indent_str level; [RBRACE]]
  | _ => match atom o with Some t => [t] | None => [] end
  end.

(** The text [json.dump(o, f, indent=2)] writes to [f], chunk after chunk. *)
Definition json_dumps (o : json) : pystr := List.concat (iterencode o 0).

End Json.

(** ** Pretty-printing, as the specification words it

    A value printed with two spaces per nesting level: an empty container
    on one line, otherwise one item per line, a comma after every item but
    the last, a colon and a space between key and value, keys in the order
    of the dict and nothing but the dict's own items. *)
Section Items.
Context {A : Type} (separator : pystr) (item : A -> pystr).

(** The items after the first one, each after a separator. *)
Fixpoint more_items (l : list A) : pystr :=
  match l with
  | [] => []
  | x :: l' => separator ++ item x ++ more_items l'
  end.

End Items.

Section Pretty.
Context {PF : PyFloat}.

Fixpoint pretty (o : json) (level : nat) {struct o} : pystr :=
  let line := NEWLINE :: indent_str (S level) in
  match o with
  | JList [] => str "[]"
  | JList (v :: l) =>
    LBRACKET :: line ++ pretty v (S level)
    ++ more_items (COMMA :: line) (fun v => pretty v (S level)) l
    ++ NEWLINE :: indent_str level ++ [RBRACKET]
  | JDict [] => str "{}"
  | JDict ((k, v) :: d) =>
    LBRACE :: line
    ++ (encode_basestring_ascii k ++ COLON :: SPACE :: pretty v (S level))
    ++ more_items (COMMA :: line)
         (fun kv => encode_basestring_ascii (fst kv)
                    ++ COLON :: SPACE :: pretty (snd kv) (S level)) d
    ++ NEWLINE :: indent_str level ++ [RBRACE]
  | JNull => str "null"
  | JBool true => str "true"
  | JBool false => str "false"
  | JInt z => int_repr z
  | JFloat f => floatstr f
  | JStr s => encode_basestring_ascii s
  end.

End Pretty.

(** ** The values the decoder builds

    A string read from text without surrogates holds code points up to
    U+10FFFF and never a high surrogate followed by a low one (the decoder
    joins such a pair of escapes into one code point); the keys of a dict
    are distinct. *)
Fixpoint str_ok (s : pystr) : bool :=
  match s with
  | [] => true
  | c :: s' =>
    (c <? 0x110000)
    && negb (is_high_surrogate c
             && match s' with d :: _ => is_low_surrogate d | [] => false end)
    && str_ok s'
  end.

Section Wellformed.
Context {PF : PyFloat}.

Inductive json_ok : json -> Prop :=
| ok_null : json_ok JNull
| ok_bool b : json_ok (JBool b)
| ok_int z : json_ok (JInt z)
| ok_float f : json_ok (JFloat f)
| ok_str s : str_ok s = true -> json_ok (JStr s)
| ok_list l : Forall json_ok l -> json_ok (JList l)
| ok_dict d :
    NoDup (List.map fst d) ->
    Forall (fun kv => str_ok (fst kv) = true /\ json_ok (snd kv)) d ->
    json_ok (JDict d).

(** Fuel that lets [scan_once] read a value back: one more than the
    nesting depth and than the length of any container in it. *)
Fixpoint fuel_for (v : json) : nat :=
  match v with
  | JList l => S (Nat.max (length l) (list_max (List.map fuel_for l)))
  | JDict d =>
    S (Nat.max (length d) (list_max (List.map (fun kv => fuel_for (snd kv)) d)))
  | _ => 1%nat
  end.

End Wellformed.

(** What may follow a value in the encoder's output: nothing, a comma or
    a line break. *)
Definition is_delim (rest : pystr) : bool :=
  match rest with
  | [] => true
  | c :: _ => (c =? COMMA) || (c =? NEWLINE)
  end.

(** ** [datetime.now().strftime] and [os.path.join] *)

Record datetime := {
  year : N; month : N; day : N;
  hour : N; minute : N; second : N; microsecond : N
}.

(** The range of the fields of a [datetime]. *)
Definition datetime_ok (t : datetime) : bool :=
  (1 <=? year t) && (year t <=? 9999)
  && (1 <=? month t) && (month t <=? 12)
  && (1 <=? day t) && (day t <=? 31)
  && (hour t <=? 23) && (minute t <=? 59) && (second t <=? 59)
  && (microsecond t <=? 999999).

Definition decimal (n : N) : pystr := digits_of_uint (N.to_uint n).

(** The last [width] decimal digits of a number. *)
Fixpoint last_digits (width : nat) (n : N) : pystr :=
  match width with
  | O => []
  | S w => last_digits w (n / 10) ++ [ZERO + n mod 10]
  end.

(** A number in decimal, padded with zeros on the left up to [width]
    (the conversion [%02d] for width 2). *)
Definition zero_pad (width : nat) (n : N) : pystr :=
  if n <? 10 ^ N.of_nat width then last_digits width n else decimal n.

(** [strftime('%Y%m%d_%H%M%S_%f')]. The year is printed as the C library
    prints it, without padding; the other fields have a fixed width. *)
Definition strftime (t : datetime) : pystr :=
  decimal (year t) ++ zero_pad 2 (month t) ++ zero_pad 2 (day t)
  ++ UNDERSCORE :: zero_pad 2 (hour t) ++ zero_pad 2 (minute t)
  ++ zero_pad 2 (second t)
  ++ UNDERSCORE :: zero_pad 6 (microsecond t).

(** [os.path.join(a, b)] of [posixpath]: [b] alone when it is absolute,
    else [a] and [b] with one separator between them unless [a] is empty
    or already ends with one. *)
Definition os_path_join (a b : pystr) : pystr :=
  if match b with c :: _ => c =? SLASH | [] => false end then b
  else if List.last a SLASH =? SLASH then a ++ b
  else a ++ SLASH :: b.

(** ** Exceptions, the environment and the world

    Only subclasses of [Exception] are raised by what is modelled here, so
    every [except Exception] clause catches every [exn]. *)
Inductive exn :=
| UnicodeDecodeError
| JSONDecodeError
| AttributeError (attribute : string)
| LibraryError (class : string).

(** A method sent to the broker. *)
Inductive frame :=
| ExchangeDeclare (exchange exchange_type : pystr) (durable : bool)
| QueueDeclare (queue : pystr) (exclusive : bool)
| QueueBind (exchange queue routing_key : pystr)
| BasicConsume (queue : pystr)
| BasicAck (delivery_tag : N)
| BasicNack (delivery_tag : N) (requeue : bool)
| BasicCancel
| ConnectionClose.

(** A line printed on standard output. *)
Inductive line :=
| ProcessorStarting
| ConfigUrl (url : pystr)
| ConfigVHost (vhost : pystr)
| ConfigExchange (exchange : pystr)
| ConfigOutputFolder (folder : pystr)
| OutputFolderReady (folder : pystr)
| AttemptingConnection (url : pystr)
| ConnectedSuccessfully
| ConnectionAttemptFailed (number : nat) (e : exn)
| RetryingIn (seconds : N)
| MaxRetriesReached
| QueueBound (queue exchange : pystr)
| MessageSaved (filename : pystr)
| ErrorProcessingMessage (e : exn)
| WaitingForMessages (exchange : pystr)
| ListeningOnQueue (queue : pystr)
| StoppingConsumer.

(** What the outside world answers. [clock n] is the [n]-th reading of
    [datetime.now()]; [dial_fault n] tells whether the [n]-th call of
    [BlockingConnection] raises, [channel_fault n] whether opening a
    channel on that connection does; [write_fault path text] tells whether
    flushing [text] to [path] raises and after how many characters;
    [makedirs_fault name] whether creating the directory [name] raises;
    [broker_fault f] whether the call that issues the method [f] raises. *)
Record Env := {
  getenv : string -> option pystr;
  clock : nat -> datetime;
  makedirs_fault : pystr -> option exn;
  open_fault : pystr -> option exn;
  write_fault : pystr -> pystr -> option (exn * nat);
  url_fault : pystr -> option exn;
  dial_fault : nat -> option exn;
  channel_fault : nat -> option exn;
  broker_fault : frame -> option exn;
  server_queue_name : pystr
}.

(** The fields of a [MessageProcessor]; the last three are unset until
    [connect] assigns them. *)
Record Self := {
  rabbitmq_url : pystr;
  vhost : pystr;
  exchange : pystr;
  output_folder : pystr;
  connection : option nat;
  channel : option nat;
  queue_name : option pystr
}.

(** The state of the world: files by path, directories, the lines printed,
    the methods issued (a call that raises has issued its method), the
    seconds slept, and how often the clock was read and a connection
    dialled. *)
Record World := {
  files : gmap pystr pystr;
  dirs : gset pystr;
  stdout : list line;
  sent : list frame;
  slept : N;
  clock_reads : nat;
  dials : nat
}.

Definition State : Type := Self * World.

Definition with_files (f : gmap pystr pystr) (w : World) : World :=
  {| files := f; dirs := dirs w; stdout := stdout w; sent := sent w;
     slept := slept w; clock_reads := clock_reads w; dials := dials w |}.
Definition with_dirs (d : gset pystr) (w : World) : World :=
  {| files := files w; dirs := d; stdout := stdout w; sent := sent w;
     slept := slept w; clock_reads := clock_reads w; dials := dials w |}.
Definition with_stdout (l : list line) (w : World) : World :=
  {| files := files w; dirs := dirs w; stdout := l; sent := sent w;
     slept := slept w; clock_reads := clock_reads w; dials := dials w |}.
Definition with_sent (l : list frame) (w : World) : World :=
  {| files := files w; dirs := dirs w; stdout := stdout w; sent := l;
     slept := slept w; clock_reads := clock_reads w; dials := dials w |}.
Definition with_slept (n : N) (w : World) : World :=
  {| files := files w; dirs := dirs w; stdout := stdout w; sent := sent w;
     slept := n; clock_reads := clock_reads w; dials := dials w |}.
Definition with_clock_reads (n : nat) (w : World) : World :=
  {| files := files w; dirs := dirs w; stdout := stdout w; sent := sent w;
     slept := slept w; clock_reads := n; dials := dials w |}.
Definition with_dials (n : nat) (w : World) : World :=
  {| files := files w; dirs := dirs w; stdout := stdout w; sent := sent w;
     slept := slept w; clock_reads := clock_reads w; dials := n |}.

Definition with_connection (c : option nat) (o : Self) : Self :=
  {| rabbitmq_url := rabbitmq_url o; vhost := vhost o; exchange := exchange o;
     output_folder := output_folder o; connection := c; channel := channel o;
     queue_name := queue_name o |}.
Definition with_channel (c : option nat) (o : Self) : Self :=
  {| rabbitmq_url := rabbitmq_url o; vhost := vhost o; exchange := exchange o;
     output_folder := output_folder o; connection := connection o; channel := c;
     queue_name := queue_name o |}.
Definition with_queue_name (q : option pystr) (o : Self) : Self :=
  {| rabbitmq_url := rabbitmq_url o; vhost := vhost o; exchange := exchange o;
     output_folder := output_folder o; connection := connection o;
     channel := channel o; queue_name := q |}.

(** ** Statements: state and exceptions *)

Inductive outcome (A : Type) :=
| Return (a : A) (st : State)
| Raise (e : exn) (st : State).
Arguments Return {A} a st.
Arguments Raise {A} e st.

Definition M (A : Type) : Type := State -> outcome A.

#[global] Instance M_ret : MRet M := fun A a st => Return a st.
#[global] Instance M_bind : MBind M := fun A B k m st =>
  match m st with
  | Return a st' => k a st'
  | Raise e st' => Raise e st'
  end.

Definition raise {A} (e : exn) : M A := fun st => Raise e st.

(** [try: body / except Exception as e: handler(e)]. *)
Definition try_except {A} (body : M A) (handler : exn -> M A) : M A :=
  fun st =>
    match body st with
    | Return a st' => Return a st'
    | Raise e st' => handler e st'
    end.

Definition get_self : M Self := fun st => Return (fst st) st.
Definition set_self (f : Self -> Self) : M unit :=
  fun st => Return tt (f (fst st), snd st).
Definition get_world : M World := fun st => Return (snd st) st.
Definition set_world (f : World -> World) : M unit :=
  fun st => Return tt (fst st, f (snd st)).

(** Reading an attribute that may not have been assigned yet. *)
Definition attribute {A} (name : string) (field : Self -> option A) : M A :=
  fun st =>
    match field (fst st) with
    | Some a => Return a st
    | None => Raise (AttributeError name) st
    end.

Definition print (l : line) : M unit :=
  set_world (fun w => with_stdout (stdout w ++ [l]) w).

Definition time_sleep (seconds : N) : M unit :=
  set_world (fun w => with_slept (slept w + seconds) w).

(** Issuing a method: the world records it. *)
Definition send (f : frame) : M unit :=
  set_world (fun w => with_sent (sent w ++ [f]) w).

(** [os.getenv(name, default)]. *)
Definition os_getenv (env : Env) (name : string) (default : pystr) : pystr :=
  match getenv env name with
  | Some v => v
  | None => default
  end.

Section Processor.
Context {PF : PyFloat}.
Variable env : Env.

Definition datetime_now : M datetime :=
  fun st =>
    let w := snd st in
    Return (clock env (clock_reads w))
           (fst st, with_clock_reads (S (clock_reads w)) w).

(** [json.dump(o, f, indent=2)] on a file whose buffer holds [buffer]:
    [f.write(chunk)] for every chunk. *)
Definition json_dump (o : json) (buffer : pystr) : pystr :=
  List.fold_left (fun b chunk => b ++ chunk) (iterencode o 0) buffer.

(** [with open(path, 'w') as f: json.dump(o, f, indent=2)]. Opening
    creates the file or truncates the one that is there; the chunks go to
    the buffer of [f]; leaving the block closes [f], which flushes the
    buffer to the file. *)
Definition dump_to_file (path : pystr) (o : json) : M unit :=
  fun st =>
    match open_fault env path with
    | Some e => Raise e st
    | None =>
      let buffer := json_dump o [] in
      match write_fault env path buffer with
      | Some (e, n) =>
        Raise e (fst st, with_files (<[path := take n buffer]> (files (snd st))) (snd st))
      | None =>
        Return tt (fst st, with_files (<[path := buffer]> (files (snd st))) (snd st))
      end
    end.

(** A call of the channel or the connection that issues the method [f]
    and may raise. *)
Definition request (f : frame) : M unit :=
  send f;;
  match broker_fault env f with
  | Some e => raise e
  | None => mret tt
  end.

(** [os.makedirs(name, exist_ok=True)]: the empty name is no path; a
    directory that is there is left alone. *)
Definition os_makedirs (name : pystr) : M unit :=
  match name with
  | [] => raise (LibraryError "FileNotFoundError")
  | _ :: _ =>
    match makedirs_fault env name with
    | Some e => raise e
    | None => set_world (fun w => with_dirs ({[name]} ∪ dirs w) w)
    end
  end.

(** *** [MessageProcessor.__init__] *)
Definition init : M unit :=
  let url := os_getenv env "RABBITMQ_URL" (str "amqp://localhost") in
  let vh := os_getenv env "RABBITMQ_VHOST" (str "/") in
  let ex := os_getenv env "RABBITMQ_EXCHANGE" (str "expenses_exchange") in
  let out := os_getenv env "OUTPUT_FOLDER" (str "./messages") in
  set_self (fun _ =>
    {| rabbitmq_url := url; vhost := vh; exchange := ex; output_folder := out;
       connection := None; channel := None; queue_name := None |});;
  print ProcessorStarting;;
  print (ConfigUrl url);;
  print (ConfigVHost vh);;
  print (ConfigExchange ex);;
  print (ConfigOutputFolder out);;
  os_makedirs out;;
  print (OutputFolderReady out).

(** *** [MessageProcessor.connect] *)
Definition max_retries : nat := 5.
Definition retry_delay : N := 5.

(** The body of the [try] block of one attempt. *)
Definition dial : M unit :=
  self ← get_self;
  let url := rabbitmq_url self ++ vhost self in
  print (AttemptingConnection url);;
  match url_fault env url with Some e => raise e | None => mret tt end;;
  w ← get_world;
  let n := dials w in
  set_world (with_dials (S n));;
  match dial_fault env n with Some e => raise e | None => mret tt end;;
  set_self (with_connection (Some n));;
  match channel_fault env n with Some e => raise e | None => mret tt end;;
  set_self (with_channel (Some n));;
  print ConnectedSuccessfully.

(** [for attempt in attempts], left by [break] after a successful attempt
    and by [raise] after the last failed one. *)
Fixpoint connect_loop (attempts : list nat) : M unit :=
  match attempts with
  | [] => mret tt
  | attempt :: later =>
    try_except dial (fun e =>
      print (ConnectionAttemptFailed (attempt + 1) e);;
      if (attempt <? max_retries - 1)%nat then
        print (RetryingIn retry_delay);;
        time_sleep retry_delay;;
        connect_loop later
      else
        print MaxRetriesReached;;
        raise e)
  end.

(** What follows the loop: the exchange, the queue and the binding. *)
Definition declare_and_bind : M unit :=
  _ ← attribute "channel" channel;
  self ← get_self;
  request (ExchangeDeclare (exchange self) (str "topic") true);;
  _ ← attribute "channel" channel;
  request (QueueDeclare [] true);;
  set_self (with_queue_name (Some (server_queue_name env)));;
  _ ← attribute "channel" channel;
  request (QueueBind (exchange self) (server_queue_name env) (str "expense.*"));;
  print (QueueBound (server_queue_name env) (exchange self)).

Definition connect : M unit :=
  connect_loop (seq 0 max_retries);;
  declare_and_bind.

(** The name of the file of a message: the time stamp, an underscore, the
    routing key and the suffix. *)
Definition filename_of (now : datetime) (routing_key : pystr) : pystr :=
  let timestamp := strftime now in
  timestamp ++ UNDERSCORE :: routing_key ++ str ".json".

(** *** [MessageProcessor.callback]

    [ch] is the channel the message came on, [method] carries the routing
    key and the delivery tag, [properties] is not used. The acknowledgment
    is inside the [try] block: when [basic_ack] raises, the handler
    rejects the message; when [basic_nack] raises, the exception leaves
    the handler. *)
Definition callback (routing_key : pystr) (delivery_tag : N) (body : list N)
  : M unit :=
  try_except
    (text ← match Utf8.decode body with
            | Some t => mret t
            | None => raise UnicodeDecodeError
            end;
     message ← match json_loads text with
               | Some v => mret v
               | None => raise JSONDecodeError
               end;
     now ← datetime_now;
     let filename := filename_of now routing_key in
     self ← get_self;
     let filepath := os_path_join (output_folder self) filename in
     dump_to_file filepath message;;
     print (MessageSaved filename);;
     request (BasicAck delivery_tag))
    (fun e =>
       print (ErrorProcessingMessage e);;
       request (BasicNack delivery_tag false)).

(** *** [MessageProcessor.start_consuming] *)

(** What reaches the blocked consumer: a delivery, the interrupt signal
    that raises [KeyboardInterrupt], or an error that the loop of the
    library raises (the connection is lost, the broker closes the
    channel). *)
Inductive event :=
| Deliver (routing_key : pystr) (delivery_tag : N) (body : list N)
| Interrupt
| Lost (e : exn).

Inductive consuming := Interrupted | Waiting.

(** [channel.start_consuming()]: one call of the handler per delivery, in
    order, until the interrupt. An exception that leaves the handler, or
    that the library raises, leaves the loop. When the events run out the
    consumer is still waiting. *)
Fixpoint dispatch (events : list event) : M consuming :=
  match events with
  | [] => mret Waiting
  | Interrupt :: _ => mret Interrupted
  | Lost e :: _ => raise e
  | Deliver k tag body :: later => callback k tag body;; dispatch later
  end.

(** Only [KeyboardInterrupt] is caught: any other exception leaves
    [start_consuming], and so do those of the two calls of the handler of
    the interrupt. *)
Definition start_consuming (events : list event) : M consuming :=
  _ ← attribute "channel" channel;
  q ← attribute "queue_name" queue_name;
  request (BasicConsume q);;
  self ← get_self;
  print (WaitingForMessages (exchange self));;
  print (ListeningOnQueue q);;
  _ ← attribute "channel" channel;
  r ← dispatch events;
  match r with
  | Waiting => mret Waiting
  | Interrupted =>
    print StoppingConsumer;;
    _ ← attribute "channel" channel;
    request BasicCancel;;
    _ ← attribute "connection" connection;
    request ConnectionClose;;
    mret Interrupted
  end.

(** *** The script: [__main__] *)

(** How the process stands after the events: exited with a code, or
    still consuming. *)
Inductive status := Exited (code : N) | Consuming.

Definition main (events : list event) (st : State) : status * World :=
  match (init;; connect;; start_consuming events) st with
  | Return Interrupted st' => (Exited 0, snd st')
  | Return Waiting st' => (Consuming, snd st')
  | Raise _ st' => (Exited 1, snd st')
  end.

End Processor.

(** ** Notions used to state the properties *)

(** The error of the attempt that dials connection number [n], if it
    fails: the URL is refused, or the connection, or its channel. *)
Definition attempt_error (env : Env) (url : pystr) (n : nat) : option exn :=
  match url_fault env url with
  | Some e => Some e
  | None =>
    match dial_fault env n with
    | Some e => Some e
    | None => channel_fault env n
    end
  end.

(** How many connection attempts the output shows. *)
Definition attempts_logged (lines : list line) : nat :=
  length (List.filter
            (fun l => match l with AttemptingConnection _ => true | _ => false end)
            lines).

Section Notions.
Context {PF : PyFloat}.
Variable env : Env.

(** The path the handler writes for a message that arrives in state [st]. *)
Definition filepath_of (st : State) (routing_key : pystr) : pystr :=
  os_path_join (output_folder (fst st))
    (filename_of (clock env (clock_reads (snd st))) routing_key).

(** Processing succeeds: the payload decodes, and the file can be opened
    and written. *)
Definition processed (st : State) (routing_key : pystr) (body : list N) : bool :=
  match Utf8.decode body with
  | None => false
  | Some text =>
    match json_loads text with
    | None => false
    | Some v =>
      let path := filepath_of st routing_key in
      match open_fault env path, write_fault env path (json_dumps v) with
      | None, None => true
      | _, _ => false
      end
    end
  end.

(** The state in which the handler has rejected a message for error [e]:
    the error is printed and the nack issued. *)
Definition rejected (e : exn) (delivery_tag : N) (st : State) : State :=
  (fst st,
   with_sent (sent (snd st) ++ [BasicNack delivery_tag false])
     (with_stdout (stdout (snd st) ++ [ErrorProcessingMessage e]) (snd st))).

(** The state after the clock was read once. *)
Definition ticked (st : State) : State :=
  (fst st, with_clock_reads (S (clock_reads (snd st))) (snd st)).

(** The state after [content] was put in the file at [path]. *)
Definition stored (path content : pystr) (st : State) : State :=
  (fst st, with_files (<[path := content]> (files (snd st))) (snd st)).

(** The state in which the handler has acknowledged a message: the line
    is printed and the ack issued. *)
Definition acknowledged (filename : pystr) (delivery_tag : N) (st : State) : State :=
  (fst st,
   with_sent (sent (snd st) ++ [BasicAck delivery_tag])
     (with_stdout (stdout (snd st) ++ [MessageSaved filename]) (snd st))).

(** How the handler ends once it has rejected the message and is in
    state [st]: it returns, unless [basic_nack] raises. *)
Definition nacked (delivery_tag : N) (st : State) : outcome unit :=
  match broker_fault env (BasicNack delivery_tag false) with
  | None => Return tt st
  | Some e => Raise e st
  end.

(** How the handler ends once it has acknowledged the message and is in
    state [st]: it returns, unless [basic_ack] raises, and then it rejects
    the message for that error. *)
Definition acked (delivery_tag : N) (st : State) : outcome unit :=
  match broker_fault env (BasicAck delivery_tag) with
  | None => Return tt st
  | Some e => nacked delivery_tag (rejected e delivery_tag st)
  end.

End Notions.

(** ** Notions of a whole run *)

(** The state a statement leaves, whether it returns or raises. *)
Definition final_state {A} (o : outcome A) : State :=
  match o with
  | Return _ st | Raise _ st => st
  end.

(** The deliveries the consumer handles: those before the first interrupt. *)
Fixpoint delivered (events : list event) : list (pystr * N * list N) :=
  match events with
  | Deliver k tag body :: later => (k, tag, body) :: delivered later
  | _ => []
  end.

(** What ends the deliveries: the first event that is not one, if any. *)
Inductive ending := StillWaiting | ByInterrupt | ByError (e : exn).

Fixpoint ending_of (events : list event) : ending :=
  match events with
  | [] => StillWaiting
  | Deliver _ _ _ :: later => ending_of later
  | Interrupt :: _ => ByInterrupt
  | Lost e :: _ => ByError e
  end.

(** A broker that refuses no method. *)
Definition accepting (env : Env) : Prop := forall f, broker_fault env f = None.

(** [f] confirms the delivery [d]: an ack, or a nack without requeue, that
    carries its tag. *)
Definition confirms (d : pystr * N * list N) (f : frame) : Prop :=
  f = BasicAck (snd (fst d)) \/ f = BasicNack (snd (fst d)) false.

(** The lines the handler prints: one per message. *)
Definition handler_line (l : line) : Prop :=
  (exists filename, l = MessageSaved filename)
  \/ (exists e, l = ErrorProcessingMessage e).

Section RunNotions.
Context {PF : PyFloat}.

(** The payload is UTF-8 text that parses as JSON. *)
Definition parses (body : list N) : bool :=
  match Utf8.decode body with
  | Some text =>
    match json_loads text with
    | Some _ => true
    | None => false
    end
  | None => false
  end.

End RunNotions.

(** ** Floats as their literals

    An instance of [PyFloat] for running the model: a finite float is the
    literal it was read from. *)
Inductive text_float :=
| TNaN
| TInf
| TNegInf
| TFinite (s : pystr) (literal : is_float_literal s = true).

Definition text_float_of_str (s : pystr) : text_float :=
  match Bool.bool_dec (is_float_literal s) true with
  | left H => TFinite s H
  | right _ => TNaN
  end.

Definition text_float_classify (f : text_float) : float_kind :=
  match f with
  | TNaN => FNaN
  | TInf => FPosInf
  | TNegInf => FNegInf
  | TFinite _ _ => FFinite
  end.

Definition text_float_repr (f : text_float) : pystr :=
  match f with
  | TNaN => str "nan"
  | TInf => str "inf"
  | TNegInf => str "-inf"
  | TFinite s _ => s
  end.

(** The laws hold: the kinds are told apart by the constructors, and a
    literal read back is the same literal. *)
Definition text_floats : PyFloat :=
  {| float := text_float;
     float_of_str := text_float_of_str;
     float_nan := TNaN;
     float_inf := TInf;
     float_neg_inf := TNegInf;
     float_classify := text_float_classify;
     float_repr := text_float_repr;
     classify_nan := ltac:(intros []; cbn; split; congruence);
     classify_inf := ltac:(intros []; cbn; split; congruence);
     classify_neg_inf := ltac:(intros []; cbn; split; congruence);
     repr_literal := ltac:(intros []; cbn; congruence);
     repr_roundtrip :=
       ltac:(intros [ | | |s H]; cbn; try discriminate; intros _;
             unfold text_float_of_str;
             destruct (Bool.bool_dec _ _) as [H'|Hn]; [|contradiction];
             f_equal; apply Eqdep_dec.UIP_dec, Bool.bool_dec) |}.

(** ** Scenarios *)

(** The directory part of a path: what stands before its last slash. *)
Fixpoint parent (p : pystr) : pystr :=
  match p with
  | [] => []
  | c :: p' => if existsb (N.eqb SLASH) p' then c :: parent p' else []
  end.

(** A disk where [folder] is the only directory: a file opens there and
    nowhere else. *)
Definition only_folder (folder path : pystr) : option exn :=
  if decide (parent path = folder) then None
  else Some (LibraryError "FileNotFoundError").

(** A quiet world: the clock starts at 2026-01-02 03:04:05.000006 and
    advances by a microsecond a reading (within the second), the disk holds
    the default output folder, and nothing fails. *)
Definition quiet_env : Env :=
  {| getenv := fun _ => None;
     makedirs_fault := fun _ => None;
     clock := fun n =>
       {| year := 2026; month := 1; day := 2; hour := 3; minute := 4;
          second := 5; microsecond := (6 + N.of_nat n) mod 1000000 |};
     open_fault := only_folder (str "./messages");
     write_fault := fun _ _ => None;
     url_fault := fun _ => None;
     dial_fault := fun _ => None;
     channel_fault := fun _ => None;
     broker_fault := fun _ => None;
     server_queue_name := str "amq.gen-1" |}.

(** The same world with a transport that refuses the first [n] connections. *)
Definition flaky_env (n : nat) : Env :=
  {| getenv := getenv quiet_env; clock := clock quiet_env;
     makedirs_fault := makedirs_fault quiet_env;
     open_fault := open_fault quiet_env; write_fault := write_fault quiet_env;
     url_fault := url_fault quiet_env;
     dial_fault := fun i =>
       if (i <? n)%nat then Some (LibraryError "AMQPConnectionError") else None;
     channel_fault := channel_fault quiet_env;
     broker_fault := broker_fault quiet_env;
     server_queue_name := server_queue_name quiet_env |}.

(** The same world with a broker that refuses one method. *)
Definition refusing_env (refused : frame -> bool) : Env :=
  {| getenv := getenv quiet_env; clock := clock quiet_env;
     makedirs_fault := makedirs_fault quiet_env;
     open_fault := open_fault quiet_env; write_fault := write_fault quiet_env;
     url_fault := url_fault quiet_env; dial_fault := dial_fault quiet_env;
     channel_fault := channel_fault quiet_env;
     broker_fault := fun f =>
       if refused f then Some (LibraryError "ChannelClosedByBroker") else None;
     server_queue_name := server_queue_name quiet_env |}.

(** The same world with the variable [OUTPUT_FOLDER] set to the empty
    string. *)
Definition empty_folder_env : Env :=
  {| getenv := fun name =>
       if String.eqb name "OUTPUT_FOLDER" then Some [] else None;
     clock := clock quiet_env;
     makedirs_fault := makedirs_fault quiet_env;
     open_fault := open_fault quiet_env; write_fault := write_fault quiet_env;
     url_fault := url_fault quiet_env; dial_fault := dial_fault quiet_env;
     channel_fault := channel_fault quiet_env;
     broker_fault := broker_fault quiet_env;
     server_queue_name := server_queue_name quiet_env |}.



(** The same world with a disk that fills up: a file opens, and flushing
    its text fails after [n] characters. *)
Definition full_disk_env (n : nat) : Env :=
  {| getenv := getenv quiet_env; clock := clock quiet_env;
     makedirs_fault := makedirs_fault quiet_env;
     open_fault := open_fault quiet_env;
     write_fault := fun _ _ => Some (LibraryError "OSError", n);
     url_fault := url_fault quiet_env; dial_fault := dial_fault quiet_env;
     channel_fault := channel_fault quiet_env;
     broker_fault := broker_fault quiet_env;
     server_queue_name := server_queue_name quiet_env |}.

(** The same world with a URL that [pika.URLParameters] refuses. *)
Definition bad_url_env : Env :=
  {| getenv := getenv quiet_env; clock := clock quiet_env;
     makedirs_fault := makedirs_fault quiet_env;
     open_fault := open_fault quiet_env; write_fault := write_fault quiet_env;
     url_fault := fun _ => Some (LibraryError "ValueError");
     dial_fault := dial_fault quiet_env;
     channel_fault := channel_fault quiet_env;
     broker_fault := broker_fault quiet_env;
     server_queue_name := server_queue_name quiet_env |}.

Definition empty_world : World :=
  {| files := ∅; dirs := ∅; stdout := []; sent := [];
     slept := 0; clock_reads := 0; dials := 0 |}.

(** A processor configured by default, connected and bound. *)
Definition ready_self : Self :=
  {| rabbitmq_url := str "amqp://localhost"; vhost := str "/";
     exchange := str "expenses_exchange"; output_folder := str "./messages";
     connection := Some 0%nat; channel := Some 0%nat;
     queue_name := Some (str "amq.gen-1") |}.

(** The same processor before [connect]. *)
Definition fresh_self : Self :=
  with_queue_name None (with_channel None (with_connection None ready_self)).

(** A string literal of JSON: the characters between two quotes. *)
Definition quoted (s : string) : pystr := QUOTE :: str s ++ [QUOTE].

(** The payload of the specification's example, an object with the keys
    amount (42) and category (food), the value it decodes to, the text the
    encoder prints for it, and the file it goes to in the quiet world. *)
Definition food_payload : list N :=
  str "{" ++ quoted "amount" ++ str ": 42, "
  ++ quoted "category" ++ str ": " ++ quoted "food" ++ str "}".

Definition food_value : @json text_floats :=
  JDict [(str "amount", JInt 42); (str "category", JStr (str "food"))].

Definition food_text : pystr :=
  str "{" ++ NEWLINE :: str "  " ++ quoted "amount" ++ str ": 42,"
  ++ NEWLINE :: str "  " ++ quoted "category" ++ str ": " ++ quoted "food"
  ++ NEWLINE :: str "}".

Definition food_filename : pystr := str "20260102_030405_000006_expense.food.json".
Definition food_path : pystr :=
  str "./messages/20260102_030405_000006_expense.food.json".

(** A payload with a character outside ASCII (an e with acute accent, two
    bytes in UTF-8) and the text the encoder prints for it. *)
Definition cafe_payload : list N :=
  str "{" ++ quoted "name" ++ str ": " ++ QUOTE :: str "caf" ++ [0xC3; 0xA9; QUOTE]
  ++ str "}".

Definition cafe_text : pystr :=
  str "{" ++ NEWLINE :: str "  " ++ quoted "name" ++ str ": "
  ++ QUOTE :: str "caf\u00e9" ++ QUOTE :: NEWLINE :: str "}".

(** Payloads that are not objects, and one that is not JSON. *)
Definition list_payload : list N := str "[1, 2]".
Definition not_json_payload : list N := str "{not json".

(** What a consumer may see: two deliveries, the interrupt, and a delivery
    that comes too late. *)
Definition two_then_interrupt : list event :=
  [Deliver (str "expense.food") 1 food_payload;
   Deliver (str "expense.travel") 2 not_json_payload;
   Interrupt;
   Deliver (str "expense.hotel") 3 list_payload].

(** A delivery, and then the connection is lost. *)
Definition one_then_lost : list event :=
  [Deliver (str "expense.food") 1 food_payload;
   Lost (LibraryError "StreamLostError");
   Interrupt].

(** ** Notions used in the proofs *)

(** No escape of a low surrogate at the head of a text. *)
Definition no_low_escape (s : pystr) : Prop :=
  forall a b x d s', s = BACKSLASH :: 117 :: a :: b :: x :: d :: s' ->
    exists u, hex4 a b x d = Some u /\ is_low_surrogate u = false.

Definition number_char (c : N) : Prop :=
  is_digit c = true \/ c = DOT \/ c = 101 \/ c = 69 \/ c = MINUS \/ c = PLUS.

(** A numeral without leading zero. *)
Definition leading (u : Decimal.uint) : Prop :=
  match u with
  | Nil | D0 _ => False
  | _ => True
  end.

(** A text that starts like a number. *)
Definition number_head (s : pystr) : Prop :=
  match s with
  | c :: s' =>
    is_digit c = true
    \/ (c = MINUS /\ match s' with c' :: _ => is_digit c' = true | [] => False end)
  | [] => False
  end.

(** [rest] is what is left of [s] after reading something. *)
Definition consumed (s rest : pystr) : Prop :=
  exists p, s = p ++ rest /\ p <> [].

Definition scalar_text (s : pystr) : Prop := Forall (fun c => is_scalar c = true) s.

Definition ascii_text (s : pystr) : Prop := Forall (fun c => c < 128) s.

Definition digits (s : pystr) : Prop := Forall (fun c => is_digit c = true) s.

(** Checking a property of every number of a range by computation. *)
Fixpoint all_from (count : nat) (n : N) (p : N -> bool) : bool :=
  match count with
  | O => true
  | S count' => if p n then all_from count' (N.succ n) p else false
  end.

Fixpoint pystr_eqb (a b : pystr) : bool :=
  match a, b with
  | [], [] => true
  | x :: a', y :: b' => (x =? y) && pystr_eqb a' b'
  | _, _ => false
  end.

(** What one statement leaves alone while the processor connects: the
    configuration, the files and the methods sent. *)
Definition same_setup (st st' : State) : Prop :=
  rabbitmq_url (fst st') = rabbitmq_url (fst st)
  /\ vhost (fst st') = vhost (fst st)
  /\ exchange (fst st') = exchange (fst st)
  /\ output_folder (fst st') = output_folder (fst st)
  /\ files (snd st') = files (snd st)
  /\ sent (snd st') = sent (snd st).

(** The URL the processor dials. *)
Definition url_of (st : State) : pystr := rabbitmq_url (fst st) ++ vhost (fst st).

Section ProofNotions.
Context {PF : PyFloat}.

(** What the loops need to know about the scanner of items. *)
Definition sound_scanner (scan_value : pystr -> scan json) : Prop :=
  forall s v r, scan_value s = Scanned v r ->
    consumed s r /\ (scalar_text s -> json_ok v).

Definition dict_ok (d : list (pystr * json)) : Prop :=
  NoDup (List.map fst d)
  /\ Forall (fun kv => str_ok (fst kv) = true /\ json_ok (snd kv)) d.

Variable env : Env.

(** The error [os.makedirs] raises for the folder of the configuration. *)
Definition folder_error : option exn :=
  match os_getenv env "OUTPUT_FOLDER" (str "./messages") with
  | [] => Some (LibraryError "FileNotFoundError")
  | name => makedirs_fault env name
  end.

(** The processor and the world when [__init__] raises that error: the
    configuration is assigned and printed, the folder is not there. *)
Definition halted (st : State) : State :=
  let out := os_getenv env "OUTPUT_FOLDER" (str "./messages") in
  ({| rabbitmq_url := os_getenv env "RABBITMQ_URL" (str "amqp://localhost");
      vhost := os_getenv env "RABBITMQ_VHOST" (str "/");
      exchange := os_getenv env "RABBITMQ_EXCHANGE" (str "expenses_exchange");
      output_folder := out;
      connection := None; channel := None; queue_name := None |},
   with_stdout
     (stdout (snd st)
      ++ [ProcessorStarting;
          ConfigUrl (os_getenv env "RABBITMQ_URL" (str "amqp://localhost"));
          ConfigVHost (os_getenv env "RABBITMQ_VHOST" (str "/"));
          ConfigExchange (os_getenv env "RABBITMQ_EXCHANGE" (str "expenses_exchange"));
          ConfigOutputFolder out])
     (snd st)).

(** The processor and the world after [__init__] returns. *)
Definition booted (st : State) : State :=
  let out := os_getenv env "OUTPUT_FOLDER" (str "./messages") in
  ({| rabbitmq_url := os_getenv env "RABBITMQ_URL" (str "amqp://localhost");
      vhost := os_getenv env "RABBITMQ_VHOST" (str "/");
      exchange := os_getenv env "RABBITMQ_EXCHANGE" (str "expenses_exchange");
      output_folder := out;
      connection := None; channel := None; queue_name := None |},
   with_stdout
     (stdout (snd st)
      ++ [ProcessorStarting;
          ConfigUrl (os_getenv env "RABBITMQ_URL" (str "amqp://localhost"));
          ConfigVHost (os_getenv env "RABBITMQ_VHOST" (str "/"));
          ConfigExchange (os_getenv env "RABBITMQ_EXCHANGE" (str "expenses_exchange"));
          ConfigOutputFolder out; OutputFolderReady out])
     (with_dirs ({[out]} ∪ dirs (snd st)) (snd st))).

(** The three requests that follow the loop. *)
Definition setup_frames (st : State) : list frame :=
  [ExchangeDeclare (exchange (fst st)) (str "topic") true;
   QueueDeclare [] true;
   QueueBind (exchange (fst st)) (server_queue_name env) (str "expense.*")].

(** The first of the requests that the broker refuses, with the error and
    the number of requests sent up to it. *)
Fixpoint first_refusal (fs : list frame) (sent_before : nat) : option (exn * nat) :=
  match fs with
  | [] => None
  | f :: fs' =>
    match broker_fault env f with
    | Some e => Some (e, S sent_before)
    | None => first_refusal fs' (S sent_before)
    end
  end.

End ProofNotions.

(** * Proofs *)

(** ** Arithmetic of code points *)

Ltac nlia := zify; Z.to_euclidean_division_equations; lia.

(** An [|] of a shifted value and a value below the shift is a sum. *)
Lemma lor_shiftl_add (h l k : N) :
  l < 2 ^ k -> N.lor (N.shiftl h k) l = h * 2 ^ k + l.
Proof.
  intros Hl.
  assert (Hdisj : N.land (h * 2 ^ k) l = 0).
  { apply N.bits_inj_iff; intros i. rewrite N.land_spec, N.bits_0.
    destruct (N.ltb_spec i k) as [Hik|Hik].
    - rewrite N.mul_pow2_bits_low by assumption. reflexivity.
    - destruct (N.eq_dec l 0) as [->|Hz].
      + rewrite N.bits_0. apply Bool.andb_false_r.
      + rewrite (N.bits_above_log2 l i); [apply Bool.andb_false_r|].
        apply N.lt_le_trans with k; [|assumption].
        apply N.log2_lt_pow2; lia. }
  rewrite N.shiftl_mul_pow2.
  rewrite N.add_nocarry_lxor by assumption.
  symmetry. apply N.lxor_lor. assumption.
Qed.

Lemma land_low (x k : N) : N.land x (N.ones k) = x mod 2 ^ k.
Proof. apply N.land_ones. Qed.

Lemma land_0x3F x : N.land x 0x3F = x mod 64.
Proof. apply (land_low x 6). Qed.
Lemma land_0x1F x : N.land x 0x1F = x mod 32.
Proof. apply (land_low x 5). Qed.
Lemma land_0x0F x : N.land x 0x0F = x mod 16.
Proof. apply (land_low x 4). Qed.
Lemma land_0x07 x : N.land x 0x07 = x mod 8.
Proof. apply (land_low x 3). Qed.
Lemma land_0x3FF x : N.land x 0x3FF = x mod 1024.
Proof. apply (land_low x 10). Qed.

Lemma lor_0xD800 h : h < 1024 -> N.lor 0xD800 h = 0xD800 + h.
Proof.
  intros Hh. change 0xD800 with (N.shiftl 54 10).
  rewrite (lor_shiftl_add 54 h 10) by exact Hh. rewrite N.shiftl_mul_pow2. reflexivity.
Qed.

Lemma lor_0xDC00 l : l < 1024 -> N.lor 0xDC00 l = 0xDC00 + l.
Proof.
  intros Hl. change 0xDC00 with (N.shiftl 55 10).
  rewrite (lor_shiftl_add 55 l 10) by exact Hl. rewrite N.shiftl_mul_pow2. reflexivity.
Qed.

(** Rewriting the bit operations of the codecs into arithmetic. *)
Ltac unbits :=
  rewrite ?land_0x3F, ?land_0x1F, ?land_0x0F, ?land_0x07, ?land_0x3FF,
    ?N.shiftr_div_pow2;
  repeat match goal with
         | |- context [N.lor (N.shiftl ?h ?k) ?l] =>
           rewrite (lor_shiftl_add h l k) by (simpl; nlia)
         end.

Lemma hex_val_hexdigit d : d < 16 -> hex_val (hexdigit d) = Some d.
Proof.
  intros Hd. unfold hex_val, hexdigit.
  destruct (N.ltb_spec d 10).
  - replace ((48 <=? 48 + d) && (48 + d <=? 57)) with true
      by (symmetry; apply andb_true_intro; split; apply N.leb_le; lia).
    f_equal. lia.
  - replace ((48 <=? 87 + d) && (87 + d <=? 57)) with false
      by (symmetry; apply andb_false_intro2; apply N.leb_gt; lia).
    replace ((97 <=? 87 + d) && (87 + d <=? 102)) with true
      by (symmetry; apply andb_true_intro; split; apply N.leb_le; lia).
    f_equal. lia.
Qed.

Lemma hex_val_bound c d : hex_val c = Some d -> d < 16.
Proof.
  unfold hex_val.
  destruct (N.leb_spec 48 c), (N.leb_spec c 57); simpl; try (intros [= <-]; lia);
  destruct (N.leb_spec 97 c), (N.leb_spec c 102); simpl; try (intros [= <-]; lia);
  destruct (N.leb_spec 65 c), (N.leb_spec c 70); simpl; try (intros [= <-]; lia);
  discriminate.
Qed.

Lemma hex4_value a b c d u :
  hex4 a b c d = Some u ->
  exists va vb vc vd,
    hex_val a = Some va /\ hex_val b = Some vb /\ hex_val c = Some vc
    /\ hex_val d = Some vd /\ u = ((va * 16 + vb) * 16 + vc) * 16 + vd.
Proof.
  unfold hex4.
  destruct (hex_val a) as [va|] eqn:Ha; [|discriminate].
  destruct (hex_val b) as [vb|] eqn:Hb; [|discriminate].
  destruct (hex_val c) as [vc|] eqn:Hc; [|discriminate].
  destruct (hex_val d) as [vd|] eqn:Hd; [|discriminate].
  intros [= <-]. exists va, vb, vc, vd. repeat split.
  apply hex_val_bound in Ha, Hb, Hc, Hd.
  rewrite (lor_shiftl_add va vb 4) by exact Hb.
  rewrite (lor_shiftl_add _ vc 4) by exact Hc.
  rewrite (lor_shiftl_add _ vd 4) by exact Hd.
  reflexivity.
Qed.

Lemma hex4_bound a b c d u : hex4 a b c d = Some u -> u < 0x10000.
Proof.
  intros H. apply hex4_value in H as (va & vb & vc & vd & Ha & Hb & Hc & Hd & ->).
  apply hex_val_bound in Ha, Hb, Hc, Hd. lia.
Qed.

(** Reading back the four digits of an escape. *)
Lemma hex4_u_escape n :
  n < 0x10000 ->
  hex4 (hexdigit (N.land (N.shiftr n 12) 0xF)) (hexdigit (N.land (N.shiftr n 8) 0xF))
       (hexdigit (N.land (N.shiftr n 4) 0xF)) (hexdigit (N.land n 0xF)) = Some n.
Proof.
  intros Hn. unfold hex4. rewrite !land_0x0F, !N.shiftr_div_pow2.
  rewrite !hex_val_hexdigit by (apply N.mod_upper_bound; discriminate).
  f_equal.
  rewrite (lor_shiftl_add _ _ 4) by (apply N.mod_upper_bound; discriminate).
  rewrite (lor_shiftl_add _ _ 4) by (apply N.mod_upper_bound; discriminate).
  rewrite (lor_shiftl_add _ _ 4) by (apply N.mod_upper_bound; discriminate).
  change (2 ^ 12) with 4096. change (2 ^ 8) with 256. change (2 ^ 4) with 16.
  nlia.
Qed.

(** The two halves of a code point above the basic plane, and their join. *)
Lemma surrogates_of n :
  n < 0x100000 ->
  let hi := N.lor 0xD800 (N.land (N.shiftr n 10) 0x3FF) in
  let lo := N.lor 0xDC00 (N.land n 0x3FF) in
  is_high_surrogate hi = true /\ is_low_surrogate lo = true
  /\ join_surrogates hi lo = n + 0x10000.
Proof.
  intros Hn hi lo. subst hi lo.
  rewrite !land_0x3FF, N.shiftr_div_pow2. change (2 ^ 10) with 1024.
  rewrite lor_0xD800 by (apply N.mod_upper_bound; discriminate).
  rewrite lor_0xDC00 by (apply N.mod_upper_bound; discriminate).
  unfold is_high_surrogate, is_low_surrogate, join_surrogates.
  rewrite !land_0x3FF.
  rewrite (lor_shiftl_add _ _ 10) by (apply N.mod_upper_bound; discriminate).
  change (2 ^ 10) with 1024.
  repeat split.
  - apply andb_true_intro; split; apply N.leb_le; nlia.
  - apply andb_true_intro; split; apply N.leb_le; nlia.
  - nlia.
Qed.

Lemma join_surrogates_bound hi lo :
  0x10000 <= join_surrogates hi lo < 0x110000.
Proof.
  unfold join_surrogates. rewrite !land_0x3FF.
  rewrite (lor_shiftl_add _ _ 10) by (apply N.mod_upper_bound; discriminate).
  change (2 ^ 10) with 1024. nlia.
Qed.


(** ** The UTF-8 decoder yields scalar values *)

Lemma fmap_cons_inv {A} (c : A) (o : option (list A)) (t : list A) :
  cons c <$> o = Some t -> exists t', o = Some t' /\ t = c :: t'.
Proof. destruct o as [t'|]; simpl; [intros [= <-]; eauto | discriminate]. Qed.

Lemma utf8_decode_scalar (bs : list N) (t : pystr) :
  Utf8.decode bs = Some t -> Forall (fun c => is_scalar c = true) t.
Proof.
  remember (length bs) as n eqn:Hn. revert bs t Hn.
  induction n as [n IH] using lt_wf_ind. intros bs t Hn.
  destruct bs as [|b0 r0]; simpl.
  { intros [= <-]. constructor. }
  assert (Hsc : forall a b, a && b = true -> a = true /\ b = true)
    by (intros; apply andb_prop; assumption).
  unfold Utf8.is_cont, Utf8.low6.
  destruct (N.ltb_spec b0 0x80) as [H0|H0].
  { intros (t' & Ht' & ->)%fmap_cons_inv. constructor.
    - unfold is_scalar. apply andb_true_intro; split.
      + apply N.ltb_lt; lia.
      + apply Bool.negb_true_iff, andb_false_intro1, N.leb_gt; lia.
    - eapply IH; [|reflexivity|exact Ht']. subst n; simpl; lia. }
  destruct (N.ltb_spec b0 0xC2) as [H1|H1]; [discriminate|].
  destruct (N.ltb_spec b0 0xE0) as [H2|H2].
  { destruct r0 as [|b1 r1]; [discriminate|].
    destruct ((128 <=? b1) && (b1 <=? 191)) eqn:Hc1; [|discriminate].
    apply Hsc in Hc1 as [?%N.leb_le ?%N.leb_le].
    intros (t' & Ht' & ->)%fmap_cons_inv. constructor.
    - unbits. change (2 ^ 6) with 64.
      unfold is_scalar. apply andb_true_intro; split.
      + apply N.ltb_lt; nlia.
      + apply Bool.negb_true_iff, andb_false_intro1, N.leb_gt; nlia.
    - eapply IH; [|reflexivity|exact Ht']. subst n; simpl; lia. }
  destruct (N.ltb_spec b0 0xF0) as [H3|H3].
  { destruct r0 as [|b1 [|b2 r2]]; try discriminate.
    destruct (_ && _) eqn:Hc; [|discriminate].
    apply Hsc in Hc as [Hc Hd]. apply Hsc in Hc as [Hc He].
    apply Hsc in Hc as [Hc1 Hc2].
    apply Hsc in Hc1 as [?%N.leb_le ?%N.leb_le].
    apply Hsc in Hc2 as [?%N.leb_le ?%N.leb_le].
    apply Bool.negb_true_iff in Hd, He.
    intros (t' & Ht' & ->)%fmap_cons_inv. constructor.
    - unbits. change (2 ^ 6) with 64. change (2 ^ 12) with 4096.
      unfold is_scalar. apply andb_true_intro; split.
      + apply N.ltb_lt; nlia.
      + apply Bool.negb_true_iff.
        destruct (N.eqb_spec b0 0xED) as [->|Hne]; simpl in Hd.
        * apply N.ltb_ge in Hd. apply andb_false_intro1, N.leb_gt. nlia.
        * destruct (N.ltb_spec b0 0xED).
          -- apply andb_false_intro1, N.leb_gt. nlia.
          -- apply andb_false_intro2, N.leb_gt. nlia.
    - eapply IH; [|reflexivity|exact Ht']. subst n; simpl; lia. }
  destruct (N.ltb_spec b0 0xF5) as [H4|H4]; [|discriminate].
  destruct r0 as [|b1 [|b2 [|b3 r3]]]; try discriminate.
  destruct (_ && _) eqn:Hc; [|discriminate].
  apply Hsc in Hc as [Hc Hd]. apply Hsc in Hc as [Hc He].
  apply Hsc in Hc as [Hc Hc3]. apply Hsc in Hc as [Hc1 Hc2].
  apply Hsc in Hc1 as [?%N.leb_le ?%N.leb_le].
  apply Hsc in Hc2 as [?%N.leb_le ?%N.leb_le].
  apply Hsc in Hc3 as [?%N.leb_le ?%N.leb_le].
  apply Bool.negb_true_iff in Hd, He.
  intros (t' & Ht' & ->)%fmap_cons_inv. constructor.
  - unbits. change (2 ^ 6) with 64. change (2 ^ 12) with 4096.
    change (2 ^ 18) with 262144.
    unfold is_scalar. apply andb_true_intro; split.
    + apply N.ltb_lt.
      destruct (N.eqb_spec b0 0xF4) as [->|Hne]; simpl in Hd.
      * apply N.ltb_ge in Hd. nlia.
      * nlia.
    + apply Bool.negb_true_iff, andb_false_intro2, N.leb_gt.
      destruct (N.eqb_spec b0 0xF0) as [->|Hne]; simpl in He.
      * apply N.ltb_ge in He. nlia.
      * nlia.
  - eapply IH; [|reflexivity|exact Ht']. subst n; simpl; lia.
Qed.

(** ** Strings: what the encoder escapes, the decoder reads back *)

Lemma escape_char_cases c :
  (exists e, escape_char c = [BACKSLASH; e] /\ e <> 117 /\ simple_escape e = Some c)
  \/ (escape_char c = [c] /\ c <> QUOTE /\ c <> BACKSLASH /\ 0x1F < c <= 126)
  \/ (c < 0x10000 /\ escape_char c = u_escape c)
  \/ (0x10000 <= c
      /\ escape_char c =
         u_escape (N.lor 0xD800 (N.land (N.shiftr (c - 0x10000) 10) 0x3FF))
         ++ u_escape (N.lor 0xDC00 (N.land (c - 0x10000) 0x3FF))).
Proof.
  unfold escape_char.
  destruct (N.eqb_spec c 92) as [->|?]; [left; exists 92; repeat split; discriminate|].
  destruct (N.eqb_spec c 34) as [->|?]; [left; exists 34; repeat split; discriminate|].
  destruct (N.eqb_spec c 8) as [->|?]; [left; exists 98; repeat split; discriminate|].
  destruct (N.eqb_spec c 12) as [->|?]; [left; exists 102; repeat split; discriminate|].
  destruct (N.eqb_spec c 10) as [->|?]; [left; exists 110; repeat split; discriminate|].
  destruct (N.eqb_spec c 13) as [->|?]; [left; exists 114; repeat split; discriminate|].
  destruct (N.eqb_spec c 9) as [->|?]; [left; exists 116; repeat split; discriminate|].
  destruct (N.leb_spec 32 c); simpl.
  - destruct (N.leb_spec c 126); simpl.
    + right; left. repeat split; try assumption. lia.
    + destruct (N.ltb_spec c 0x10000); [right; right; left | right; right; right]; auto.
  - destruct (N.ltb_spec c 0x10000); [right; right; left; auto | lia].
Qed.

Lemma scanstring_u_escape a b x d s3 u :
  hex4 a b x d = Some u -> s3 <> [] ->
  (is_high_surrogate u = true -> no_low_escape s3) ->
  scanstring (BACKSLASH :: 117 :: a :: b :: x :: d :: s3) = push u (scanstring s3).
Proof.
  intros Hu Hne Hlow.
  cbn [scanstring]. change (92 =? 34) with false. change (92 =? 92) with true.
  change (117 =? 117) with true. cbv iota.
  destruct s3 as [|c0 s3']; [congruence|]. rewrite Hu.
  destruct (is_high_surrogate u) eqn:Hhi; [|reflexivity].
  specialize (Hlow eq_refl).
  destruct s3' as [|c1 [|c2 [|c3 [|c4 [|c5 s4]]]]]; try reflexivity.
  destruct s4 as [|c6 s4]; [reflexivity|]. cbn [negb andb].
  destruct (N.eqb_spec c0 92) as [->|]; [|reflexivity].
  destruct (N.eqb_spec c1 117) as [->|]; [|reflexivity]. cbn [andb].
  destruct (Hlow _ _ _ _ _ eq_refl) as (u2 & -> & ->). reflexivity.
Qed.

Lemma scanstring_pair hi lo t :
  hi < 0x10000 -> lo < 0x10000 -> t <> [] ->
  is_high_surrogate hi = true -> is_low_surrogate lo = true ->
  scanstring (u_escape hi ++ u_escape lo ++ t)
  = push (join_surrogates hi lo) (scanstring t).
Proof.
  intros Hhi Hlo Hne Hh Hl. unfold u_escape.
  cbn [app scanstring]. change (92 =? 34) with false. change (92 =? 92) with true.
  change (117 =? 117) with true. cbv iota.
  rewrite (hex4_u_escape hi Hhi), Hh.
  destruct t as [|c t]; [congruence|]. cbn [negb andb].
  rewrite (hex4_u_escape lo Hlo), Hl. reflexivity.
Qed.

Lemma escaped_nonempty s rest :
  List.concat (List.map escape_char s) ++ QUOTE :: rest <> [].
Proof. destruct (List.concat _); discriminate. Qed.

Lemma escaped_no_low s rest :
  match s with d :: _ => is_low_surrogate d = false | [] => True end ->
  no_low_escape (List.concat (List.map escape_char s) ++ QUOTE :: rest).
Proof.
  intros Hs a b x d s' Heq. destruct s as [|c s]; [discriminate|].
  cbn [List.map List.concat] in Heq.
  destruct (escape_char_cases c) as
    [(e & He & Hne & _) | [(He & _ & Hb & _) | [(Hc & He) | (Hc & He)]]];
    rewrite He in Heq.
  - cbn [app] in Heq. injection Heq. intros. congruence.
  - cbn [app] in Heq. injection Heq. intros. congruence.
  - unfold u_escape in Heq. cbn [app] in Heq. injection Heq as <- <- <- <- _.
    exists c. split; [apply hex4_u_escape; assumption | assumption].
  - unfold u_escape in Heq. cbn [app] in Heq. injection Heq as <- <- <- <- _.
    assert (Hn : c - 0x10000 < 0x100000 \/ 0x100000 <= c - 0x10000) by lia.
    eexists. split.
    + apply hex4_u_escape.
      rewrite land_0x3FF, lor_0xD800 by (apply N.mod_upper_bound; discriminate).
      nlia.
    + rewrite land_0x3FF, lor_0xD800 by (apply N.mod_upper_bound; discriminate).
      unfold is_low_surrogate. apply andb_false_intro1, N.leb_gt. nlia.
Qed.

Lemma str_ok_cons c s :
  str_ok (c :: s) = true ->
  c < 0x110000
  /\ (is_high_surrogate c = true ->
      match s with d :: _ => is_low_surrogate d = false | [] => True end)
  /\ str_ok s = true.
Proof.
  cbn [str_ok]. intros [[Hc Hp]%andb_prop Hs]%andb_prop.
  apply N.ltb_lt in Hc. apply Bool.negb_true_iff in Hp.
  repeat split; try assumption.
  intros Hh. rewrite Hh in Hp. destruct s; [exact I | exact Hp].
Qed.

(** Reading an encoded string gives the string back. *)
Lemma scanstring_escaped s rest :
  str_ok s = true ->
  scanstring (List.concat (List.map escape_char s) ++ QUOTE :: rest) = Some (s, rest).
Proof.
  induction s as [|c s IH]; intros Hok.
  { reflexivity. }
  apply str_ok_cons in Hok as (Hc & Hpair & Hs). specialize (IH Hs).
  cbn [List.map List.concat]. rewrite <- app_assoc.
  set (t := List.concat (List.map escape_char s) ++ QUOTE :: rest) in *.
  destruct (escape_char_cases c) as
    [(e & He & Hne & Hse) | [(He & Hq & Hb & Hctl) | [(Hlt & He) | (Hge & He)]]];
    rewrite He.
  - cbn [app scanstring]. change (92 =? 34) with false. change (92 =? 92) with true.
    cbv iota. destruct (N.eqb_spec e 117); [congruence|].
    rewrite Hse, IH. reflexivity.
  - cbn [app scanstring].
    destruct (N.eqb_spec c 34); [congruence|].
    destruct (N.eqb_spec c 92); [congruence|].
    destruct (N.leb_spec c 0x1F); [lia|]. rewrite IH. reflexivity.
  - unfold u_escape. cbn [app].
    rewrite (scanstring_u_escape _ _ _ _ t c).
    + rewrite IH. reflexivity.
    + apply hex4_u_escape; assumption.
    + apply escaped_nonempty.
    + intros Hh. apply escaped_no_low. exact (Hpair Hh).
  - rewrite <- app_assoc.
    assert (Hn : c - 0x10000 < 0x100000) by lia.
    destruct (surrogates_of _ Hn) as (Hh & Hl & Hj).
    rewrite scanstring_pair; try assumption.
    + rewrite Hj, IH. cbn [push].
      replace (c - 0x10000 + 0x10000) with c by lia. reflexivity.
    + rewrite land_0x3FF, lor_0xD800 by (apply N.mod_upper_bound; discriminate). nlia.
    + rewrite land_0x3FF, lor_0xDC00 by (apply N.mod_upper_bound; discriminate). nlia.
    + apply escaped_nonempty.
Qed.

(** ** Strings: what the decoder reads is well formed *)

Lemma push_inv c r x rest :
  push c r = Some (x, rest) -> exists x', r = Some (x', rest) /\ x = c :: x'.
Proof.
  destruct r as [[x' rest']|]; [|discriminate].
  intros [= <- <-]. eauto.
Qed.

(** The two ways a [u] escape is read: alone, or as the high half of a pair. *)
Lemma scanstring_u_inv a b x d s3 r :
  scanstring (BACKSLASH :: 117 :: a :: b :: x :: d :: s3) = Some r ->
  exists u, hex4 a b x d = Some u /\ s3 <> [] /\
    ((push u (scanstring s3) = Some r
      /\ (is_high_surrogate u = true ->
          forall a' b' x' d' tl y,
            s3 = BACKSLASH :: 117 :: a' :: b' :: x' :: d' :: tl ->
            hex4 a' b' x' d' = Some y -> is_low_surrogate y = false))
     \/ (exists a' b' x' d' s4 u2,
           s3 = BACKSLASH :: 117 :: a' :: b' :: x' :: d' :: s4
           /\ hex4 a' b' x' d' = Some u2 /\ is_low_surrogate u2 = true
           /\ push (join_surrogates u u2) (scanstring s4) = Some r)).
Proof.
  cbn [scanstring]. change (92 =? 34) with false. change (92 =? 92) with true.
  change (117 =? 117) with true. cbv iota.
  destruct s3 as [|c0 s3']; [discriminate|].
  destruct (hex4 a b x d) as [u|]; [|discriminate].
  intros H. exists u. split; [reflexivity|]. split; [discriminate|].
  destruct (is_high_surrogate u) eqn:Hhi.
  2:{ left. split; [exact H | discriminate]. }
  destruct s3' as [|c1 [|c2 [|c3 [|c4 [|c5 s4]]]]];
    try (left; split; [exact H | intros _ ? ? ? ? ? ? [=]]).
  destruct s4 as [|c6 s4].
  { left. split; [exact H|]. intros _ a' b' x' d' tl y [= -> -> -> -> -> <-] Hy.
    exfalso. destruct r as [xr rr]. cbn [negb andb] in H.
    apply push_inv in H as (x0 & H & _). cbn in H. discriminate. }
  cbn [negb andb] in H.
  destruct (N.eqb_spec c0 92) as [->|Hc0].
  2:{ left. split; [exact H|]. intros _ ? ? ? ? ? ? [=]. congruence. }
  destruct (N.eqb_spec c1 117) as [->|Hc1].
  2:{ left. split; [exact H|]. intros _ ? ? ? ? ? ? [=]. congruence. }
  cbn [andb] in H.
  destruct (hex4 c2 c3 c4 c5) as [u2|] eqn:Hu2; [|discriminate].
  destruct (is_low_surrogate u2) eqn:Hlo.
  - right. exists c2, c3, c4, c5, (c6 :: s4), u2. auto.
  - left. split; [exact H|]. intros _ a' b' x' d' tl y [= <- <- <- <- _] Hy.
    congruence.
Qed.

(** One step of [scanstring], by the form of the text. *)
Lemma scanstring_inv s x rest :
  scanstring s = Some (x, rest) ->
  (s = QUOTE :: rest /\ x = [])
  \/ (exists c s1 x',
        s = c :: s1 /\ c <> QUOTE /\ c <> BACKSLASH /\ 0x1F < c
        /\ scanstring s1 = Some (x', rest) /\ x = c :: x')
  \/ (exists e s2 ch x',
        s = BACKSLASH :: e :: s2 /\ simple_escape e = Some ch
        /\ scanstring s2 = Some (x', rest) /\ x = ch :: x')
  \/ (exists a b c d s3 u x',
        s = BACKSLASH :: 117 :: a :: b :: c :: d :: s3
        /\ hex4 a b c d = Some u
        /\ scanstring s3 = Some (x', rest) /\ x = u :: x'
        /\ (is_high_surrogate u = true ->
            forall a' b' c' d' tl y,
              s3 = BACKSLASH :: 117 :: a' :: b' :: c' :: d' :: tl ->
              hex4 a' b' c' d' = Some y -> is_low_surrogate y = false))
  \/ (exists a b c d a' b' c' d' s4 u u2 x',
        s = BACKSLASH :: 117 :: a :: b :: c :: d
            :: BACKSLASH :: 117 :: a' :: b' :: c' :: d' :: s4
        /\ hex4 a b c d = Some u /\ hex4 a' b' c' d' = Some u2
        /\ scanstring s4 = Some (x', rest) /\ x = join_surrogates u u2 :: x').
Proof.
  intros H. destruct s as [|c s1]; [discriminate|].
  destruct (N.eqb_spec c 34) as [->|Hq].
  { cbn in H. injection H as <- <-. auto. }
  destruct (N.eqb_spec c 92) as [->|Hb].
  - destruct s1 as [|e s2]; [discriminate|].
    destruct (N.eqb_spec e 117) as [->|He].
    + destruct s2 as [|a [|b [|c [|d s3]]]]; try discriminate.
      apply scanstring_u_inv in H as (u & Hu & Hne & [[H Hlow] | H]).
      * apply push_inv in H as (x' & H & ->).
        right; right; right; left. exists a, b, c, d, s3, u, x'. repeat split; auto.
      * destruct H as (a' & b' & c' & d' & s4 & u2 & -> & Hu2 & Hlo & H).
        apply push_inv in H as (x' & H & ->).
        right; right; right; right.
        exists a, b, c, d, a', b', c', d', s4, u, u2, x'. repeat split; auto.
    + cbn [scanstring] in H. change (92 =? 34) with false in H.
      change (92 =? 92) with true in H. cbv iota in H.
      destruct (N.eqb_spec e 117); [congruence|].
      destruct (simple_escape e) as [ch|] eqn:Hch; [|discriminate].
      apply push_inv in H as (x' & H & ->).
      right; right; left. exists e, s2, ch, x'. repeat split; auto.
  - cbn [scanstring] in H.
    destruct (N.eqb_spec c 34); [congruence|].
    destruct (N.eqb_spec c 92); [congruence|].
    destruct (N.leb_spec c 0x1F); [discriminate|].
    apply push_inv in H as (x' & H & ->).
    right; left. exists c, s1, x'. repeat split; auto.
Qed.

(** What [scanstring] leaves is a proper suffix of the text. *)
Lemma scanstring_suffix s x rest :
  scanstring s = Some (x, rest) -> exists p, s = p ++ rest /\ p <> [].
Proof.
  assert (Hlen : (length s < S (length s))%nat) by lia.
  revert Hlen. generalize (S (length s)) as n. intros n. revert s x rest.
  induction n as [|n IH]; intros s x rest Hlen H; [lia|].
  apply scanstring_inv in H as
    [[-> _] | [(c & s1 & x' & -> & _ & _ & _ & H & _)
    | [(e & s2 & ch & x' & -> & _ & H & _)
    | [(a & b & c & d & s3 & u & x' & -> & _ & H & _)
    | (a & b & c & d & a' & b' & c' & d' & s4 & u & u2 & x' & -> & _ & _ & H & _)]]]].
  - exists [QUOTE]. split; [reflexivity | discriminate].
  - apply IH in H as (p & -> & _); [|simpl in Hlen; lia].
    exists (c :: p). split; [reflexivity | discriminate].
  - apply IH in H as (p & -> & _); [|simpl in Hlen; lia].
    exists (BACKSLASH :: e :: p). split; [reflexivity | discriminate].
  - apply IH in H as (p & -> & _); [|simpl in Hlen; lia].
    exists (BACKSLASH :: 117 :: a :: b :: c :: d :: p).
    split; [reflexivity | discriminate].
  - apply IH in H as (p & -> & _); [|simpl in Hlen; lia].
    exists (BACKSLASH :: 117 :: a :: b :: c :: d
            :: BACKSLASH :: 117 :: a' :: b' :: c' :: d' :: p).
    split; [reflexivity | discriminate].
Qed.

Lemma simple_escape_ascii e ch : simple_escape e = Some ch -> ch < 128.
Proof.
  unfold simple_escape.
  repeat match goal with
         | |- context [if ?c then _ else _] => destruct c
         end; intros [= <-]; lia.
Qed.

Lemma surrogate_range c :
  (is_high_surrogate c = true -> 0xD800 <= c <= 0xDBFF)
  /\ (is_low_surrogate c = true -> 0xDC00 <= c <= 0xDFFF).
Proof.
  unfold is_high_surrogate, is_low_surrogate.
  split; intros [?%N.leb_le ?%N.leb_le]%andb_prop; lia.
Qed.

Lemma not_surrogate c :
  c < 0xD800 \/ 0xDFFF < c ->
  is_high_surrogate c = false /\ is_low_surrogate c = false.
Proof.
  intros Hc. unfold is_high_surrogate, is_low_surrogate. split.
  - destruct Hc; [apply andb_false_intro1 | apply andb_false_intro2];
      apply N.leb_gt; lia.
  - destruct Hc; [apply andb_false_intro1 | apply andb_false_intro2];
      apply N.leb_gt; lia.
Qed.

Lemma is_scalar_spec c :
  is_scalar c = true -> c < 0x110000 /\ (c < 0xD800 \/ 0xDFFF < c).
Proof.
  unfold is_scalar. intros [?%N.ltb_lt Hn%Bool.negb_true_iff]%andb_prop.
  split; [assumption|].
  apply Bool.andb_false_iff in Hn as [?%N.leb_gt | ?%N.leb_gt]; lia.
Qed.

Lemma str_ok_push c x :
  c < 0x110000 -> str_ok x = true ->
  (is_high_surrogate c = true ->
   match x with d :: _ => is_low_surrogate d = false | [] => True end) ->
  str_ok (c :: x) = true.
Proof.
  intros Hc Hx Hp. cbn [str_ok]. rewrite Hx, Bool.andb_true_r.
  apply andb_true_intro. split; [apply N.ltb_lt; assumption|].
  apply Bool.negb_true_iff. destruct (is_high_surrogate c); [|reflexivity].
  specialize (Hp eq_refl). destruct x; [reflexivity | exact Hp].
Qed.

(** A string read from text without surrogates is well formed, and it
    starts with a low surrogate only if the text starts with its escape. *)
Lemma scanstring_ok s x rest :
  Forall (fun c => is_scalar c = true) s ->
  scanstring s = Some (x, rest) ->
  str_ok x = true
  /\ (forall y x', x = y :: x' -> is_low_surrogate y = true ->
      exists a b c d tl,
        s = BACKSLASH :: 117 :: a :: b :: c :: d :: tl /\ hex4 a b c d = Some y).
Proof.
  assert (Hlen : (length s < S (length s))%nat) by lia.
  revert Hlen. generalize (S (length s)) as n. intros n. revert s x rest.
  induction n as [|n IH]; intros s x rest Hlen Hs H; [lia|].
  apply scanstring_inv in H as
    [[-> ->] | [(c & s1 & x' & -> & _ & _ & _ & H & ->)
    | [(e & s2 & ch & x' & -> & Hch & H & ->)
    | [(a & b & c & d & s3 & u & x' & -> & Hu & H & -> & Hlow)
    | (a & b & c & d & a' & b' & c' & d' & s4 & u & u2 & x' & -> & Hu & Hu2 & H & ->)]]]].
  - split; [reflexivity | discriminate].
  - apply Forall_cons in Hs as [Hc Hs1].
    apply IH in H as [Hx' _]; [|simpl in Hlen; lia|exact Hs1].
    apply is_scalar_spec in Hc as [Hc1 Hc2].
    destruct (not_surrogate c Hc2) as [Hh Hl].
    split.
    + apply str_ok_push; try assumption. congruence.
    + intros y x0 [= <- <-]. congruence.
  - apply Forall_cons in Hs as [_ [_ Hs2]%Forall_cons].
    apply IH in H as [Hx' _]; [|simpl in Hlen; lia|exact Hs2].
    apply simple_escape_ascii in Hch.
    destruct (not_surrogate ch) as [Hh Hl]; [lia|].
    split.
    + apply str_ok_push; try assumption; [lia | congruence].
    + intros y x0 [= <- <-]. congruence.
  - assert (Hs3 : Forall (fun c => is_scalar c = true) s3).
    { do 6 apply Forall_cons in Hs as [_ Hs]. exact Hs. }
    apply IH in H as [Hx' Hhead]; [|simpl in Hlen; lia|exact Hs3].
    split.
    + apply str_ok_push; try assumption.
      * apply hex4_bound in Hu. lia.
      * intros Hh. destruct x' as [|y x0]; [exact I|].
        destruct (is_low_surrogate y) eqn:Hy; [|reflexivity].
        destruct (Hhead y x0 eq_refl Hy) as (a0 & b0 & c0 & d0 & tl & -> & Hy').
        rewrite (Hlow Hh _ _ _ _ _ _ eq_refl Hy') in Hy. discriminate.
    + intros y x0 [= <- <-] _. exists a, b, c, d, s3. auto.
  - assert (Hs4 : Forall (fun c => is_scalar c = true) s4).
    { do 12 apply Forall_cons in Hs as [_ Hs]. exact Hs. }
    apply IH in H as [Hx' _]; [|simpl in Hlen; lia|exact Hs4].
    pose proof (join_surrogates_bound u u2) as Hj.
    destruct (not_surrogate (join_surrogates u u2)) as [Hh Hl]; [lia|].
    split.
    + apply str_ok_push; try assumption; [lia | congruence].
    + intros y x0 [= <- <-]. congruence.
Qed.

(** ** Number literals *)

Lemma is_delim_head c r :
  is_delim (c :: r) = true -> c = COMMA \/ c = NEWLINE.
Proof.
  cbn. intros [?%N.eqb_eq | ?%N.eqb_eq]%Bool.orb_true_iff; auto.
Qed.

Lemma span_digits_split s d t :
  span_digits s = (d, t) -> s = d ++ t /\ Forall (fun c => is_digit c = true) d.
Proof.
  revert d t. induction s as [|c s IH]; intros d t; cbn [span_digits].
  - intros [= <- <-]. split; [reflexivity | constructor].
  - destruct (is_digit c) eqn:Hc.
    + destruct (span_digits s) as [d' r']. intros [= <- <-].
      destruct (IH d' r' eq_refl) as [-> Hd]. split; [reflexivity|].
      constructor; assumption.
    + intros [= <- <-]. split; [reflexivity | constructor].
Qed.

Lemma span_digits_app s d t r :
  span_digits s = (d, t) -> is_delim r = true ->
  span_digits (s ++ r) = (d, t ++ r).
Proof.
  intros H Hr. revert d t H. induction s as [|c s IH]; intros d t; cbn [span_digits app].
  - intros [= <- <-]. destruct r as [|c r]; [reflexivity|].
    cbn [span_digits]. apply is_delim_head in Hr as [-> | ->]; reflexivity.
  - destruct (is_digit c).
    + destruct (span_digits s) as [d' r']. intros [= <- <-].
      rewrite (IH d' r' eq_refl). reflexivity.
    + intros [= <- <-]. reflexivity.
Qed.

(** Digits, then something that is not a digit. *)
Lemma span_digits_exact d r :
  Forall (fun c => is_digit c = true) d -> is_delim r = true ->
  span_digits (d ++ r) = (d, r).
Proof.
  intros Hd Hr. induction Hd as [|c d Hc _ IH]; cbn [span_digits app].
  - destruct r as [|c r]; [reflexivity|].
    cbn [span_digits]. apply is_delim_head in Hr as [-> | ->]; reflexivity.
  - rewrite Hc, IH. reflexivity.
Qed.

Lemma lex_sign_app s p t r :
  lex_sign s = (p, t) -> t <> [] -> lex_sign (s ++ r) = (p, t ++ r).
Proof.
  destruct s as [|c s]; cbn.
  - intros [= <- <-]. congruence.
  - destruct (c =? 45); intros [= <- <-]; reflexivity.
Qed.

Lemma lex_int_app s p t r :
  lex_int s = Some (p, t) -> is_delim r = true ->
  lex_int (s ++ r) = Some (p, t ++ r).
Proof.
  destruct s as [|c s]; cbn [lex_int app]; [discriminate|].
  intros H Hr. destruct ((49 <=? c) && (c <=? 57)).
  - destruct (span_digits s) as [d r'] eqn:Hs. injection H as <- <-.
    rewrite (span_digits_app _ _ _ _ Hs Hr). reflexivity.
  - destruct (c =? 48); [|discriminate]. injection H as <- <-. reflexivity.
Qed.

Lemma lex_frac_app s p t r :
  lex_frac s = (p, t) -> is_delim r = true ->
  lex_frac (s ++ r) = (p, t ++ r).
Proof.
  intros H Hr. destruct s as [|c0 [|c1 s]]; cbn [lex_frac app] in *.
  - injection H as <- <-. destruct r as [|a [|b r]]; try reflexivity.
    cbn [lex_frac]. apply is_delim_head in Hr as [-> | ->]; reflexivity.
  - injection H as <- <-. destruct r as [|a r]; [reflexivity|].
    cbn [lex_frac]. apply is_delim_head in Hr as [-> | ->];
      rewrite Bool.andb_false_r; reflexivity.
  - destruct ((c0 =? 46) && is_digit c1).
    + destruct (span_digits s) as [d r'] eqn:Hs. injection H as <- <-.
      rewrite (span_digits_app _ _ _ _ Hs Hr). reflexivity.
    + injection H as <- <-. reflexivity.
Qed.

Lemma lex_exp_app s p t r :
  lex_exp s = (p, t) -> is_delim r = true ->
  lex_exp (s ++ r) = (p, t ++ r).
Proof.
  intros H Hr. destruct s as [|e s]; cbn [lex_exp app] in *.
  - injection H as <- <-. destruct r as [|a r]; [reflexivity|].
    cbn [lex_exp]. apply is_delim_head in Hr as [-> | ->]; reflexivity.
  - destruct ((e =? 101) || (e =? 69)); [|injection H as <- <-; reflexivity].
    destruct s as [|c s]; cbn [app] in *.
    + injection H as <- <-. destruct r as [|a r]; [reflexivity|].
      pose proof Hr as Ha. apply is_delim_head in Ha as [-> | ->]; reflexivity.
    + destruct ((c =? 45) || (c =? 43)).
      * destruct (span_digits s) as [d r'] eqn:Hs.
        rewrite (span_digits_app _ _ _ _ Hs Hr).
        destruct d; injection H as <- <-; reflexivity.
      * destruct (span_digits (c :: s)) as [d r'] eqn:Hs.
        change (c :: s ++ r) with ((c :: s) ++ r).
        rewrite (span_digits_app _ _ _ _ Hs Hr).
        destruct d; injection H as <- <-; reflexivity.
Qed.

Lemma lex_int_nonempty s p t : lex_int s = Some (p, t) -> p <> [].
Proof.
  destruct s as [|c s]; cbn; [discriminate|].
  destruct (_ && _).
  - destruct (span_digits s). intros [= <- _]. discriminate.
  - destruct (c =? 48); [|discriminate]. intros [= <- _]. discriminate.
Qed.

(** A literal that ends the text is read the same before a delimiter. *)
Lemma match_number_app s lit b r :
  match_number s = Some (lit, b, []) -> is_delim r = true ->
  match_number (s ++ r) = Some (lit, b, r).
Proof.
  unfold match_number. intros H Hr.
  destruct (lex_sign s) as [sg s1] eqn:Hsg.
  destruct (lex_int s1) as [[ip s2]|] eqn:Hip; [|discriminate].
  destruct (lex_frac s2) as [fr s3] eqn:Hfr.
  destruct (lex_exp s3) as [ex s4] eqn:Hex.
  injection H as <- <- ->.
  assert (Hs1 : s1 <> []) by (destruct s1; [discriminate | discriminate]).
  rewrite (lex_sign_app _ _ _ r Hsg Hs1).
  rewrite (lex_int_app _ _ _ r Hip Hr).
  rewrite (lex_frac_app _ _ _ r Hfr Hr).
  rewrite (lex_exp_app _ _ _ r Hex Hr).
  reflexivity.
Qed.

Ltac nchar :=
  unfold number_char;
  first [ left; reflexivity | right; left; reflexivity
        | do 2 right; left; reflexivity | do 3 right; left; reflexivity
        | do 4 right; left; reflexivity | do 5 right; reflexivity ].

Lemma number_char_ascii c : number_char c -> c < 128.
Proof.
  unfold number_char, is_digit.
  intros [[_ ?%N.leb_le]%andb_prop | [-> | [-> | [-> | [-> | ->]]]]]; lia.
Qed.

Lemma digits_number_chars d :
  Forall (fun c => is_digit c = true) d -> Forall number_char d.
Proof. intros H. eapply Forall_impl; [exact H|]. intros c Hc. left. exact Hc. Qed.

(** The literal and the rest make up the text, and the literal is made of
    digits, dots, signs and the letter e. *)
Lemma match_number_split s lit b t :
  match_number s = Some (lit, b, t) ->
  s = lit ++ t /\ Forall number_char lit /\ lit <> [].
Proof.
  unfold match_number.
  destruct (lex_sign s) as [sg s1] eqn:Hsg.
  destruct (lex_int s1) as [[ip s2]|] eqn:Hip; [|discriminate].
  destruct (lex_frac s2) as [fr s3] eqn:Hfr.
  destruct (lex_exp s3) as [ex s4] eqn:Hex.
  intros [= <- <- <-].
  assert (H1 : s = sg ++ s1 /\ Forall number_char sg).
  { destruct s as [|c s]; cbn in Hsg.
    - injection Hsg as <- <-. split; [reflexivity | constructor].
    - destruct (N.eqb_spec c 45) as [->|]; injection Hsg as <- <-.
      + split; [reflexivity|]. constructor; [nchar | constructor].
      + split; [reflexivity | constructor]. }
  assert (H2 : s1 = ip ++ s2 /\ Forall number_char ip).
  { destruct s1 as [|c s1]; cbn in Hip; [discriminate|].
    destruct ((49 <=? c) && (c <=? 57)) eqn:Hc.
    - destruct (span_digits s1) as [d r] eqn:Hd. injection Hip as <- <-.
      apply span_digits_split in Hd as [-> Hd]. split; [reflexivity|].
      constructor; [|apply digits_number_chars; exact Hd].
      left. unfold is_digit. apply andb_prop in Hc as [?%N.leb_le ?].
      apply andb_true_intro. split; [apply N.leb_le; lia | assumption].
    - destruct (N.eqb_spec c 48) as [->|]; [|discriminate].
      injection Hip as <- <-. split; [reflexivity|].
      constructor; [nchar | constructor]. }
  assert (H3 : s2 = fr ++ s3 /\ Forall number_char fr).
  { destruct s2 as [|c0 [|c1 s2]]; cbn in Hfr;
      try (injection Hfr as <- <-; split; [reflexivity | constructor]).
    destruct (N.eqb_spec c0 46) as [->|]; cbn [andb] in Hfr.
    - destruct (is_digit c1) eqn:Hc1.
      + destruct (span_digits s2) as [d r] eqn:Hd. injection Hfr as <- <-.
        apply span_digits_split in Hd as [-> Hd]. split; [reflexivity|].
        constructor; [nchar|].
        constructor; [left; assumption | apply digits_number_chars; exact Hd].
      + injection Hfr as <- <-. split; [reflexivity | constructor].
    - injection Hfr as <- <-. split; [reflexivity | constructor]. }
  assert (H4 : s3 = ex ++ s4 /\ Forall number_char ex).
  { destruct s3 as [|e s3]; cbn [lex_exp] in Hex.
    - injection Hex as <- <-. split; [reflexivity | constructor].
    - destruct ((e =? 101) || (e =? 69)) eqn:He.
      2:{ injection Hex as <- <-. split; [reflexivity | constructor]. }
      assert (Hne : number_char e).
      { apply Bool.orb_true_iff in He as [->%N.eqb_eq | ->%N.eqb_eq]; nchar. }
      destruct s3 as [|c s3].
      + cbn in Hex. injection Hex as <- <-. split; [reflexivity | constructor].
      + destruct ((c =? 45) || (c =? 43)) eqn:Hc.
        * destruct (span_digits s3) as [d r] eqn:Hd.
          apply span_digits_split in Hd as [-> Hd].
          destruct d as [|d0 d]; injection Hex as <- <-;
            (split; [reflexivity|]); [constructor|].
          constructor; [exact Hne|]. constructor.
          -- apply Bool.orb_true_iff in Hc as [->%N.eqb_eq | ->%N.eqb_eq]; nchar.
          -- apply digits_number_chars; exact Hd.
        * destruct (span_digits (c :: s3)) as [d r] eqn:Hd.
          apply span_digits_split in Hd as [Heq Hd].
          destruct d as [|d0 d]; injection Hex as <- <-.
          -- split; [reflexivity | constructor].
          -- split; [cbn [app]; rewrite Heq; reflexivity|].
             constructor; [exact Hne | apply digits_number_chars; exact Hd]. }
  destruct H1 as [-> F1], H2 as [-> F2], H3 as [-> F3], H4 as [-> F4].
  split; [rewrite <- !app_assoc; reflexivity|]. split.
  - repeat (apply Forall_app; split); assumption.
  - apply lex_int_nonempty in Hip. destruct sg, ip; try discriminate; congruence.
Qed.

(** What a float literal looks like to the scanner. *)
Lemma float_literal_scan s r :
  is_float_literal s = true -> is_delim r = true ->
  match_number (s ++ r) = Some (s, true, r)
  /\ Forall (fun c => c < 128) s
  /\ exists c s', s = c :: s' /\ (c = MINUS \/ is_digit c = true).
Proof.
  unfold is_float_literal. intros H Hr.
  destruct (match_number s) as [[[lit b] t]|] eqn:Hm; [|discriminate].
  destruct b; [|discriminate]. destruct t; [|discriminate].
  pose proof (match_number_split _ _ _ _ Hm) as (Hs & Hc & Hne).
  rewrite app_nil_r in Hs. subst lit.
  split; [apply match_number_app; assumption|]. split.
  - eapply Forall_impl; [exact Hc|]. intros c. apply number_char_ascii.
  - unfold match_number in Hm.
    destruct s as [|c s']; [congruence|]. exists c, s'. split; [reflexivity|].
    cbn [lex_sign] in Hm. destruct (N.eqb_spec c 45) as [->|Hc0]; [auto|].
    right. cbn [lex_int] in Hm. unfold is_digit.
    destruct ((49 <=? c) && (c <=? 57)) eqn:H19.
    + apply andb_prop in H19 as [?%N.leb_le ?%N.leb_le].
      apply andb_true_intro; split; apply N.leb_le; lia.
    + destruct (N.eqb_spec c 48) as [->|]; [reflexivity | discriminate].
Qed.

(** ** Integers: [int(repr(z)) == z] *)

Lemma uint_of_digits_of_uint u : uint_of_digits (digits_of_uint u) = u.
Proof.
  induction u as [|u IH|u IH|u IH|u IH|u IH|u IH|u IH|u IH|u IH|u IH];
    cbn [digits_of_uint uint_of_digits]; [reflexivity|..]; rewrite IH; reflexivity.
Qed.

Lemma digits_of_uint_digits u :
  Forall (fun c => is_digit c = true) (digits_of_uint u).
Proof. induction u; cbn; constructor; auto. Qed.

Lemma unorm_fixed u : unorm u = u -> u = D0 Nil \/ leading u.
Proof.
  unfold unorm. intros H.
  destruct (nzhead u) eqn:Hn; try (rewrite <- H; right; exact I).
  - left. symmetry. exact H.
  - exfalso. exact (nzhead_nonzero _ _ Hn).
Qed.

Lemma to_int_normal z :
  match Z.to_int z with
  | Decimal.Pos u => u = D0 Nil \/ leading u
  | Decimal.Neg u => leading u
  end.
Proof.
  pose proof (DecimalZ.to_of (Z.to_int z)) as H.
  rewrite DecimalZ.of_to in H.
  destruct (Z.to_int z) as [u|u]; cbn [norm] in H.
  - injection H as H. apply unorm_fixed. symmetry. exact H.
  - destruct (nzhead u) eqn:Hn; try discriminate;
      injection H as ->; try exact I.
    exfalso. exact (nzhead_nonzero _ _ Hn).
Qed.

Lemma lex_tail_delim r :
  is_delim r = true -> lex_frac r = ([], r) /\ lex_exp r = ([], r).
Proof.
  intros Hr. destruct r as [|c r]; [split; reflexivity|].
  apply is_delim_head in Hr as [-> | ->]; split; try reflexivity;
    destruct r; reflexivity.
Qed.

Lemma lex_int_leading u r :
  u = D0 Nil \/ leading u -> is_delim r = true ->
  lex_int (digits_of_uint u ++ r) = Some (digits_of_uint u, r).
Proof.
  intros [-> | Hu] Hr; [reflexivity|].
  destruct u; try contradiction; cbn [digits_of_uint app lex_int];
    change (_ && _) with true; cbv iota;
    rewrite (span_digits_exact _ r (digits_of_uint_digits _) Hr); reflexivity.
Qed.

Lemma digits_head_not_minus u r :
  u = D0 Nil \/ leading u ->
  lex_sign (digits_of_uint u ++ r) = ([], digits_of_uint u ++ r).
Proof. intros [-> | Hu]; [reflexivity|]. destruct u; try contradiction; reflexivity. Qed.

(** The scanner takes the text of an integer whole, as an integer. *)
Lemma match_number_int_repr z r :
  is_delim r = true ->
  match_number (int_repr z ++ r) = Some (int_repr z, false, r).
Proof.
  intros Hr. unfold int_repr, match_number.
  pose proof (to_int_normal z) as Hn.
  destruct (lex_tail_delim r Hr) as [Hf He].
  destruct (Z.to_int z) as [u|u].
  - rewrite (digits_head_not_minus u r Hn), (lex_int_leading u r Hn Hr), Hf, He.
    cbn. rewrite app_nil_r. reflexivity.
  - cbn [app lex_sign]. change (45 =? 45) with true. cbv iota.
    rewrite (lex_int_leading u r (or_intror Hn) Hr), Hf, He.
    cbn. rewrite app_nil_r. reflexivity.
Qed.

Lemma int_of_str_digits u :
  u = D0 Nil \/ leading u -> int_of_str (digits_of_uint u) = Z.of_int (Decimal.Pos u).
Proof.
  intros [-> | Hu]; [reflexivity|].
  rewrite <- (uint_of_digits_of_uint u) at 2.
  destruct u; try contradiction; reflexivity.
Qed.

Lemma int_of_str_repr z : int_of_str (int_repr z) = z.
Proof.
  unfold int_repr.
  pose proof (to_int_normal z) as Hn. pose proof (DecimalZ.of_to z) as Hz.
  destruct (Z.to_int z) as [u|u].
  - rewrite int_of_str_digits by exact Hn. exact Hz.
  - unfold int_of_str. change (45 =? 45) with true. cbv iota.
    rewrite uint_of_digits_of_uint. exact Hz.
Qed.

Lemma int_repr_ascii z : Forall (fun c => c < 128) (int_repr z).
Proof.
  assert (Hd : forall u, Forall (fun c => c < 128) (digits_of_uint u)).
  { intros u. eapply Forall_impl; [apply digits_of_uint_digits|].
    intros c [_ ?%N.leb_le]%andb_prop. lia. }
  unfold int_repr. destruct (Z.to_int z); [apply Hd|].
  constructor; [lia | apply Hd].
Qed.

Lemma lex_int_head s r : lex_int s = Some r ->
  match s with c :: _ => is_digit c = true | [] => False end.
Proof.
  destruct s as [|c s]; cbn [lex_int]; [discriminate|]. unfold is_digit.
  destruct ((49 <=? c) && (c <=? 57)) eqn:H19.
  - intros _. apply andb_prop in H19 as [?%N.leb_le ?%N.leb_le].
    apply andb_true_intro; split; apply N.leb_le; lia.
  - destruct (N.eqb_spec c 48) as [->|]; [reflexivity | discriminate].
Qed.

Lemma match_number_head s r : match_number s = Some r -> number_head s.
Proof.
  unfold match_number. destruct s as [|c s]; [discriminate|].
  cbn [lex_sign]. destruct (N.eqb_spec c 45) as [->|Hc].
  - destruct (lex_int s) as [[ip s2]|] eqn:Hip; [|discriminate].
    intros _. right. split; [reflexivity|].
    apply lex_int_head in Hip. destruct s; [contradiction | exact Hip].
  - destruct (lex_int (c :: s)) as [[ip s2]|] eqn:Hip; [|discriminate].
    intros _. left. apply lex_int_head in Hip. exact Hip.
Qed.

(** ** The encoder's chunks spell the pretty-printed text *)

Section JsonFacts.
Context {PF : PyFloat}.

(** Induction on values, with the hypothesis for every item of a container. *)
Lemma json_nested_ind (P : json -> Prop) :
  P JNull -> (forall b, P (JBool b)) -> (forall z, P (JInt z)) ->
  (forall f, P (JFloat f)) -> (forall s, P (JStr s)) ->
  (forall l, Forall P l -> P (JList l)) ->
  (forall d, Forall (fun kv => P (snd kv)) d -> P (JDict d)) ->
  forall v, P v.
Proof.
  intros Hnull Hbool Hint Hfloat Hstr Hlist Hdict.
  fix IH 1. intros [ |b|z|f|s|l|d].
  - exact Hnull.
  - apply Hbool.
  - apply Hint.
  - apply Hfloat.
  - apply Hstr.
  - apply Hlist. induction l as [|x l IHl]; constructor; [apply IH | exact IHl].
  - apply Hdict. induction d as [|[k x] d IHd]; constructor; [apply IH | exact IHd].
Qed.

Lemma atom_pretty v t lvl : atom v = Some t -> pretty v lvl = t.
Proof. destruct v as [ |[]| | | | | ]; cbn; congruence. Qed.

Lemma atom_container v :
  atom v = None -> (exists l, v = JList l) \/ (exists d, v = JDict d).
Proof. destruct v as [ |[]| | | | | ]; cbn; try discriminate; eauto. Qed.

Lemma iterencode_atom v t lvl : atom v = Some t -> iterencode v lvl = [t].
Proof. destruct v as [ |[]| | | | | ]; cbn; congruence. Qed.

Lemma concat_iterencode v : forall lvl, List.concat (iterencode v lvl) = pretty v lvl.
Proof.
  induction v as [ |b|z|f|s|l IH|d IH] using json_nested_ind; intros lvl;
    try (destruct b); try (cbn; rewrite ?app_nil_r; reflexivity).
  - destruct l as [|x l]; [reflexivity|].
    cbn [iterencode pretty].
    set (line := NEWLINE :: indent_str (S lvl)).
    rewrite concat_app. cbn [List.concat]. rewrite app_nil_r.
    assert (Hitems : forall l buf, Forall (fun v => forall lvl, List.concat (iterencode v lvl) = pretty v lvl) l ->
      forall x, (forall lvl, List.concat (iterencode x lvl) = pretty x lvl) ->
      List.concat
        ((fix items (l0 : list json) (buf0 : list N) {struct l0} : list (list N) :=
            match l0 with
            | [] => []
            | v :: l' =>
              match atom v with
              | Some t => [buf0 ++ t]
              | None => buf0 :: iterencode v (S lvl)
              end ++ items l' (COMMA :: line)
            end) (x :: l) buf)
      = buf ++ pretty x (S lvl)
        ++ more_items (COMMA :: line) (fun v => pretty v (S lvl)) l).
    { clear. intros l. induction l as [|y l IHl]; intros buf Hl x Hx.
      - cbn [more_items]. rewrite !app_nil_r.
        destruct (atom x) as [t|] eqn:Ha.
        + cbn. rewrite app_nil_r, (atom_pretty _ _ _ Ha). reflexivity.
        + cbn [List.concat]. rewrite Hx. reflexivity.
      - apply Forall_cons in Hl as [Hy Hl].
        specialize (IHl (COMMA :: line) Hl y Hy).
        cbn [more_items]. rewrite <- IHl. clear IHl.
        rewrite concat_app.
        destruct (atom x) as [t|] eqn:Ha.
        + cbn [List.concat]. rewrite app_nil_r, (atom_pretty _ _ _ Ha).
          rewrite <- !app_assoc. reflexivity.
        + cbn [List.concat]. rewrite Hx. rewrite <- !app_assoc. reflexivity. }
    apply Forall_cons in IH as [Hx Hl].
    rewrite (Hitems l (LBRACKET :: line) Hl x Hx).
    cbn [app]. rewrite <- !app_assoc. reflexivity.
  - destruct d as [|[k x] d]; [reflexivity|].
    cbn [iterencode pretty].
    set (line := NEWLINE :: indent_str (S lvl)).
    cbn [List.concat]. rewrite concat_app. cbn [List.concat]. rewrite app_nil_r.
    assert (Hitems : forall d first,
      Forall (fun kv => forall lvl, List.concat (iterencode (snd kv) lvl) = pretty (snd kv) lvl) d ->
      List.concat
        ((fix items (d0 : list (list N * json)) (first0 : bool) {struct d0}
            : list (list N) :=
            match d0 with
            | [] => []
            | (k0, v) :: d' =>
              (if first0 then [] else [COMMA :: line])
              ++ encode_basestring_ascii k0 :: [COLON; SPACE]
                 :: match atom v with
                    | Some t => [t]
                    | None => iterencode v (S lvl)
                    end ++ items d' false
            end) d first)
      = match d with
        | [] => []
        | kv :: d' =>
          (if first then [] else COMMA :: line)
          ++ (encode_basestring_ascii (fst kv)
              ++ COLON :: SPACE :: pretty (snd kv) (S lvl))
          ++ more_items (COMMA :: line)
               (fun kv => encode_basestring_ascii (fst kv)
                          ++ COLON :: SPACE :: pretty (snd kv) (S lvl)) d'
        end).
    { clear. intros d. induction d as [|[k0 y] d IHd]; intros first Hd; [reflexivity|].
      apply Forall_cons in Hd as [Hy Hd]. cbn [fst snd] in Hy.
      rewrite concat_app. cbn [List.concat]. rewrite concat_app.
      rewrite (IHd false Hd). clear IHd.
      assert (Hv : List.concat match atom y with
                               | Some t => [t]
                               | None => iterencode y (S lvl)
                               end = pretty y (S lvl)).
      { destruct (atom y) as [t|] eqn:Ha.
        - cbn. rewrite app_nil_r. symmetry. apply atom_pretty. exact Ha.
        - apply Hy. }
      rewrite Hv. cbn [fst snd].
      destruct first; destruct d as [|kv d]; cbn [more_items List.concat app];
        rewrite ?app_nil_r, <- ?app_assoc; reflexivity. }
    rewrite (Hitems _ true IH). cbn [fst snd app].
    rewrite <- !app_assoc. reflexivity.
Qed.

(** Writing chunk after chunk to an empty buffer leaves the whole text. *)
Lemma fold_write (chunks : list (list N)) (buffer : list N) :
  List.fold_left (fun b chunk => b ++ chunk) chunks buffer
  = buffer ++ List.concat chunks.
Proof.
  revert buffer. induction chunks as [|c chunks IH]; intros buffer; cbn.
  - rewrite app_nil_r. reflexivity.
  - rewrite IH, <- app_assoc. reflexivity.
Qed.

Lemma json_dumps_pretty v : json_dumps v = pretty v 0.
Proof. apply concat_iterencode. Qed.

End JsonFacts.

(** ** Reading back what the encoder wrote *)

Section Roundtrip.
Context {PF : PyFloat}.

Lemma skip_ws_indent n s : skip_ws (indent_str n ++ s) = skip_ws s.
Proof.
  unfold indent_str. induction (2 * n)%nat as [|m IH]; [reflexivity|].
  cbn [List.repeat app skip_ws]. exact IH.
Qed.

Lemma skip_ws_line n s : skip_ws (NEWLINE :: indent_str n ++ s) = skip_ws s.
Proof. cbn [skip_ws]. change (is_ws 10) with true. cbv iota. apply skip_ws_indent. Qed.

Lemma skip_ws_head c s : is_ws c = false -> skip_ws (c :: s) = c :: s.
Proof. intros H. cbn [skip_ws]. rewrite H. reflexivity. Qed.

(** A number at the head of the text is read by [scan_number]. *)
Lemma scan_once_number fuel s :
  number_head s -> scan_once (S fuel) s = scan_number s.
Proof.
  destruct s as [|c s]; [contradiction|]. cbn [number_head scan_once].
  unfold is_digit, keyword.
  intros [[Hc1%N.leb_le Hc2%N.leb_le]%andb_prop | [-> Hc]].
  - repeat match goal with
           | |- context [c =? ?k] =>
             destruct (N.eqb_spec c k) as [?|_]; [lia|]
           end.
    reflexivity.
  - change (45 =? 34) with false. change (45 =? 123) with false.
    change (45 =? 91) with false. change (45 =? 110) with false.
    change (45 =? 116) with false. change (45 =? 102) with false.
    change (45 =? 78) with false. change (45 =? 73) with false.
    change (45 =? 45) with true. cbv iota.
    destruct s as [|c' s]; [contradiction|]. cbn [str strip List.map list_ascii_of_string].
    unfold is_digit in Hc. apply andb_prop in Hc as [Hc1%N.leb_le Hc2%N.leb_le].
    change (N_of_ascii "I") with 73.
    destruct (N.eqb_spec 73 c') as [?|_]; [lia|]. reflexivity.
Qed.

Lemma number_head_app s r : number_head s -> number_head (s ++ r).
Proof.
  destruct s as [|c [|c' s]]; cbn; try contradiction; auto.
  intros [H | [_ []]]. auto.
Qed.

(** The text of a value that is not a container is read back as the value. *)
Lemma scan_atom v t fuel rest :
  atom v = Some t -> json_ok v -> is_delim rest = true ->
  scan_once (S fuel) (t ++ rest) = Scanned v rest.
Proof.
  intros Ht Hok Hr. destruct v as [ |[]|z|f|s|l|d]; cbn [atom] in Ht;
    try discriminate; injection Ht as <-; try reflexivity.
  - rewrite scan_once_number.
    + unfold scan_number. rewrite match_number_int_repr by exact Hr.
      rewrite int_of_str_repr. reflexivity.
    + apply number_head_app. eapply match_number_head.
      rewrite <- (app_nil_r (int_repr z)). apply match_number_int_repr. reflexivity.
  - unfold floatstr. destruct (float_classify f) eqn:Hf.
    + apply classify_nan in Hf as ->. reflexivity.
    + apply classify_inf in Hf as ->. reflexivity.
    + apply classify_neg_inf in Hf as ->. reflexivity.
    + pose proof (repr_literal f Hf) as Hlit.
      destruct (float_literal_scan _ rest Hlit Hr) as (Hm & _ & _).
      rewrite scan_once_number.
      * unfold scan_number. rewrite Hm, (repr_roundtrip f Hf). reflexivity.
      * eapply match_number_head. exact Hm.
  - inversion Hok as [ | | | |? Hs| | ]; subst.
    unfold encode_basestring_ascii. cbn [app scan_once].
    change (34 =? 34) with true. cbv iota. rewrite <- app_assoc. cbn [app].
    rewrite (scanstring_escaped s rest Hs). reflexivity.
Qed.

(** A printed value starts with a character that is neither white space
    nor a closing bracket. *)
Lemma pretty_head v lvl :
  exists c t, pretty v lvl = c :: t /\ is_ws c = false /\ c <> RBRACKET.
Proof.
  destruct v as [ |[]|z|f|s|[|x l]|[|[k x] d]]; cbn [pretty];
    try (eexists _, _; split; [reflexivity|]; split; [reflexivity | discriminate]).
  - assert (H : number_head (int_repr z)).
    { eapply match_number_head. rewrite <- (app_nil_r (int_repr z)).
      apply (match_number_int_repr z []). reflexivity. }
    destruct (int_repr z) as [|c t]; [contradiction|]. exists c, t.
    split; [reflexivity|]. cbn in H. unfold is_digit, is_ws in *.
    destruct H as [[?%N.leb_le ?%N.leb_le]%andb_prop | [-> _]].
    + split; [|lia].
      repeat match goal with
             | |- context [c =? ?k] => destruct (N.eqb_spec c k) as [?|_]; [lia|]
             end. reflexivity.
    + split; [reflexivity | discriminate].
  - unfold floatstr. destruct (float_classify f) eqn:Hf;
      try (eexists _, _; split; [reflexivity|]; split; [reflexivity | discriminate]).
    destruct (float_literal_scan _ [] (repr_literal f Hf) eq_refl)
      as (_ & _ & c & t & -> & Hc).
    exists c, t. split; [reflexivity|]. unfold is_digit, is_ws in *.
    destruct Hc as [-> | [?%N.leb_le ?%N.leb_le]%andb_prop].
    + split; [reflexivity | discriminate].
    + split; [|lia].
      repeat match goal with
             | |- context [c =? ?k] => destruct (N.eqb_spec c k) as [?|_]; [lia|]
             end. reflexivity.
Qed.

Lemma skip_ws_line_pretty n v lvl s :
  skip_ws (NEWLINE :: indent_str n ++ pretty v lvl ++ s) = pretty v lvl ++ s.
Proof.
  rewrite skip_ws_line. destruct (pretty_head v lvl) as (c & t & -> & Hc & _).
  apply skip_ws_head. exact Hc.
Qed.

End Roundtrip.

Section RoundtripValues.
Context {PF : PyFloat}.

Lemma dict_set_fresh (d : list (pystr * json)) k v :
  k ∉ List.map fst d -> dict_set d k v = d ++ [(k, v)].
Proof.
  induction d as [|[k' v'] d IH]; intros Hk; cbn [dict_set app]; [reflexivity|].
  cbn [List.map fst] in Hk. apply not_elem_of_cons in Hk as [Hne Hk].
  destruct (decide (k' = k)); [congruence|]. rewrite IH by exact Hk. reflexivity.
Qed.

(** The loop of [_parse_array] on the printed items of a list. *)
Lemma array_items_pretty (scan_value : pystr -> scan json) lvl rest l :
  forall x acc n,
  Forall (fun y => forall r, is_delim r = true ->
            scan_value (pretty y (S lvl) ++ r) = Scanned y r) (x :: l) ->
  (length (x :: l) <= n)%nat ->
  parse_array_items scan_value n
    (pretty x (S lvl)
     ++ more_items (COMMA :: NEWLINE :: indent_str (S lvl))
          (fun v => pretty v (S lvl)) l
     ++ NEWLINE :: indent_str lvl ++ RBRACKET :: rest) acc
  = Scanned (acc ++ x :: l) rest.
Proof.
  induction l as [|y l IH]; intros x acc n Hall Hn;
    (destruct n as [|n]; [cbn in Hn; lia|]);
    apply Forall_cons in Hall as [Hx Hall]; cbn [parse_array_items more_items].
  - rewrite Hx by reflexivity. cbn [app]. rewrite skip_ws_line.
    cbn [skip_ws]. change (is_ws 93) with false. cbv iota.
    change (93 =? 93) with true. reflexivity.
  - rewrite Hx by reflexivity.
    cbn [app skip_ws]. change (is_ws 44) with false. cbv iota.
    change (44 =? 93) with false. change (44 =? 44) with true. cbv iota.
    rewrite <- !app_assoc. rewrite skip_ws_line_pretty.
    rewrite IH; [|exact Hall|cbn in Hn |- *; lia].
    rewrite <- app_assoc. reflexivity.
Qed.

Lemma skip_ws_pretty v lvl s : skip_ws (pretty v lvl ++ s) = pretty v lvl ++ s.
Proof.
  destruct (pretty_head v lvl) as (c & t & -> & Hc & _).
  apply skip_ws_head. exact Hc.
Qed.

(** One turn of the loop of [_parse_object] on a printed key. *)
Lemma parse_object_items_step (scan_value : pystr -> scan json) n k s acc :
  str_ok k = true ->
  parse_object_items scan_value (S n)
    (encode_basestring_ascii k ++ COLON :: SPACE :: s) acc
  = match scan_value (skip_ws s) with
    | Scanned v s4 =>
      match skip_ws s4 with
      | c' :: s5 =>
        if c' =? RBRACE then Scanned (dict_set acc k v) s5
        else if c' =? COMMA
        then parse_object_items scan_value n (skip_ws s5) (dict_set acc k v)
        else Invalid
      | [] => Invalid
      end
    | Invalid => Invalid
    | Starved => Starved
    end.
Proof.
  intros Hk. unfold encode_basestring_ascii.
  cbn [app parse_object_items]. change (34 =? 34) with true. cbv iota.
  rewrite <- app_assoc. cbn [app]. rewrite (scanstring_escaped k _ Hk).
  reflexivity.
Qed.

(** The loop of [_parse_object] on the printed items of a dict. *)
Lemma object_items_pretty (scan_value : pystr -> scan json) lvl rest d :
  forall kv acc n,
  Forall (fun e => str_ok (fst e) = true /\ forall r, is_delim r = true ->
            scan_value (pretty (snd e) (S lvl) ++ r) = Scanned (snd e) r) (kv :: d) ->
  NoDup (List.map fst (acc ++ kv :: d)) ->
  (length (kv :: d) <= n)%nat ->
  parse_object_items scan_value n
    ((encode_basestring_ascii (fst kv) ++ COLON :: SPACE :: pretty (snd kv) (S lvl))
     ++ more_items (COMMA :: NEWLINE :: indent_str (S lvl))
          (fun kv => encode_basestring_ascii (fst kv)
                     ++ COLON :: SPACE :: pretty (snd kv) (S lvl)) d
     ++ NEWLINE :: indent_str lvl ++ RBRACE :: rest) acc
  = Scanned (acc ++ kv :: d) rest.
Proof.
  induction d as [|e d IH]; intros [k x] acc n Hall Hnd Hn;
    (destruct n as [|n]; [cbn in Hn; lia|]);
    apply Forall_cons in Hall as [[Hk Hx] Hall]; cbn [fst snd] in *;
    cbn [more_items];
    rewrite <- !app_assoc; cbn [app];
    rewrite (parse_object_items_step _ _ _ _ _ Hk), skip_ws_pretty;
    assert (Hfresh : dict_set acc k x = acc ++ [(k, x)])
      by (apply dict_set_fresh; rewrite map_app in Hnd;
          apply NoDup_app in Hnd as (_ & Hnd & _);
          intros Hin; apply (Hnd k Hin); cbn; left).
  - rewrite Hx by reflexivity. rewrite skip_ws_line.
    cbn [skip_ws]. change (is_ws 125) with false. cbv iota.
    change (125 =? 125) with true. cbv iota. rewrite Hfresh. reflexivity.
  - rewrite Hx by reflexivity.
    cbn [skip_ws]. change (is_ws 44) with false. cbv iota.
    change (44 =? 125) with false. change (44 =? 44) with true. cbv iota.
    rewrite Hfresh. rewrite skip_ws_line.
    assert (Hq : forall k' s, skip_ws (encode_basestring_ascii k' ++ s)
                              = encode_basestring_ascii k' ++ s) by reflexivity.
    rewrite Hq.
    specialize (IH e (acc ++ [(k, x)]) n Hall).
    rewrite <- !app_assoc in IH. cbn [app] in IH.
    rewrite IH; [reflexivity | exact Hnd | cbn in Hn |- *; lia].
Qed.

End RoundtripValues.

Ltac norm_app := repeat first [rewrite <- app_assoc | progress cbn [app]].

Section RoundtripTheorem.
Context {PF : PyFloat}.

Lemma scan_once_list fuel s :
  scan_once (S fuel) (LBRACKET :: s)
  = scan_map JList (parse_array (scan_once fuel) fuel s).
Proof. reflexivity. Qed.

Lemma scan_once_dict fuel s :
  scan_once (S fuel) (LBRACE :: s)
  = scan_map JDict (parse_object (scan_once fuel) fuel s).
Proof. reflexivity. Qed.

Lemma parse_array_nonempty scan_value n k x lvl s :
  parse_array scan_value n (NEWLINE :: indent_str k ++ pretty x lvl ++ s)
  = parse_array_items scan_value n (pretty x lvl ++ s) [].
Proof.
  unfold parse_array. rewrite skip_ws_line_pretty.
  destruct (pretty_head x lvl) as (c & t & -> & _ & Hne). cbn [app].
  destruct (N.eqb_spec c 93); [congruence | reflexivity].
Qed.

Lemma parse_object_nonempty scan_value n k key s :
  parse_object scan_value n
    (NEWLINE :: indent_str k ++ encode_basestring_ascii key ++ s)
  = parse_object_items scan_value n (encode_basestring_ascii key ++ s) [].
Proof. unfold parse_object. rewrite skip_ws_line. reflexivity. Qed.

Lemma fuel_for_list l f :
  (fuel_for (JList l) <= S f)%nat ->
  (length l <= f)%nat /\ Forall (fun y => (fuel_for y <= f)%nat) l.
Proof.
  cbn [fuel_for]. intros H.
  assert (H1 : (length l <= f)%nat) by lia.
  assert (H2 : (list_max (List.map fuel_for l) <= f)%nat) by lia.
  split; [exact H1|]. apply list_max_le in H2.
  apply List.Forall_map in H2. exact H2.
Qed.

Lemma fuel_for_dict d f :
  (fuel_for (JDict d) <= S f)%nat ->
  (length d <= f)%nat /\ Forall (fun kv => (fuel_for (snd kv) <= f)%nat) d.
Proof.
  cbn [fuel_for]. intros H.
  assert (H1 : (length d <= f)%nat) by lia.
  assert (H2 : (list_max (List.map (fun kv => fuel_for (snd kv)) d) <= f)%nat) by lia.
  split; [exact H1|]. apply list_max_le in H2.
  apply List.Forall_map in H2. exact H2.
Qed.

Lemma fuel_for_pos v : (1 <= fuel_for v)%nat.
Proof. destruct v; cbn [fuel_for]; lia. Qed.

(** With enough fuel the scanner reads a printed value back, whatever
    delimiter follows it. *)
Lemma scan_pretty v :
  json_ok v -> forall lvl fuel rest,
  (fuel_for v <= fuel)%nat -> is_delim rest = true ->
  scan_once fuel (pretty v lvl ++ rest) = Scanned v rest.
Proof.
  induction v as [ |b|z|f|s|l IH|d IH] using json_nested_ind;
    intros Hok lvl fuel rest Hfuel Hr;
    (destruct fuel as [|fuel]; [pose proof (fuel_for_pos) as Hp; cbn in Hfuel; lia|]);
    try (apply scan_atom; [destruct b || idtac; reflexivity | assumption | assumption]).
  - inversion Hok as [ | | | | |? Hl| ]; subst.
    apply fuel_for_list in Hfuel as [Hlen Hf].
    destruct l as [|x l]; [reflexivity|].
    cbn [pretty]. cbn [app]. rewrite scan_once_list.
    rewrite <- ?app_assoc. rewrite parse_array_nonempty. norm_app.
    rewrite array_items_pretty; [reflexivity| |exact Hlen].
    apply Forall_forall. intros y Hy r Hdr.
    rewrite Forall_forall in IH, Hl, Hf.
    apply IH; auto.
  - inversion Hok as [ | | | | | |? Hnd Hd]; subst.
    apply fuel_for_dict in Hfuel as [Hlen Hf].
    destruct d as [|[k x] d]; [reflexivity|].
    cbn [pretty]. cbn [app]. rewrite scan_once_dict.
    rewrite <- ?app_assoc. rewrite parse_object_nonempty.
    pose proof (object_items_pretty (scan_once fuel) lvl rest d (k, x) [] fuel) as Hloop.
    cbn [fst snd app] in Hloop.
    repeat first [rewrite <- app_assoc in Hloop | progress cbn [app] in Hloop].
    norm_app.
    rewrite Hloop; [reflexivity| |exact Hnd|exact Hlen].
    apply Forall_forall. intros e He.
    rewrite Forall_forall in IH, Hd, Hf.
    destruct (Hd e He) as [Hke Hoke]. split; [exact Hke|].
    intros r Hdr. apply IH; auto.
Qed.

End RoundtripTheorem.

(** ** What the decoder builds is well formed *)

Lemma consumed_cons c s : consumed (c :: s) s.
Proof. exists [c]. split; [reflexivity | discriminate]. Qed.

Lemma consumed_trans s t r : consumed s t -> consumed t r -> consumed s r.
Proof.
  intros (p & -> & Hp) (q & -> & Hq). exists (p ++ q).
  split; [rewrite app_assoc; reflexivity|]. destruct p; [congruence | discriminate].
Qed.

Lemma skip_ws_suffix s : exists p, s = p ++ skip_ws s.
Proof.
  induction s as [|c s [p IH]]; [exists []; reflexivity|].
  cbn [skip_ws]. destruct (is_ws c).
  - exists (c :: p). cbn. rewrite <- IH. reflexivity.
  - exists []. reflexivity.
Qed.

Lemma consumed_skip_ws_l s r : consumed (skip_ws s) r -> consumed s r.
Proof.
  intros (p & Hp & Hne). destruct (skip_ws_suffix s) as [q Hq].
  exists (q ++ p). split; [rewrite <- app_assoc, <- Hp; exact Hq|].
  destruct q, p; try discriminate; congruence.
Qed.

Lemma consumed_skip_ws_r s r : consumed s r -> consumed s (skip_ws r).
Proof.
  intros (p & -> & Hne). destruct (skip_ws_suffix r) as [q Hq].
  exists (p ++ q). split; [rewrite <- app_assoc, <- Hq; reflexivity|].
  destruct p; [congruence | discriminate].
Qed.

Lemma consumed_length s r : consumed s r -> (length r < length s)%nat.
Proof.
  intros (p & -> & Hne). rewrite length_app. destruct p; [congruence | cbn; lia].
Qed.

Lemma consumed_scalar s r : consumed s r -> scalar_text s -> scalar_text r.
Proof. intros (p & -> & _) [_ H]%Forall_app. exact H. Qed.

Lemma skip_ws_scalar s : scalar_text s -> scalar_text (skip_ws s).
Proof.
  destruct (skip_ws_suffix s) as [p Hp]. intros H. rewrite Hp in H.
  apply Forall_app in H as [_ H]. exact H.
Qed.

Lemma strip_suffix p s r : strip p s = Some r -> s = p ++ r.
Proof.
  revert s. induction p as [|a p IH]; intros s; cbn [strip].
  - intros [= <-]. reflexivity.
  - destruct s as [|b s]; [discriminate|].
    destruct (N.eqb_spec a b) as [<-|]; [|discriminate].
    intros H. rewrite (IH _ H). reflexivity.
Qed.

Lemma keyword_consumed c tail s r : keyword c tail s = Some r -> consumed s r.
Proof.
  unfold keyword. destruct s as [|c' s]; [discriminate|].
  destruct (c' =? c); [|discriminate]. intros ->%strip_suffix.
  exists (c' :: str tail). split; [reflexivity | discriminate].
Qed.

Section DecoderFacts.
Context {PF : PyFloat}.

Lemma dict_set_keys (d : list (pystr * json)) k v :
  forall k', k' ∈ List.map fst (dict_set d k v) <-> k' ∈ List.map fst d \/ k' = k.
Proof.
  induction d as [|[k0 v0] d IH]; intros k'; cbn [dict_set List.map fst].
  - rewrite list_elem_of_singleton, elem_of_nil. tauto.
  - destruct (decide (k0 = k)) as [->|Hne]; cbn [List.map fst].
    + rewrite !elem_of_cons. tauto.
    + rewrite !elem_of_cons, IH. tauto.
Qed.

Lemma dict_set_ok d k v :
  dict_ok d -> str_ok k = true -> json_ok v -> dict_ok (dict_set d k v).
Proof.
  intros [Hnd Hall] Hk Hv. induction d as [|[k0 v0] d IH]; cbn [dict_set].
  - split; [cbn; apply NoDup_singleton | repeat constructor; assumption].
  - cbn [List.map fst] in Hnd. apply NoDup_cons in Hnd as [Hk0 Hnd].
    apply Forall_cons in Hall as [[Hs0 Hv0] Hall]. cbn [fst snd] in *.
    destruct (decide (k0 = k)) as [->|Hne].
    + split; [cbn [List.map fst]; apply NoDup_cons; auto|].
      constructor; [split; assumption | exact Hall].
    + destruct (IH Hnd Hall) as [Hnd' Hall'].
      split.
      * cbn [List.map fst]. apply NoDup_cons. split; [|exact Hnd'].
        rewrite dict_set_keys. intros [? | ?]; congruence.
      * constructor; [split; assumption | exact Hall'].
Qed.

Lemma parse_array_items_sound scan_value n :
  sound_scanner scan_value ->
  forall s acc l rest,
  parse_array_items scan_value n s acc = Scanned l rest ->
  consumed s rest /\ (scalar_text s -> Forall json_ok acc -> Forall json_ok l).
Proof.
  intros Hscan. induction n as [|n IH]; intros s acc l rest; cbn [parse_array_items];
    [discriminate|].
  destruct (scan_value s) as [v s1| |] eqn:Hv; try discriminate.
  destruct (Hscan _ _ _ Hv) as [Hc Hok].
  destruct (skip_ws s1) as [|c s2] eqn:Hws; [discriminate|].
  assert (Hc2 : consumed s s2).
  { eapply consumed_trans; [apply consumed_skip_ws_r; exact Hc|].
    rewrite Hws. apply consumed_cons. }
  destruct (c =? 93).
  - intros [= <- <-]. split; [exact Hc2|].
    intros Hs Hacc. apply Forall_app. split; [exact Hacc|]. constructor; auto.
  - destruct (c =? 44); [|discriminate]. intros H.
    apply IH in H as [Hc3 Hok3]. split.
    + eapply consumed_trans; [exact Hc2|]. apply consumed_skip_ws_l. exact Hc3.
    + intros Hs Hacc. apply Hok3.
      * apply skip_ws_scalar. eapply consumed_scalar; eassumption.
      * apply Forall_app. split; [exact Hacc|]. constructor; auto.
Qed.

Lemma parse_object_items_sound scan_value n :
  sound_scanner scan_value ->
  forall s acc d rest,
  parse_object_items scan_value n s acc = Scanned d rest ->
  consumed s rest /\ (scalar_text s -> dict_ok acc -> dict_ok d).
Proof.
  intros Hscan. induction n as [|n IH]; intros s acc d rest; cbn [parse_object_items];
    [discriminate|].
  destruct s as [|q s1]; [discriminate|].
  destruct (q =? 34); [|discriminate].
  destruct (scanstring s1) as [[key s2]|] eqn:Hkey; [|discriminate].
  destruct (skip_ws s2) as [|c s3] eqn:Hws2; [discriminate|].
  destruct (c =? 58); [|discriminate].
  destruct (scan_value (skip_ws s3)) as [v s4| |] eqn:Hv; try discriminate.
  destruct (skip_ws s4) as [|c' s5] eqn:Hws4; [discriminate|].
  destruct (Hscan _ _ _ Hv) as [Hc Hok].
  assert (C1 : consumed (q :: s1) s2).
  { eapply consumed_trans; [apply consumed_cons|].
    apply scanstring_suffix in Hkey as (p & -> & Hp). exists p. auto. }
  assert (C2 : consumed (q :: s1) s3).
  { eapply consumed_trans; [apply consumed_skip_ws_r; exact C1|].
    rewrite Hws2. apply consumed_cons. }
  assert (C3 : consumed (q :: s1) s4).
  { eapply consumed_trans; [exact C2|]. apply consumed_skip_ws_l. exact Hc. }
  assert (C4 : consumed (q :: s1) s5).
  { eapply consumed_trans; [apply consumed_skip_ws_r; exact C3|].
    rewrite Hws4. apply consumed_cons. }
  assert (Hset : scalar_text (q :: s1) -> dict_ok acc -> dict_ok (dict_set acc key v)).
  { intros Hs Hacc. apply dict_set_ok; [exact Hacc| |].
    - apply Forall_cons in Hs as [_ Hs1].
      apply (scanstring_ok _ _ _ Hs1 Hkey).
    - apply Hok. apply skip_ws_scalar. eapply consumed_scalar; eassumption. }
  destruct (c' =? 125).
  - intros [= <- <-]. split; [exact C4 | exact Hset].
  - destruct (c' =? 44); [|discriminate]. intros H.
    apply IH in H as [Hc5 Hok5]. split.
    + eapply consumed_trans; [exact C4|]. apply consumed_skip_ws_l. exact Hc5.
    + intros Hs Hacc. apply Hok5; [|apply Hset; assumption].
      apply skip_ws_scalar. eapply consumed_scalar; eassumption.
Qed.

Lemma scan_number_sound : sound_scanner scan_number.
Proof.
  intros s v r. unfold scan_number.
  destruct (match_number s) as [[[lit b] t]|] eqn:Hm; [|discriminate].
  apply match_number_split in Hm as (-> & _ & Hne).
  destruct b; intros [= <- <-]; (split; [exists lit; auto | intros _; constructor]).
Qed.

(** The scanner consumes what it reads and, on text without surrogates,
    builds well-formed values. *)
Lemma scan_once_sound fuel : sound_scanner (scan_once fuel).
Proof.
  induction fuel as [|fuel IH]; intros s v r; cbn [scan_once]; [discriminate|].
  destruct s as [|c s1]; [discriminate|].
  destruct (c =? 34).
  { destruct (scanstring s1) as [[x rest]|] eqn:Hx; [|discriminate].
    intros [= <- <-]. split.
    - eapply consumed_trans; [apply consumed_cons|].
      apply scanstring_suffix in Hx as (p & -> & Hp). exists p. auto.
    - intros [_ Hs]%Forall_cons. constructor. apply (scanstring_ok _ _ _ Hs Hx). }
  destruct (c =? 123).
  { unfold parse_object.
    destruct (skip_ws s1) as [|c1 s2] eqn:Hws; [discriminate|].
    assert (C : consumed (c :: s1) (c1 :: s2)).
    { rewrite <- Hws. apply consumed_skip_ws_r, consumed_cons. }
    destruct (c1 =? 125).
    - intros [= <- <-]. split.
      + eapply consumed_trans; [exact C | apply consumed_cons].
      + intros _. constructor; constructor.
    - destruct (parse_object_items (scan_once fuel) fuel (c1 :: s2) [])
        as [d rest| |] eqn:Hd; try discriminate.
      intros [= <- <-].
      apply (parse_object_items_sound _ _ IH) in Hd as [Hc Hok]. split.
      + destruct C as (p & Hp & Hne), Hc as (p' & Hp' & Hne').
        exists (p ++ p'). split; [rewrite <- app_assoc, <- Hp'; exact Hp|].
        destruct p; [congruence | discriminate].
      + intros Hs. assert (Hd' : dict_ok d).
        { apply Hok; [|split; constructor].
          eapply consumed_scalar; [exact C | exact Hs]. }
        destruct Hd' as [Hnd Hall]. constructor; assumption. }
  destruct (c =? 91).
  { unfold parse_array.
    destruct (skip_ws s1) as [|c1 s2] eqn:Hws; [discriminate|].
    assert (C : consumed (c :: s1) (c1 :: s2)).
    { rewrite <- Hws. apply consumed_skip_ws_r, consumed_cons. }
    destruct (c1 =? 93).
    - intros [= <- <-]. split.
      + eapply consumed_trans; [exact C | apply consumed_cons].
      + intros _. constructor. constructor.
    - destruct (parse_array_items (scan_once fuel) fuel (c1 :: s2) [])
        as [l rest| |] eqn:Hl; try discriminate.
      intros [= <- <-].
      apply (parse_array_items_sound _ _ IH) in Hl as [Hc Hok]. split.
      + destruct C as (p & Hp & Hne), Hc as (p' & Hp' & Hne').
        exists (p ++ p'). split; [rewrite <- app_assoc, <- Hp'; exact Hp|].
        destruct p; [congruence | discriminate].
      + intros Hs. constructor. apply Hok; [|constructor].
        eapply consumed_scalar; [exact C | exact Hs]. }
  repeat match goal with
         | |- context [keyword ?k ?t ?s] =>
           let H := fresh "Hk" in
           destruct (keyword k t s) eqn:H;
           [intros [= <- <-]; split; [eapply keyword_consumed; exact H | intros _; constructor]|]
         end.
  apply scan_number_sound.
Qed.

End DecoderFacts.

(** ** The fuel of [json.loads] is enough *)

Section Fuel.
Context {PF : PyFloat}.

Lemma skip_ws_length s : (length (skip_ws s) <= length s)%nat.
Proof.
  destruct (skip_ws_suffix s) as [p Hp]. rewrite Hp at 2. rewrite length_app. lia.
Qed.

Lemma parse_array_items_fed scan_value f :
  sound_scanner scan_value ->
  (forall s, (length s < f)%nat -> scan_value s <> Starved) ->
  forall n s acc, (length s < n)%nat -> (n <= f)%nat ->
  parse_array_items scan_value n s acc <> Starved.
Proof.
  intros Hsound Hfed. induction n as [|n IH]; intros s acc Hs Hn; [lia|].
  cbn [parse_array_items].
  destruct (scan_value s) as [v s1| |] eqn:Hv; [|discriminate|].
  2:{ exfalso. apply (Hfed s); [lia | exact Hv]. }
  apply Hsound in Hv as [Hc%consumed_length _].
  pose proof (skip_ws_length s1) as Hws.
  destruct (skip_ws s1) as [|c s2]; [discriminate|]. cbn [length] in Hws.
  destruct (c =? 93); [discriminate|]. destruct (c =? 44); [|discriminate].
  apply IH; [|lia]. pose proof (skip_ws_length s2). lia.
Qed.

Lemma parse_object_items_fed scan_value f :
  sound_scanner scan_value ->
  (forall s, (length s < f)%nat -> scan_value s <> Starved) ->
  forall n s acc, (length s < n)%nat -> (n <= f)%nat ->
  parse_object_items scan_value n s acc <> Starved.
Proof.
  intros Hsound Hfed. induction n as [|n IH]; intros s acc Hs Hn; [lia|].
  cbn [parse_object_items].
  destruct s as [|q s1]; [discriminate|]. cbn [length] in Hs.
  destruct (q =? 34); [|discriminate].
  destruct (scanstring s1) as [[key s2]|] eqn:Hkey; [|discriminate].
  apply scanstring_suffix in Hkey as (p & -> & Hp).
  rewrite length_app in Hs.
  pose proof (skip_ws_length s2) as Hws2.
  destruct (skip_ws s2) as [|c s3]; [discriminate|]. cbn [length] in Hws2.
  destruct (c =? 58); [|discriminate].
  pose proof (skip_ws_length s3) as Hws3.
  destruct (scan_value (skip_ws s3)) as [v s4| |] eqn:Hv; [|discriminate|].
  2:{ exfalso. apply (Hfed (skip_ws s3)); [lia | exact Hv]. }
  apply Hsound in Hv as [Hc%consumed_length _].
  pose proof (skip_ws_length s4) as Hws4.
  destruct (skip_ws s4) as [|c' s5]; [discriminate|]. cbn [length] in Hws4.
  destruct (c' =? 125); [discriminate|]. destruct (c' =? 44); [|discriminate].
  apply IH; [|lia]. pose proof (skip_ws_length s5). lia.
Qed.

(** With more fuel than characters the scanner never runs dry: a text is
    rejected only for what it holds. *)
Lemma scan_once_fed fuel :
  forall s, (length s < fuel)%nat -> scan_once fuel s <> Starved.
Proof.
  induction fuel as [|fuel IH]; intros s Hs; [lia|]. cbn [scan_once].
  destruct s as [|c s1]; [discriminate|]. cbn [length] in Hs.
  destruct (c =? 34); [destruct (scanstring s1) as [[? ?]|]; discriminate|].
  destruct (c =? 123).
  { unfold parse_object. pose proof (skip_ws_length s1) as Hws.
    destruct (skip_ws s1) as [|c1 s2]; [discriminate|].
    destruct (c1 =? 125); [discriminate|].
    pose proof (parse_object_items_fed (scan_once fuel) fuel
                  (scan_once_sound fuel) IH fuel (c1 :: s2) []) as H.
    destruct (parse_object_items _ _ _ _); try discriminate.
    exfalso. apply H; [lia | lia | reflexivity]. }
  destruct (c =? 91).
  { unfold parse_array. pose proof (skip_ws_length s1) as Hws.
    destruct (skip_ws s1) as [|c1 s2]; [discriminate|].
    destruct (c1 =? 93); [discriminate|].
    pose proof (parse_array_items_fed (scan_once fuel) fuel
                  (scan_once_sound fuel) IH fuel (c1 :: s2) []) as H.
    destruct (parse_array_items _ _ _ _); try discriminate.
    exfalso. apply H; [lia | lia | reflexivity]. }
  repeat match goal with
         | |- context [keyword ?k ?t ?s] => destruct (keyword k t s); [discriminate|]
         end.
  unfold scan_number. destruct (match_number _) as [[[? []] ?]|]; discriminate.
Qed.

(** [json.loads] never fails for lack of fuel. *)
Lemma json_loads_fed s : scan_once (S (length s)) (skip_ws s) <> Starved.
Proof. apply scan_once_fed. pose proof (skip_ws_length s). lia. Qed.

(** A value decoded from text without surrogates is well formed. *)
Lemma json_loads_ok s v : scalar_text s -> json_loads s = Some v -> json_ok v.
Proof.
  unfold json_loads. intros Hs. destruct s as [|c s1]; [discriminate|].
  destruct (c =? 65279); [discriminate|].
  destruct (scan_once _ _) as [v' rest| |] eqn:Hv; try discriminate.
  destruct (skip_ws rest); [|discriminate]. intros [= <-].
  apply scan_once_sound in Hv as [_ Hok]. apply Hok, skip_ws_scalar, Hs.
Qed.

End Fuel.

(** ** The encoder writes ASCII *)

Lemma hexdigit_ascii n : n < 16 -> hexdigit n < 128.
Proof. unfold hexdigit. destruct (n <? 10); lia. Qed.

Lemma u_escape_ascii n : ascii_text (u_escape n).
Proof.
  unfold u_escape. rewrite !land_0x0F.
  repeat (constructor; [first [lia | apply hexdigit_ascii, N.mod_upper_bound; discriminate]|]).
  constructor.
Qed.

Lemma simple_escape_dom e c : simple_escape e = Some c -> e < 128.
Proof.
  unfold simple_escape.
  repeat match goal with
         | |- context [e =? ?k] =>
           destruct (N.eqb_spec e k) as [->|_]; [intros _; lia|]
         end.
  discriminate.
Qed.

Lemma escape_char_ascii c : ascii_text (escape_char c).
Proof.
  destruct (escape_char_cases c) as
    [(e & -> & _ & He) | [(-> & Hq & Hb & Hc) | [(_ & ->) | (_ & ->)]]].
  - constructor; [lia|]. constructor; [|constructor].
    eapply simple_escape_dom. exact He.
  - constructor; [lia | constructor].
  - apply u_escape_ascii.
  - apply Forall_app; split; apply u_escape_ascii.
Qed.

Lemma encode_basestring_ascii_ascii s : ascii_text (encode_basestring_ascii s).
Proof.
  unfold encode_basestring_ascii. constructor; [lia|].
  apply Forall_app. split; [|constructor; [lia | constructor]].
  induction s as [|c s IH]; [constructor|]. cbn [List.map List.concat].
  apply Forall_app. split; [apply escape_char_ascii | exact IH].
Qed.

Lemma indent_str_ascii n : ascii_text (indent_str n).
Proof.
  unfold indent_str. induction (2 * n)%nat; cbn; constructor; [lia | assumption].
Qed.

Lemma more_items_ascii {A} sep (item : A -> pystr) l :
  ascii_text sep -> Forall (fun x => ascii_text (item x)) l ->
  ascii_text (more_items sep item l).
Proof.
  intros Hsep Hl. induction Hl as [|x l Hx _ IH]; cbn [more_items]; [constructor|].
  apply Forall_app. split; [exact Hsep|]. apply Forall_app. split; assumption.
Qed.

Section EncoderAscii.
Context {PF : PyFloat}.

Lemma floatstr_ascii f : ascii_text (floatstr f).
Proof.
  unfold floatstr. destruct (float_classify f) eqn:Hf;
    try (cbn; repeat (constructor; [lia|]); constructor).
  apply (float_literal_scan _ [] (repr_literal f Hf) eq_refl).
Qed.

(** Every character of a printed value is ASCII. *)
Lemma pretty_ascii v : forall lvl, ascii_text (pretty v lvl).
Proof.
  induction v as [ |b|z|f|s|l IH|d IH] using json_nested_ind; intros lvl.
  - cbn; repeat (constructor; [lia|]); constructor.
  - destruct b; cbn; repeat (constructor; [lia|]); constructor.
  - apply int_repr_ascii.
  - apply floatstr_ascii.
  - apply encode_basestring_ascii_ascii.
  - destruct l as [|x l]; [cbn; repeat (constructor; [lia|]); constructor|].
    apply Forall_cons in IH as [Hx Hl]. cbn [pretty].
    constructor; [lia|]. constructor; [lia|].
    repeat (apply Forall_app; split);
      try apply indent_str_ascii; try apply Hx.
    + apply more_items_ascii.
      * constructor; [lia|]. constructor; [lia|]. apply indent_str_ascii.
      * eapply Forall_impl; [exact Hl|]. intros y Hy. apply Hy.
    + constructor; [lia|]. apply Forall_app. split; [apply indent_str_ascii|].
      constructor; [lia | constructor].
  - destruct d as [|[k x] d]; [cbn; repeat (constructor; [lia|]); constructor|].
    apply Forall_cons in IH as [Hx Hd]. cbn [pretty fst snd] in *.
    constructor; [lia|]. constructor; [lia|].
    repeat (apply Forall_app; split);
      try apply indent_str_ascii; try apply encode_basestring_ascii_ascii.
    + constructor; [lia|]. constructor; [lia|]. apply Hx.
    + apply more_items_ascii.
      * constructor; [lia|]. constructor; [lia|]. apply indent_str_ascii.
      * eapply Forall_impl; [exact Hd|]. intros [k' y] Hy. cbn [fst snd] in *.
        apply Forall_app. split; [apply encode_basestring_ascii_ascii|].
        constructor; [lia|]. constructor; [lia|]. apply Hy.
    + constructor; [lia|]. apply Forall_app. split; [apply indent_str_ascii|].
      constructor; [lia | constructor].
Qed.

(** Fuel for a value is no more than the length of its text. *)
Lemma more_items_length {A} sep (item : A -> pystr) (w : A -> nat) l :
  sep <> [] -> Forall (fun x => (w x <= length (item x))%nat) l ->
  (length l <= length (more_items sep item l))%nat
  /\ (list_max (List.map w l) <= length (more_items sep item l))%nat.
Proof.
  intros Hsep Hl. induction Hl as [|x l Hx _ [IH1 IH2]]; cbn [more_items List.map list_max fold_right length];
    [split; lia|].
  rewrite !length_app. destruct sep; [congruence|]. cbn [length].
  unfold list_max in *. split; lia.
Qed.

Lemma pretty_length_pos v lvl : (1 <= length (pretty v lvl))%nat.
Proof. destruct (pretty_head v lvl) as (c & t & -> & _). cbn. lia. Qed.

Lemma fuel_for_length v : forall lvl, (fuel_for v <= length (pretty v lvl))%nat.
Proof.
  induction v as [ |b|z|f|s|l IH|d IH] using json_nested_ind; intros lvl;
    try (cbn [fuel_for]; apply pretty_length_pos).
  - destruct l as [|x l]; [cbn; lia|].
    apply Forall_cons in IH as [Hx Hl]. cbn [pretty fuel_for List.map list_max fold_right length].
    rewrite !length_app. cbn [length]. rewrite !length_app.
    specialize (Hx (S lvl)).
    destruct (more_items_length (COMMA :: NEWLINE :: indent_str (S lvl))
                (fun v => pretty v (S lvl)) fuel_for l) as [H1 H2];
      [discriminate | eapply Forall_impl; [exact Hl|]; intros y Hy; apply Hy |].
    unfold list_max in *. lia.
  - destruct d as [|[k x] d]; [cbn; lia|].
    apply Forall_cons in IH as [Hx Hd]. cbn [fst snd] in Hx.
    cbn [pretty fuel_for List.map list_max fold_right length fst snd].
    rewrite !length_app. cbn [length]. rewrite !length_app. cbn [length].
    specialize (Hx (S lvl)).
    destruct (more_items_length (COMMA :: NEWLINE :: indent_str (S lvl))
                (fun kv => encode_basestring_ascii (fst kv)
                           ++ COLON :: SPACE :: pretty (snd kv) (S lvl))
                (fun kv => fuel_for (snd kv)) d) as [H1 H2];
      [discriminate | | unfold list_max in *; lia].
    eapply Forall_impl; [exact Hd|]. intros [k' y] Hy. cbn [fst snd] in *.
    rewrite length_app. cbn [length]. specialize (Hy (S lvl)). lia.
Qed.

(** Decoding the text of a well-formed value gives the value back. *)
Lemma json_loads_pretty v : json_ok v -> json_loads (pretty v 0) = Some v.
Proof.
  intros Hok. unfold json_loads.
  pose proof (pretty_ascii v 0) as Hascii.
  pose proof (scan_pretty v Hok 0 (S (length (pretty v 0))) [] ) as Hscan.
  rewrite app_nil_r in Hscan.
  pose proof (fuel_for_length v 0) as Hfuel.
  destruct (pretty_head v 0) as (c & t & Hp & Hc & _).
  rewrite Hp in *. apply Forall_cons in Hascii as [Hc128 _].
  destruct (N.eqb_spec c 65279); [lia|].
  rewrite (skip_ws_head _ _ Hc), Hscan by (cbn in *; lia || reflexivity).
  reflexivity.
Qed.

Lemma json_loads_dumps v : json_ok v -> json_loads (json_dumps v) = Some v.
Proof. rewrite json_dumps_pretty. apply json_loads_pretty. Qed.

End EncoderAscii.

(** ** The handler, case by case *)

Section Handler.
Context {PF : PyFloat}.
Variable env : Env.

Lemma json_dump_empty o : json_dump o [] = json_dumps o.
Proof. unfold json_dump, json_dumps. apply fold_write. Qed.

(** What [callback] does, for every message and every state. *)
Lemma callback_cases k tag body st :
  callback env k tag body st =
  match Utf8.decode body with
  | None => nacked env tag (rejected UnicodeDecodeError tag st)
  | Some text =>
    match json_loads text with
    | None => nacked env tag (rejected JSONDecodeError tag st)
    | Some v =>
      let path := filepath_of env st k in
      match open_fault env path with
      | Some e => nacked env tag (rejected e tag (ticked st))
      | None =>
        match write_fault env path (json_dumps v) with
        | Some (e, n) =>
          nacked env tag
            (rejected e tag (stored path (take n (json_dumps v)) (ticked st)))
        | None =>
          acked env tag
            (acknowledged (filename_of (clock env (clock_reads (snd st))) k) tag
               (stored path (json_dumps v) (ticked st)))
        end
      end
    end
  end.
Proof.
  unfold callback, try_except, acked, nacked, request, send, print, set_world,
    mbind, M_bind, mret, M_ret, raise.
  destruct (Utf8.decode body) as [text|];
    [|cbn [fst snd]; destruct (broker_fault env (BasicNack tag false)); reflexivity].
  destruct (json_loads text) as [v|];
    [|cbn [fst snd]; destruct (broker_fault env (BasicNack tag false)); reflexivity].
  unfold datetime_now, get_self, dump_to_file, filepath_of. cbn [fst snd].
  cbn [clock_reads with_clock_reads files].
  destruct (open_fault env _) as [e|];
    [cbn [fst snd]; destruct (broker_fault env (BasicNack tag false)); reflexivity|].
  rewrite json_dump_empty.
  destruct (write_fault env _ _) as [[e n]|];
    [cbn [fst snd]; destruct (broker_fault env (BasicNack tag false)); reflexivity|].
  cbn [fst snd].
  destruct (broker_fault env (BasicAck tag)) as [e|]; [|reflexivity].
  cbn [fst snd]. destruct (broker_fault env (BasicNack tag false)); reflexivity.
Qed.

(** The handler returns when the broker accepts its confirmation. *)
Lemma callback_returns k tag body st :
  broker_fault env (BasicAck tag) = None ->
  broker_fault env (BasicNack tag false) = None ->
  exists st', callback env k tag body st = Return tt st'.
Proof.
  intros Ha Hn. rewrite callback_cases. unfold acked, nacked. rewrite Ha, Hn.
  destruct (Utf8.decode body) as [text|]; [|eauto].
  destruct (json_loads text) as [v|]; [|eauto]. cbv zeta.
  destruct (open_fault env _) as [e|]; [eauto|].
  destruct (write_fault env _ _) as [[e n]|]; eauto.
Qed.

Lemma dispatch_deliver k tag body later st st' :
  callback env k tag body st = Return tt st' ->
  dispatch env (Deliver k tag body :: later) st = dispatch env later st'.
Proof.
  intros H. cbn [dispatch]. unfold mbind, M_bind. rewrite H. reflexivity.
Qed.

Lemma dispatch_raises k tag body later st e st' :
  callback env k tag body st = Raise e st' ->
  dispatch env (Deliver k tag body :: later) st = Raise e st'.
Proof.
  intros H. cbn [dispatch]. unfold mbind, M_bind. rewrite H. reflexivity.
Qed.

(** The state the handler leaves, however the confirmation ends. *)
Lemma nacked_final tag st : final_state (nacked env tag st) = st.
Proof. unfold nacked. destruct (broker_fault env _); reflexivity. Qed.

Lemma acked_final tag st :
  final_state (acked env tag st)
  = match broker_fault env (BasicAck tag) with
    | None => st
    | Some e => rejected e tag st
    end.
Proof.
  unfold acked. destruct (broker_fault env (BasicAck tag));
    [apply nacked_final | reflexivity].
Qed.

Lemma acked_files tag st :
  files (snd (final_state (acked env tag st))) = files (snd st).
Proof. rewrite acked_final. destruct (broker_fault env _); reflexivity. Qed.

(** The files the handler leaves, however it ends. *)
Lemma callback_files_of k tag body st :
  files (snd (final_state (callback env k tag body st)))
  = files (snd match Utf8.decode body with
               | None => st
               | Some text =>
                 match json_loads text with
                 | None => st
                 | Some v =>
                   let path := filepath_of env st k in
                   match open_fault env path with
                   | Some _ => st
                   | None =>
                     match write_fault env path (json_dumps v) with
                     | Some (_, n) =>
                       stored path (take n (json_dumps v)) (ticked st)
                     | None => stored path (json_dumps v) (ticked st)
                     end
                   end
                 end
               end).
Proof.
  rewrite callback_cases.
  destruct (Utf8.decode body) as [text|]; [|rewrite nacked_final; reflexivity].
  destruct (json_loads text) as [v|]; [|rewrite nacked_final; reflexivity].
  cbv zeta. destruct (open_fault env _); [rewrite nacked_final; reflexivity|].
  destruct (write_fault env _ _) as [[e n]|];
    [rewrite nacked_final | rewrite acked_files]; reflexivity.
Qed.

End Handler.

(** ** File names *)

Lemma decimal_digits n : digits (decimal n).
Proof. apply digits_of_uint_digits. Qed.

Lemma last_digits_length w n : length (last_digits w n) = w.
Proof.
  revert n. induction w as [|w IH]; intros n; cbn [last_digits]; [reflexivity|].
  rewrite length_app, IH. cbn. lia.
Qed.

Lemma last_digits_digits w n : digits (last_digits w n).
Proof.
  revert n. induction w as [|w IH]; intros n; cbn [last_digits]; [constructor|].
  apply Forall_app. split; [apply IH|]. constructor; [|constructor].
  unfold is_digit. apply andb_true_intro. split; apply N.leb_le; nlia.
Qed.

Lemma zero_pad_digits w n : digits (zero_pad w n).
Proof.
  unfold zero_pad. destruct (n <? _); [apply last_digits_digits | apply decimal_digits].
Qed.

Lemma zero_pad_length w n : n < 10 ^ N.of_nat w -> length (zero_pad w n) = w.
Proof.
  intros H. unfold zero_pad. apply N.ltb_lt in H. rewrite H. apply last_digits_length.
Qed.

(** Digits, then a character that is not a digit. *)
Lemma span_digits_stop d c r :
  digits d -> is_digit c = false -> span_digits (d ++ c :: r) = (d, c :: r).
Proof.
  intros Hd Hc. induction Hd as [|x d Hx _ IH]; cbn [span_digits app].
  - rewrite Hc. reflexivity.
  - rewrite Hx, IH. reflexivity.
Qed.

Lemma datetime_ok_fields t :
  datetime_ok t = true ->
  month t < 100 /\ day t < 100 /\ hour t < 100 /\ minute t < 100
  /\ second t < 100 /\ microsecond t < 1000000.
Proof.
  unfold datetime_ok. rewrite !Bool.andb_true_iff, !N.leb_le. lia.
Qed.

(** A time stamp: digits for the date, six for the time, six for the
    microseconds, with underscores between. *)
Lemma strftime_shape t :
  datetime_ok t = true ->
  exists date time micro,
    strftime t = date ++ UNDERSCORE :: time ++ UNDERSCORE :: micro
    /\ digits date /\ date <> []
    /\ length time = 6%nat /\ length micro = 6%nat.
Proof.
  intros (Hm & Hd & Hh & Hmi & Hs & Hus)%datetime_ok_fields.
  exists (decimal (year t) ++ zero_pad 2 (month t) ++ zero_pad 2 (day t)),
         (zero_pad 2 (hour t) ++ zero_pad 2 (minute t) ++ zero_pad 2 (second t)),
         (zero_pad 6 (microsecond t)).
  split; [unfold strftime; rewrite <- !app_assoc; reflexivity|].
  split; [repeat (apply Forall_app; split);
          first [apply decimal_digits | apply zero_pad_digits]|].
  split.
  { intros H. apply (f_equal length) in H. rewrite !length_app in H.
    rewrite (zero_pad_length 2 (month t)) in H by exact Hm. cbn in H. lia. }
  split; [rewrite !length_app, !zero_pad_length by assumption; reflexivity|].
  apply zero_pad_length. exact Hus.
Qed.

(** File names determine routing keys, whatever the two time stamps. *)
Lemma filename_of_inj t1 t2 k1 k2 :
  datetime_ok t1 = true -> datetime_ok t2 = true ->
  filename_of t1 k1 = filename_of t2 k2 -> k1 = k2.
Proof.
  intros (d1 & h1 & u1 & E1 & Hd1 & _ & Hh1 & Hu1)%strftime_shape
         (d2 & h2 & u2 & E2 & Hd2 & _ & Hh2 & Hu2)%strftime_shape.
  unfold filename_of. rewrite E1, E2. rewrite <- !app_assoc. cbn [app].
  rewrite <- !app_assoc. cbn [app]. intros H.
  apply (f_equal span_digits) in H.
  rewrite !span_digits_stop in H by (assumption || reflexivity).
  injection H as _ H.
  apply app_inj_1 in H as [_ H]; [|congruence].
  injection H as H.
  apply app_inj_1 in H as [_ H]; [|congruence].
  injection H as H.
  apply app_inv_tail in H. exact H.
Qed.

Lemma filename_of_head t k :
  datetime_ok t = true ->
  exists c s, filename_of t k = c :: s /\ is_digit c = true.
Proof.
  intros (d & h & u & E & Hd & Hne & _)%strftime_shape.
  unfold filename_of. rewrite E. destruct d as [|c d]; [congruence|].
  apply Forall_cons in Hd as [Hc _]. exists c. eexists. split; [reflexivity | exact Hc].
Qed.

(** The path of a file whose name starts with a digit: the folder, a
    slash unless the folder is empty or ends with one, and the name. *)
Lemma os_path_join_relative a c s :
  is_digit c = true ->
  os_path_join a (c :: s)
  = a ++ (if List.last a SLASH =? SLASH then [] else [SLASH]) ++ c :: s.
Proof.
  intros Hc. unfold os_path_join.
  destruct (N.eqb_spec c 47) as [->|_]; [discriminate|].
  destruct (List.last a 47 =? 47); reflexivity.
Qed.

Lemma filepath_inj folder t1 t2 k1 k2 :
  datetime_ok t1 = true -> datetime_ok t2 = true ->
  os_path_join folder (filename_of t1 k1) = os_path_join folder (filename_of t2 k2) ->
  k1 = k2.
Proof.
  intros H1 H2 H. apply (filename_of_inj t1 t2); try assumption.
  destruct (filename_of_head t1 k1 H1) as (c1 & s1 & E1 & Hc1).
  destruct (filename_of_head t2 k2 H2) as (c2 & s2 & E2 & Hc2).
  rewrite E1, E2 in *. rewrite !os_path_join_relative in H by assumption.
  apply app_inv_head in H. apply app_inv_head in H. exact H.
Qed.

Lemma all_from_spec count : forall n p,
  all_from count n p = true ->
  forall m, n <= m < n + N.of_nat count -> p m = true.
Proof.
  induction count as [|count IH]; intros n p H m Hm; [lia|].
  cbn [all_from] in H. destruct (p n) eqn:Hp; [|discriminate].
  destruct (N.eq_dec m n) as [->|Hne]; [exact Hp|].
  apply (IH (N.succ n) p H). lia.
Qed.

Lemma pystr_eqb_eq a b : pystr_eqb a b = true -> a = b.
Proof.
  revert b. induction a as [|x a IH]; intros [|y b]; cbn; try discriminate; [reflexivity|].
  intros [->%N.eqb_eq ->%IH]%andb_prop. reflexivity.
Qed.

(** A year of four digits is printed with its four digits. *)
Lemma decimal_four_digits y :
  1000 <= y <= 9999 -> decimal y = last_digits 4 y.
Proof.
  intros Hy. apply pystr_eqb_eq.
  apply (all_from_spec (N.to_nat 9000) 1000
           (fun n => pystr_eqb (decimal n) (last_digits 4 n)));
    [vm_compute; reflexivity | rewrite N2Nat.id; lia].
Qed.

(** The time stamp of a date with a four-digit year: 22 characters,
    YYYYMMDD_HHMMSS_ffffff. *)
Lemma strftime_fixed t :
  datetime_ok t = true -> 1000 <= year t ->
  strftime t
  = last_digits 4 (year t) ++ last_digits 2 (month t) ++ last_digits 2 (day t)
    ++ UNDERSCORE :: last_digits 2 (hour t) ++ last_digits 2 (minute t)
    ++ last_digits 2 (second t)
    ++ UNDERSCORE :: last_digits 6 (microsecond t).
Proof.
  intros Hok Hy. pose proof Hok as (Hm & Hd & Hh & Hmi & Hs & Hus)%datetime_ok_fields.
  unfold strftime. rewrite decimal_four_digits.
  - unfold zero_pad.
    repeat match goal with
           | |- context [?n <? 10 ^ ?w] =>
             destruct (N.ltb_spec n (10 ^ w)) as [_|Hge]; [|cbn in Hge; lia]
           end.
    reflexivity.
  - unfold datetime_ok in Hok. rewrite !Bool.andb_true_iff, !N.leb_le in Hok. lia.
Qed.

(** ** Connecting *)

Lemma same_setup_refl st : same_setup st st.
Proof. repeat split. Qed.

Lemma same_setup_trans a b c : same_setup a b -> same_setup b c -> same_setup a c.
Proof. unfold same_setup. intros H1 H2. intuition congruence. Qed.

Lemma attempts_logged_app l1 l2 :
  attempts_logged (l1 ++ l2) = (attempts_logged l1 + attempts_logged l2)%nat.
Proof. unfold attempts_logged. rewrite List.filter_app, length_app. reflexivity. Qed.

Section Connect.
Context {PF : PyFloat}.
Variable env : Env.

(** One attempt: it succeeds or fails as [attempt_error] tells, shows one
    attempt in the output, and dials once unless the URL is refused. *)
Lemma dial_spec st :
  match attempt_error env (url_of st) (dials (snd st)) with
  | None =>
    exists st', dial env st = Return tt st'
      /\ same_setup st st'
      /\ dials (snd st') = S (dials (snd st))
      /\ slept (snd st') = slept (snd st)
      /\ attempts_logged (stdout (snd st')) = S (attempts_logged (stdout (snd st)))
      /\ connection (fst st') = Some (dials (snd st))
      /\ channel (fst st') = Some (dials (snd st))
  | Some e =>
    exists st', dial env st = Raise e st'
      /\ same_setup st st'
      /\ dials (snd st')
         = match url_fault env (url_of st) with
           | Some _ => dials (snd st)
           | None => S (dials (snd st))
           end
      /\ slept (snd st') = slept (snd st)
      /\ attempts_logged (stdout (snd st')) = S (attempts_logged (stdout (snd st)))
  end.
Proof.
  destruct st as [self w]. unfold attempt_error, url_of. cbn [fst snd].
  assert (Hlog : forall l x,
            attempts_logged (l ++ [x])
            = (attempts_logged l
               + match x with AttemptingConnection _ => 1 | _ => 0 end)%nat).
  { intros l x. rewrite attempts_logged_app. destruct x; reflexivity. }
  destruct (url_fault env (rabbitmq_url self ++ vhost self)) as [e|] eqn:Hu;
    [|destruct (dial_fault env (dials w)) as [e|] eqn:Hd;
      [|destruct (channel_fault env (dials w)) as [e|] eqn:Hc]];
    (eexists; split;
     [unfold dial, print, mbind, M_bind, mret, M_ret, raise, get_self, get_world,
        set_self, set_world; cbn [fst snd]; rewrite Hu;
      cbn [fst snd dials with_stdout with_dials]; rewrite ?Hd;
      cbn [fst snd dials with_stdout with_dials]; rewrite ?Hc; reflexivity|]);
    repeat split;
    cbn [fst snd stdout slept dials with_stdout with_dials with_connection
           with_channel connection channel];
    rewrite ?Hlog; lia.
Qed.

Lemma seq_attempts a :
  (a < max_retries)%nat ->
  seq a (max_retries - a) = a :: seq (S a) (max_retries - S a).
Proof.
  intros Ha. replace (max_retries - a)%nat with (S (max_retries - S a)) by lia.
  reflexivity.
Qed.

(** What happens after a failed attempt that is not the last: two lines,
    a sleep, and the rest of the loop. *)
Lemma connect_loop_step a later st :
  connect_loop env (a :: later) st =
  match dial env st with
  | Return tt st' => Return tt st'
  | Raise e st' =>
    let st1 := (fst st', with_stdout (stdout (snd st')
                           ++ [ConnectionAttemptFailed (a + 1) e]) (snd st')) in
    if (a <? max_retries - 1)%nat then
      connect_loop env later
        (fst st1,
         with_slept (slept (snd st1) + retry_delay)
           (with_stdout (stdout (snd st1) ++ [RetryingIn retry_delay]) (snd st1)))
    else
      Raise e (fst st1, with_stdout (stdout (snd st1) ++ [MaxRetriesReached]) (snd st1))
  end.
Proof.
  cbn [connect_loop]. unfold try_except.
  destruct (dial env st) as [[] st'|e st']; [reflexivity|].
  unfold mbind, M_bind, print, set_world, time_sleep, raise. cbn [fst snd].
  destruct (a <? max_retries - 1)%nat; reflexivity.
Qed.

(** A transport that fails [n] times and then succeeds: [n + 1] attempts,
    [n] sleeps of five seconds, and the processor is connected. *)
Lemma connect_loop_retries n : forall a st,
  (a + n < max_retries)%nat ->
  (forall i, (i < n)%nat ->
     attempt_error env (url_of st) (dials (snd st) + i) <> None) ->
  attempt_error env (url_of st) (dials (snd st) + n) = None ->
  exists st', connect_loop env (seq a (max_retries - a)) st = Return tt st'
    /\ same_setup st st'
    /\ dials (snd st') = (dials (snd st) + n + 1)%nat
    /\ slept (snd st') = slept (snd st) + retry_delay * N.of_nat n
    /\ attempts_logged (stdout (snd st'))
       = (attempts_logged (stdout (snd st)) + n + 1)%nat
    /\ connection (fst st') = Some (dials (snd st) + n)%nat
    /\ channel (fst st') = Some (dials (snd st) + n)%nat.
Proof.
  induction n as [|n IH]; intros a st Ha Hfail Hok.
  - rewrite seq_attempts by lia. rewrite connect_loop_step.
    pose proof (dial_spec st) as Hd. rewrite Nat.add_0_r in Hok. rewrite Hok in Hd.
    destruct Hd as (st' & -> & Hs & Hdials & Hslept & Hlog & Hconn & Hchan).
    exists st'. rewrite !Nat.add_0_r. repeat split; try apply Hs; try lia; try assumption.
  - rewrite seq_attempts by lia. rewrite connect_loop_step.
    pose proof (dial_spec st) as Hd.
    pose proof (Hfail 0%nat ltac:(lia)) as H0. rewrite Nat.add_0_r in H0.
    destruct (attempt_error env (url_of st) (dials (snd st))) as [e|] eqn:He; [|congruence].
    destruct Hd as (st' & -> & Hs & Hdials & Hslept & Hlog).
    assert (Hurl : url_fault env (url_of st) = None).
    { unfold attempt_error in Hok. destruct (url_fault env (url_of st)); [discriminate | reflexivity]. }
    rewrite Hurl in Hdials.
    destruct (Nat.ltb_spec a (max_retries - 1)) as [_|Hge]; [|lia].
    cbv zeta. cbn [fst snd].
    set (st2 := (fst st', _)).
    assert (Hu2 : url_of st2 = url_of st).
    { unfold url_of, st2. cbn [fst]. destruct Hs as (-> & -> & _). reflexivity. }
    assert (Hd2 : dials (snd st2) = S (dials (snd st))) by (cbn; exact Hdials).
    destruct (IH (S a) st2) as (st3 & Hrun & Hs3 & Hdials3 & Hslept3 & Hlog3 & Hconn3 & Hchan3).
    + lia.
    + intros i Hi. rewrite Hu2, Hd2. replace (S (dials (snd st)) + i)%nat
        with (dials (snd st) + S i)%nat by lia. apply Hfail. lia.
    + rewrite Hu2, Hd2. replace (S (dials (snd st)) + n)%nat
        with (dials (snd st) + S n)%nat by lia. exact Hok.
    + exists st3. split; [exact Hrun|].
      assert (Hs2 : same_setup st st2).
      { unfold st2. unfold same_setup in *. cbn [fst snd]. cbn. exact Hs. }
      split; [eapply same_setup_trans; eassumption|].
      rewrite Hdials3, Hslept3, Hlog3, Hconn3, Hchan3, Hd2.
      unfold st2. cbn [fst snd slept stdout with_slept with_stdout].
      rewrite !attempts_logged_app, Hlog, Hslept. cbn [attempts_logged List.filter length].
      repeat split; try (f_equal; lia); lia.
Qed.

(** A transport that fails every time: the loop raises the error of the
    fifth attempt after five attempts and four sleeps. *)
Lemma connect_loop_exhausted n : forall a st,
  (a + n = max_retries)%nat -> (0 < n)%nat ->
  (forall i, (i < n)%nat ->
     attempt_error env (url_of st) (dials (snd st) + i) <> None) ->
  exists e st', connect_loop env (seq a (max_retries - a)) st = Raise e st'
    /\ attempt_error env (url_of st) (dials (snd st) + (n - 1)) = Some e
    /\ same_setup st st'
    /\ slept (snd st') = slept (snd st) + retry_delay * N.of_nat (n - 1)
    /\ attempts_logged (stdout (snd st'))
       = (attempts_logged (stdout (snd st)) + n)%nat.
Proof.
  induction n as [|n IH]; intros a st Ha Hn Hfail; [lia|].
  rewrite seq_attempts by lia. rewrite connect_loop_step.
  pose proof (dial_spec st) as Hd.
  pose proof (Hfail 0%nat ltac:(lia)) as H0. rewrite Nat.add_0_r in H0.
  destruct (attempt_error env (url_of st) (dials (snd st))) as [e|] eqn:He; [|congruence].
  destruct Hd as (st' & -> & Hs & Hdials & Hslept & Hlog).
  destruct (Nat.ltb_spec a (max_retries - 1)) as [Hlt|Hge].
  - cbv zeta. cbn [fst snd]. set (st2 := (fst st', _)).
    assert (Hu2 : url_of st2 = url_of st).
    { unfold url_of, st2. cbn [fst]. destruct Hs as (-> & -> & _). reflexivity. }
    assert (Hs2 : same_setup st st2).
    { unfold st2. unfold same_setup in *. cbn [fst snd]. cbn. exact Hs. }
    assert (Hnext : forall i, (i < n)%nat ->
              attempt_error env (url_of st2) (dials (snd st2) + i) <> None
              /\ attempt_error env (url_of st2) (dials (snd st2) + i)
                 = attempt_error env (url_of st) (dials (snd st) + S i)).
    { intros i Hi. rewrite Hu2. unfold st2. cbn [snd dials with_slept with_stdout].
      rewrite Hdials. unfold attempt_error in *.
      destruct (url_fault env (url_of st)) as [e0|] eqn:Hurl.
      - split; [discriminate | reflexivity].
      - replace (S (dials (snd st)) + i)%nat with (dials (snd st) + S i)%nat by lia.
        split; [|reflexivity].
        exact (Hfail (S i) ltac:(lia)). }
    destruct (IH (S a) st2) as (e' & st3 & Hrun & Hlast & Hs3 & Hslept3 & Hlog3).
    + lia.
    + lia.
    + intros i Hi. apply Hnext. exact Hi.
    + exists e', st3. split; [exact Hrun|].
      split.
      { rewrite (proj2 (Hnext (n - 1)%nat ltac:(lia))) in Hlast.
        replace (S n - 1)%nat with (S (n - 1)) by lia. exact Hlast. }
      split; [eapply same_setup_trans; eassumption|].
      rewrite Hslept3, Hlog3.
      unfold st2. cbn [fst snd slept stdout with_slept with_stdout].
      rewrite !attempts_logged_app, Hlog, Hslept. cbn [attempts_logged List.filter length].
      unfold retry_delay. split; lia.
  - assert (n = 0)%nat as -> by (unfold max_retries in *; lia).
    cbv zeta. cbn [fst snd]. eexists e, _. split; [reflexivity|].
    split; [cbn [Nat.sub]; rewrite Nat.add_0_r; exact He|].
    split; [unfold same_setup in *; cbn [fst snd]; cbn; exact Hs|].
    cbn [snd slept stdout with_stdout]. rewrite !attempts_logged_app, Hlog, Hslept.
    cbn. split; lia.
Qed.

End Connect.

(** ** The script *)

Section Script.
Context {PF : PyFloat}.
Variable env : Env.

(** The constructor: it returns with the folder in place, or raises the
    error of [os.makedirs] after the configuration is printed. *)
Lemma init_spec st :
  init env st
  = match folder_error env with
    | None => Return tt (booted env st)
    | Some e => Raise e (halted env st)
    end.
Proof.
  destruct st as [self w].
  unfold init, booted, halted, folder_error, os_makedirs, print, mbind, M_bind,
    set_self, set_world, raise.
  cbn [fst snd].
  destruct (os_getenv env "OUTPUT_FOLDER" _) as [|c out].
  - f_equal. f_equal. unfold with_stdout. cbn. f_equal.
    rewrite <- !app_assoc. reflexivity.
  - destruct (makedirs_fault env (c :: out)); f_equal; f_equal;
      unfold with_stdout, with_dirs; cbn; f_equal;
      rewrite <- !app_assoc; reflexivity.
Qed.

(** The process exits with code 1 as soon as the constructor or
    [connect] raises. *)
Lemma main_init_raises events st e :
  folder_error env = Some e ->
  main env events st = (Exited 1, snd (halted env st)).
Proof.
  intros H. unfold main, mbind, M_bind. rewrite init_spec, H. reflexivity.
Qed.

Lemma main_connect_raises events st e st' :
  connect env (booted env st) = Raise e st' ->
  fst (main env events st) = Exited 1.
Proof.
  intros H. unfold main, mbind, M_bind. rewrite init_spec.
  destruct (folder_error env); [reflexivity|]. rewrite H. reflexivity.
Qed.

Lemma connect_loop_raises st e st' :
  connect_loop env (seq 0 max_retries) st = Raise e st' ->
  connect env st = Raise e st'.
Proof. intros H. unfold connect, mbind, M_bind. rewrite H. reflexivity. Qed.

(** When the loop ends normally the processor holds a channel. *)
Lemma connect_loop_connected n : forall a st st1,
  (a + n = max_retries)%nat -> (0 < n)%nat ->
  connect_loop env (seq a (max_retries - a)) st = Return tt st1 ->
  same_setup st st1 /\ exists c, channel (fst st1) = Some c.
Proof.
  induction n as [|n IH]; intros a st st1 Ha Hn; [lia|].
  rewrite seq_attempts by lia. rewrite connect_loop_step.
  pose proof (dial_spec env st) as Hd.
  destruct (attempt_error env (url_of st) (dials (snd st))) as [e|].
  - destruct Hd as (st' & -> & Hs & _).
    destruct (Nat.ltb_spec a (max_retries - 1)) as [Hlt|Hge]; [|discriminate].
    cbv zeta. cbn [fst snd]. intros H.
    apply (IH (S a)) in H as [Hs2 Hc]; [|lia|unfold max_retries in *; lia].
    split; [|exact Hc]. eapply same_setup_trans; [|exact Hs2].
    unfold same_setup in *. cbn [fst snd]. cbn. exact Hs.
  - destruct Hd as (st' & -> & Hs & _ & _ & _ & _ & Hc).
    intros [= <-]. split; [exact Hs | eauto].
Qed.

(** Declaring and binding: every request is sent once, in order, up to
    the first one refused, whose error is raised; nothing is printed
    before the binding succeeds, nothing is slept and nothing is dialled. *)
Lemma declare_and_bind_spec st c :
  channel (fst st) = Some c ->
  match first_refusal env (setup_frames env st) 0 with
  | Some (e, n) =>
    exists st', declare_and_bind env st = Raise e st'
      /\ sent (snd st') = sent (snd st) ++ take n (setup_frames env st)
      /\ stdout (snd st') = stdout (snd st)
      /\ slept (snd st') = slept (snd st)
      /\ dials (snd st') = dials (snd st)
      /\ files (snd st') = files (snd st)
  | None =>
    exists st', declare_and_bind env st = Return tt st'
      /\ sent (snd st') = sent (snd st) ++ setup_frames env st
      /\ stdout (snd st')
         = stdout (snd st) ++ [QueueBound (server_queue_name env) (exchange (fst st))]
      /\ queue_name (fst st') = Some (server_queue_name env)
      /\ channel (fst st') = Some c
      /\ output_folder (fst st') = output_folder (fst st)
      /\ files (snd st') = files (snd st)
  end.
Proof.
  destruct st as [self w]. cbn [fst snd]. intros Hc.
  unfold setup_frames. cbn [first_refusal fst].
  destruct (broker_fault env (ExchangeDeclare _ _ _)) as [e|] eqn:H1;
    [|destruct (broker_fault env (QueueDeclare _ _)) as [e|] eqn:H2;
      [|destruct (broker_fault env (QueueBind _ _ _)) as [e|] eqn:H3]];
    (eexists; split;
     [unfold declare_and_bind, request, send, print, attribute, mbind, M_bind,
        mret, M_ret, raise, get_self, set_self, set_world;
      cbn [fst snd channel with_queue_name exchange]; rewrite ?Hc;
      cbn [fst snd channel with_queue_name exchange]; rewrite ?H1;
      cbn [fst snd channel with_queue_name exchange]; rewrite ?Hc;
      cbn [fst snd channel with_queue_name exchange]; rewrite ?H2;
      cbn [fst snd channel with_queue_name exchange]; rewrite ?Hc;
      cbn [fst snd channel with_queue_name exchange]; rewrite ?H3;
      reflexivity|]);
    cbn [fst snd sent stdout slept dials files with_sent with_stdout
           with_queue_name queue_name channel output_folder take];
    rewrite <- ?app_assoc; repeat split; try reflexivity; assumption.
Qed.

End Script.

(** * The properties of the specification *)

Section HandlerProperties.
Context {PF : PyFloat}.
Variable env : Env.

(** A payload that decodes gives a well-formed value, which the decoder
    reads back from the text the encoder writes. *)
Lemma decoded_value_ok body text P :
  Utf8.decode body = Some text -> json_loads text = Some P ->
  json_ok P /\ json_loads (json_dumps P) = Some P.
Proof.
  intros Hd Hl. assert (Hok : json_ok P).
  { eapply json_loads_ok; [|exact Hl]. eapply utf8_decode_scalar. exact Hd. }
  split; [exact Hok | apply json_loads_dumps; exact Hok].
Qed.

(** The handler on a message that is processed. *)
Lemma callback_processed k tag body st text P :
  Utf8.decode body = Some text -> json_loads text = Some P ->
  open_fault env (filepath_of env st k) = None ->
  write_fault env (filepath_of env st k) (json_dumps P) = None ->
  callback env k tag body st
  = acked env tag
      (acknowledged (filename_of (clock env (clock_reads (snd st))) k) tag
         (stored (filepath_of env st k) (json_dumps P) (ticked st))).
Proof.
  intros Hd Hl Ho Hw. rewrite callback_cases, Hd, Hl. cbv zeta. rewrite Ho, Hw.
  reflexivity.
Qed.

Lemma processed_inv st k body :
  processed env st k body = true ->
  exists text P,
    Utf8.decode body = Some text /\ json_loads text = Some P
    /\ open_fault env (filepath_of env st k) = None
    /\ write_fault env (filepath_of env st k) (json_dumps P) = None.
Proof.
  unfold processed.
  destruct (Utf8.decode body) as [text|] eqn:Hd; [|discriminate].
  destruct (json_loads text) as [P|] eqn:Hl; [|discriminate]. cbv zeta.
  destruct (open_fault env _) eqn:Ho; [discriminate|].
  destruct (write_fault env _ _) eqn:Hw; [discriminate|].
  intros _. exists text, P. repeat split; assumption.
Qed.

(** C1 (amended). For every delivered message whose payload decodes as
    UTF-8 and parses as a JSON value P: provided the output file can be
    opened and written, the handler writes exactly one file, whose content
    parses back to P, and then issues the acknowledgment of the delivery
    tag; when opening the file fails, no file changes and the handler
    rejects the message instead, without requeue; when writing it fails,
    the handler rejects the message as well, and no other file changes. *)
Theorem C1_decoded_message_persisted k tag body st text P :
  Utf8.decode body = Some text -> json_loads text = Some P ->
  (open_fault env (filepath_of env st k) = None ->
   write_fault env (filepath_of env st k) (json_dumps P) = None ->
   exists st' content,
     callback env k tag body st = acked env tag st'
     /\ files (snd st') = <[filepath_of env st k := content]> (files (snd st))
     /\ files (snd (final_state (callback env k tag body st))) = files (snd st')
     /\ json_loads content = Some P
     /\ sent (snd st') = sent (snd st) ++ [BasicAck tag])
  /\ (forall e,
        open_fault env (filepath_of env st k) = Some e ->
        exists st',
          callback env k tag body st = nacked env tag st'
          /\ files (snd st') = files (snd st)
          /\ sent (snd st') = sent (snd st) ++ [BasicNack tag false]
          /\ stdout (snd st') = stdout (snd st) ++ [ErrorProcessingMessage e])
  /\ (forall e n,
        open_fault env (filepath_of env st k) = None ->
        write_fault env (filepath_of env st k) (json_dumps P) = Some (e, n) ->
        exists st',
          callback env k tag body st = nacked env tag st'
          /\ (forall p, p <> filepath_of env st k ->
                files (snd st') !! p = files (snd st) !! p)
          /\ sent (snd st') = sent (snd st) ++ [BasicNack tag false]
          /\ stdout (snd st') = stdout (snd st) ++ [ErrorProcessingMessage e]).
Proof.
  intros Hd Hl. split; [|split].
  - intros Ho Hw. eexists _, (json_dumps P).
    rewrite (callback_processed k tag body st text P Hd Hl Ho Hw).
    split; [reflexivity|]. split; [reflexivity|].
    split; [apply acked_files|]. split; [|reflexivity].
    apply (decoded_value_ok body text P Hd Hl).
  - intros e Ho. eexists. rewrite callback_cases, Hd, Hl. cbv zeta. rewrite Ho.
    split; [reflexivity|]. repeat split.
  - intros e n Ho Hw. eexists. rewrite callback_cases, Hd, Hl. cbv zeta.
    rewrite Ho, Hw. split; [reflexivity|].
    cbn [rejected stored ticked fst snd files sent stdout with_files with_sent
           with_stdout with_clock_reads].
    split; [|split; reflexivity].
    intros p Hp. apply lookup_insert_ne. congruence.
Qed.



(** C5 (amended). Every output file is opened in mode w, which creates the
    file or truncates the one that is there: when a file of the same name
    exists, its content is replaced by the new message, no other file
    changes, and the handler acknowledges as usual. *)
Theorem C5_existing_file_replaced k tag body st text P old :
  Utf8.decode body = Some text -> json_loads text = Some P ->
  open_fault env (filepath_of env st k) = None ->
  write_fault env (filepath_of env st k) (json_dumps P) = None ->
  files (snd st) !! filepath_of env st k = Some old ->
  exists st',
    callback env k tag body st = acked env tag st'
    /\ files (snd (final_state (callback env k tag body st)))
       !! filepath_of env st k = Some (json_dumps P)
    /\ (forall p, p <> filepath_of env st k ->
          files (snd (final_state (callback env k tag body st))) !! p
          = files (snd st) !! p)
    /\ sent (snd st') = sent (snd st) ++ [BasicAck tag].
Proof.
  intros Hd Hl Ho Hw _. eexists.
  rewrite (callback_processed k tag body st text P Hd Hl Ho Hw).
  split; [reflexivity|]. rewrite acked_files.
  cbn [acknowledged stored ticked fst snd files with_files with_sent with_stdout
         with_clock_reads sent].
  split; [apply lookup_insert_eq|]. split; [|reflexivity].
  intros p Hp. apply lookup_insert_ne. congruence.
Qed.

(** C7. For every message that is processed, the file is at the output
    folder joined with the name made of the time stamp, an underscore, the
    routing key and the suffix .json; the time stamp is the year, month and
    day, an underscore, the hour, minute and second, an underscore and the
    microseconds, each with its fixed number of digits; and the content is
    the payload pretty-printed with two spaces per level, from which the
    decoder reads the same value, with the same keys in the same order. *)
Theorem C7_path_and_content k tag body st text P :
  Utf8.decode body = Some text -> json_loads text = Some P ->
  processed env st k body = true ->
  let now := clock env (clock_reads (snd st)) in
  let filename := strftime now ++ UNDERSCORE :: k ++ str ".json" in
  let path := os_path_join (output_folder (fst st)) filename in
  exists st',
    callback env k tag body st = acked env tag st'
    /\ files (snd (final_state (callback env k tag body st))) !! path
       = Some (pretty P 0)
    /\ json_loads (pretty P 0) = Some P
    /\ stdout (snd st') = stdout (snd st) ++ [MessageSaved filename]
    /\ (datetime_ok now = true -> 1000 <= year now ->
        strftime now
        = last_digits 4 (year now) ++ last_digits 2 (month now)
          ++ last_digits 2 (day now)
          ++ UNDERSCORE :: last_digits 2 (hour now) ++ last_digits 2 (minute now)
          ++ last_digits 2 (second now)
          ++ UNDERSCORE :: last_digits 6 (microsecond now))
    /\ (datetime_ok now = true ->
        path = output_folder (fst st)
               ++ (if List.last (output_folder (fst st)) SLASH =? SLASH
                   then [] else [SLASH])
               ++ filename).
Proof.
  intros Hd Hl Hp now filename path.
  apply processed_inv in Hp as (text' & P' & Hd' & Hl' & Ho & Hw).
  rewrite Hd in Hd'. injection Hd' as <-. rewrite Hl in Hl'. injection Hl' as <-.
  eexists.
  rewrite (callback_processed k tag body st text P Hd Hl Ho Hw).
  split; [reflexivity|]. rewrite acked_files.
  cbn [acknowledged stored ticked fst snd files with_files with_sent with_stdout
         with_clock_reads stdout].
  split; [rewrite json_dumps_pretty; apply lookup_insert_eq|].
  split; [rewrite <- json_dumps_pretty; apply (decoded_value_ok body text P Hd Hl)|].
  split; [reflexivity|].
  split; [apply strftime_fixed|].
  intros Hok. destruct (filename_of_head now k Hok) as (c & s & E & Hc).
  unfold path. change filename with (filename_of now k). rewrite E.
  apply os_path_join_relative. exact Hc.
Qed.

(** C8. The text written to an output file is pure ASCII: a character of a
    payload string outside ASCII is written as a backslash, the letter u
    and four hex digits (twice, for the two surrogates, above U+FFFF), and
    the content still parses back to the payload's value. This holds of
    the files the handler leaves however it ends. *)
Theorem C8_output_is_ascii k tag body st st' :
  final_state (callback env k tag body st) = st' ->
  (forall path content,
     files (snd st') !! path = Some content ->
     files (snd st) !! path = Some content \/ ascii_text content)
  /\ (forall s, ascii_text (encode_basestring_ascii s))
  /\ (forall c, 128 <= c -> c < 0x10000 -> escape_char c = u_escape c)
  /\ (forall c, 0x10000 <= c ->
        escape_char c
        = u_escape (N.lor 0xD800 (N.land (N.shiftr (c - 0x10000) 10) 0x3FF))
          ++ u_escape (N.lor 0xDC00 (N.land (c - 0x10000) 0x3FF)))
  /\ (forall text P,
        Utf8.decode body = Some text -> json_loads text = Some P ->
        ascii_text (json_dumps P) /\ json_loads (json_dumps P) = Some P).
Proof.
  intros Hc. split; [|split; [|split; [|split]]].
  - intros path content. rewrite <- Hc, callback_files_of.
    assert (Hstored : forall p t (base : State),
              files (snd base) = files (snd st) -> ascii_text t ->
              files (snd (stored p t base)) !! path = Some content ->
              files (snd st) !! path = Some content \/ ascii_text content).
    { intros p t base Hb Ht. cbn [stored snd files with_files].
      destruct (decide (p = path)) as [->|Hne].
      - rewrite lookup_insert_eq. intros [= <-]. right. exact Ht.
      - rewrite lookup_insert_ne by exact Hne. rewrite Hb. auto. }
    destruct (Utf8.decode body) as [text|]; [|cbn; auto].
    destruct (json_loads text) as [P|]; [|cbn; auto]. cbv zeta.
    destruct (open_fault env _); [cbn; auto|].
    assert (Ha : ascii_text (json_dumps P))
      by (rewrite json_dumps_pretty; apply pretty_ascii).
    destruct (write_fault env _ _) as [[e n]|].
    + apply (Hstored _ _ (ticked st) eq_refl).
      unfold ascii_text in *. apply Forall_take. exact Ha.
    + apply (Hstored _ _ (ticked st) eq_refl). exact Ha.
  - apply encode_basestring_ascii_ascii.
  - intros c H1 H2.
    destruct (escape_char_cases c) as
      [(e & _ & _ & He) | [(_ & _ & _ & ?) | [(_ & H) | (? & _)]]];
      [apply simple_escape_ascii in He; lia | lia | exact H | lia].
  - intros c H1.
    destruct (escape_char_cases c) as
      [(e & _ & _ & He) | [(_ & _ & _ & ?) | [(? & _) | (_ & H)]]];
      [apply simple_escape_ascii in He; lia | lia | lia | exact H].
  - intros text P Hd Hl. split.
    + rewrite json_dumps_pretty. apply pretty_ascii.
    + apply (decoded_value_ok body text P Hd Hl).
Qed.

(** C9. The handler does not look at the shape of the decoded value: a
    payload that parses as a number, a string, a boolean, null or an array
    is written to its file and acknowledged exactly like an object. For
    every value, of whatever shape, the file holds the value's
    pretty-printed text, from which the decoder reads the value back, and
    the line and the acknowledgment follow; and numbers, strings,
    booleans, null and arrays are values that [json.loads] accepts at the
    top level, each stored as its own text. *)
Theorem C9_any_json_value_persisted k tag body st text P :
  Utf8.decode body = Some text -> json_loads text = Some P ->
  open_fault env (filepath_of env st k) = None ->
  write_fault env (filepath_of env st k) (json_dumps P) = None ->
  (exists st',
     callback env k tag body st = acked env tag st'
     /\ files (snd st') = <[filepath_of env st k := pretty P 0]> (files (snd st))
     /\ files (snd (final_state (callback env k tag body st))) = files (snd st')
     /\ json_loads (pretty P 0) = Some P
     /\ sent (snd st') = sent (snd st) ++ [BasicAck tag]
     /\ stdout (snd st')
        = stdout (snd st)
          ++ [MessageSaved (filename_of (clock env (clock_reads (snd st))) k)])
  /\ (json_loads (str "42") = Some (JInt 42)
      /\ pretty (JInt 42) 0 = str "42")
  /\ (json_loads (quoted "food") = Some (JStr (str "food"))
      /\ pretty (JStr (str "food")) 0 = quoted "food")
  /\ (json_loads (str "true") = Some (JBool true)
      /\ pretty (JBool true) 0 = str "true")
  /\ (json_loads (str "null") = Some JNull
      /\ pretty JNull 0 = str "null")
  /\ (json_loads (str "[1, 2]") = Some (JList [JInt 1; JInt 2])
      /\ pretty (JList [JInt 1; JInt 2]) 0
         = str "[" ++ NEWLINE :: str "  1," ++ NEWLINE :: str "  2" ++ NEWLINE :: str "]").
Proof.
  intros Hd Hl Ho Hw. split; [|repeat split; reflexivity].
  eexists.
  rewrite (callback_processed k tag body st text P Hd Hl Ho Hw).
  split; [reflexivity|].
  split; [rewrite <- json_dumps_pretty; reflexivity|].
  split; [apply acked_files|].
  split; [rewrite <- json_dumps_pretty; apply (decoded_value_ok body text P Hd Hl)|].
  split; reflexivity.
Qed.

End HandlerProperties.

Section RunProperties.
Context {PF : PyFloat}.
Variable env : Env.

(** C6. Two messages with distinct routing keys get files with distinct
    names and paths, whatever their time stamps; when one is processed
    after the other, both files are there, each with its own content. *)
Theorem C6_distinct_keys_distinct_files k1 k2 :
  k1 <> k2 ->
  (forall t1 t2 folder,
     datetime_ok t1 = true -> datetime_ok t2 = true ->
     filename_of t1 k1 <> filename_of t2 k2
     /\ os_path_join folder (filename_of t1 k1)
        <> os_path_join folder (filename_of t2 k2))
  /\ (forall tag1 body1 text1 P1 tag2 body2 text2 P2 st st1 st2,
        (forall n, datetime_ok (clock env n) = true) ->
        Utf8.decode body1 = Some text1 -> json_loads text1 = Some P1 ->
        Utf8.decode body2 = Some text2 -> json_loads text2 = Some P2 ->
        processed env st k1 body1 = true ->
        callback env k1 tag1 body1 st = Return tt st1 ->
        processed env st1 k2 body2 = true ->
        callback env k2 tag2 body2 st1 = Return tt st2 ->
        filepath_of env st k1 <> filepath_of env st1 k2
        /\ files (snd st2) !! filepath_of env st k1 = Some (json_dumps P1)
        /\ files (snd st2) !! filepath_of env st1 k2 = Some (json_dumps P2)).
Proof.
  intros Hk. split.
  - intros t1 t2 folder H1 H2. split; intros H; apply Hk.
    + exact (filename_of_inj t1 t2 k1 k2 H1 H2 H).
    + exact (filepath_inj folder t1 t2 k1 k2 H1 H2 H).
  - intros tag1 body1 text1 P1 tag2 body2 text2 P2 st st1 st2 Hclock
      Hd1 Hl1 Hd2 Hl2 Hp1 Hc1 Hp2 Hc2.
    apply processed_inv in Hp1 as (t1 & Q1 & Hd1' & Hl1' & Ho1 & Hw1).
    rewrite Hd1 in Hd1'. injection Hd1' as <-. rewrite Hl1 in Hl1'. injection Hl1' as <-.
    apply processed_inv in Hp2 as (t2 & Q2 & Hd2' & Hl2' & Ho2 & Hw2).
    rewrite Hd2 in Hd2'. injection Hd2' as <-. rewrite Hl2 in Hl2'. injection Hl2' as <-.
    rewrite (callback_processed env k1 tag1 body1 st text1 P1) in Hc1 by assumption.
    rewrite (callback_processed env k2 tag2 body2 st1 text2 P2) in Hc2 by assumption.
    apply (f_equal final_state) in Hc1, Hc2. cbn [final_state] in Hc1, Hc2.
    rewrite acked_final in Hc1, Hc2.
    assert (Hst1 : output_folder (fst st1) = output_folder (fst st)
                   /\ files (snd st1)
                      = <[filepath_of env st k1 := json_dumps P1]> (files (snd st)))
      by (rewrite <- Hc1; destruct (broker_fault env (BasicAck tag1));
          split; reflexivity).
    assert (Hst2 : files (snd st2)
                   = <[filepath_of env st1 k2 := json_dumps P2]> (files (snd st1)))
      by (rewrite <- Hc2; destruct (broker_fault env (BasicAck tag2)); reflexivity).
    destruct Hst1 as [Hfolder Hfiles1].
    assert (Hne : filepath_of env st k1 <> filepath_of env st1 k2).
    { unfold filepath_of. rewrite Hfolder. intros H. apply Hk.
      eapply filepath_inj; [apply Hclock | apply Hclock | exact H]. }
    split; [exact Hne|].
    rewrite Hst2, Hfiles1.
    split.
    + rewrite lookup_insert_ne by congruence. apply lookup_insert_eq.
    + apply lookup_insert_eq.
Qed.

(** C3. If the connection attempt fails n times, n below five, and then
    succeeds, the processor is connected after exactly n + 1 attempts and
    n sleeps of five seconds; if five attempts in a row fail, [connect]
    raises the error of the fifth after exactly five attempts, and the
    process exits with a failure. *)
Theorem C3_connect_retries_then_gives_up st :
  let url := url_of st in
  let d := dials (snd st) in
  (forall n,
     (n < 5)%nat ->
     (forall i, (i < n)%nat -> attempt_error env url (d + i) <> None) ->
     attempt_error env url (d + n) = None ->
     exists st',
       connect_loop env (seq 0 max_retries) st = Return tt st'
       /\ attempts_logged (stdout (snd st'))
          = (attempts_logged (stdout (snd st)) + n + 1)%nat
       /\ dials (snd st') = (d + n + 1)%nat
       /\ slept (snd st') = slept (snd st) + 5 * N.of_nat n
       /\ connection (fst st') = Some (d + n)%nat
       /\ channel (fst st') = Some (d + n)%nat)
  /\ ((forall i, (i < 5)%nat -> attempt_error env url (d + i) <> None) ->
      exists e st',
        connect env st = Raise e st'
        /\ attempt_error env url (d + 4) = Some e
        /\ attempts_logged (stdout (snd st'))
           = (attempts_logged (stdout (snd st)) + 5)%nat
        /\ slept (snd st') = slept (snd st) + 20
        /\ forall events st0,
             st = booted env st0 -> fst (main env events st0) = Exited 1).
Proof.
  intros url d. split.
  - intros n Hn Hfail Hok.
    destruct (connect_loop_retries env n 0%nat st) as
      (st' & Hrun & _ & Hdials & Hslept & Hlog & Hconn & Hchan);
      [unfold max_retries; lia | exact Hfail | exact Hok |].
    exists st'. change (max_retries - 0)%nat with max_retries in Hrun.
    repeat split; assumption.
  - intros Hfail.
    destruct (connect_loop_exhausted env 5%nat 0%nat st) as
      (e & st' & Hrun & Hlast & _ & Hslept & Hlog);
      [reflexivity | lia | exact Hfail |].
    change (max_retries - 0)%nat with max_retries in Hrun.
    apply connect_loop_raises in Hrun.
    exists e, st'. repeat split; try assumption.
    intros events st0 ->. exact (main_connect_raises env events st0 e st' Hrun).
Qed.

(** C10. The retry covers the connection and the channel only: when the
    broker refuses the exchange declaration, the queue declaration or the
    binding, [connect] raises that error at once, having sent each request
    once up to the refused one, without another attempt, sleep or line of
    output, and the process exits with a failure. *)
Theorem C10_setup_failure_not_retried st st1 e n :
  connect_loop env (seq 0 max_retries) st = Return tt st1 ->
  first_refusal env (setup_frames env st1) 0 = Some (e, n) ->
  exists st2,
    connect env st = Raise e st2
    /\ sent (snd st2) = sent (snd st1) ++ take n (setup_frames env st1)
    /\ (1 <= n <= 3)%nat
    /\ stdout (snd st2) = stdout (snd st1)
    /\ slept (snd st2) = slept (snd st1)
    /\ dials (snd st2) = dials (snd st1)
    /\ forall events st0,
         st = booted env st0 -> fst (main env events st0) = Exited 1.
Proof.
  intros Hloop Href.
  destruct (connect_loop_connected env 5%nat 0%nat st st1) as [_ [c Hc]];
    [reflexivity | lia | exact Hloop |].
  pose proof (declare_and_bind_spec env st1 c Hc) as Hspec.
  rewrite Href in Hspec.
  destruct Hspec as (st2 & Hrun & Hsent & Hout & Hslept & Hdials & _).
  assert (Hconnect : connect env st = Raise e st2).
  { unfold connect, mbind, M_bind. rewrite Hloop. exact Hrun. }
  exists st2. repeat split; try assumption.
  - unfold setup_frames in Href. cbn [first_refusal] in Href.
    repeat match type of Href with
           | match ?o with Some _ => _ | None => _ end = _ => destruct o
           end; injection Href as _ <- || discriminate; lia.
  - unfold setup_frames in Href. cbn [first_refusal] in Href.
    repeat match type of Href with
           | match ?o with Some _ => _ | None => _ end = _ => destruct o
           end; injection Href as _ <- || discriminate; lia.
  - intros events st0 ->. exact (main_connect_raises env events st0 e st2 Hconnect).
Qed.

End RunProperties.

(** * Further properties of the code *)

(** ** The handler: what it leaves alone, and how it fails *)

Lemma utf8_decode_ascii bs : ascii_text bs -> Utf8.decode bs = Some bs.
Proof.
  induction 1 as [|b bs Hb _ IH]; [reflexivity|].
  cbn [Utf8.decode]. apply N.ltb_lt in Hb. rewrite Hb, IH. reflexivity.
Qed.

Section HandlerFurther.
Context {PF : PyFloat}.
Variable env : Env.


(** X2. When the payload decodes and the file cannot be opened, the error
    is caught: no file is created or changed, the message is rejected
    without requeue, the error is printed, and the clock has been read
    once; the handler returns (it ends as [basic_nack] does). *)
Theorem X2_open_failure_rejects k tag body st text P e :
  Utf8.decode body = Some text -> json_loads text = Some P ->
  open_fault env (filepath_of env st k) = Some e ->
  exists st',
    callback env k tag body st = nacked env tag st'
    /\ files (snd st') = files (snd st)
    /\ sent (snd st') = sent (snd st) ++ [BasicNack tag false]
    /\ stdout (snd st') = stdout (snd st) ++ [ErrorProcessingMessage e]
    /\ clock_reads (snd st') = S (clock_reads (snd st)).
Proof.
  intros Hd Hl Ho. rewrite callback_cases, Hd, Hl. cbv zeta. rewrite Ho.
  eexists. split; [reflexivity|]. repeat split.
Qed.

(** X3. When the file opens and writing it fails, the error is caught and
    the message is rejected without requeue, but the file stays behind: it
    holds the pretty-printed text up to the character where the write
    failed, whatever it held before. No other file changes. *)
Theorem X3_write_failure_leaves_partial_file k tag body st text P e n :
  Utf8.decode body = Some text -> json_loads text = Some P ->
  open_fault env (filepath_of env st k) = None ->
  write_fault env (filepath_of env st k) (json_dumps P) = Some (e, n) ->
  exists st',
    callback env k tag body st = nacked env tag st'
    /\ files (snd st') !! filepath_of env st k = Some (take n (pretty P 0))
    /\ (forall p, p <> filepath_of env st k ->
          files (snd st') !! p = files (snd st) !! p)
    /\ sent (snd st') = sent (snd st) ++ [BasicNack tag false]
    /\ stdout (snd st') = stdout (snd st) ++ [ErrorProcessingMessage e].
Proof.
  intros Hd Hl Ho Hw. rewrite callback_cases, Hd, Hl. cbv zeta. rewrite Ho, Hw.
  eexists. split; [reflexivity|].
  unfold rejected, stored, ticked.
  cbn [fst snd files sent stdout with_sent with_stdout with_files with_clock_reads].
  rewrite json_dumps_pretty.
  split; [apply lookup_insert_eq|].
  split; [intros p Hp; apply lookup_insert_ne; congruence|].
  split; reflexivity.
Qed.

(** X4. A payload that starts with the UTF-8 byte order mark (the bytes
    EF BB BF) is always rejected: either what follows is not UTF-8, or
    [json.loads] refuses the mark. No file changes, and the message is
    rejected without requeue. *)
Theorem X4_byte_order_mark_rejected k tag rest st :
  exists e st',
    callback env k tag (0xEF :: 0xBB :: 0xBF :: rest) st = nacked env tag st'
    /\ (e = UnicodeDecodeError \/ e = JSONDecodeError)
    /\ files (snd st') = files (snd st)
    /\ sent (snd st') = sent (snd st) ++ [BasicNack tag false]
    /\ stdout (snd st') = stdout (snd st) ++ [ErrorProcessingMessage e].
Proof.
  assert (Hdec : Utf8.decode (0xEF :: 0xBB :: 0xBF :: rest)
                 = cons 0xFEFF <$> Utf8.decode rest) by reflexivity.
  rewrite callback_cases, Hdec.
  destruct (Utf8.decode rest) as [t|]; cbn [fmap option_fmap option_map].
  - exists JSONDecodeError. eexists. split; [reflexivity|]. repeat split. auto.
  - exists UnicodeDecodeError. eexists. split; [reflexivity|]. repeat split. auto.
Qed.

(** X5. A byte that cannot start a character of UTF-8 (a continuation
    byte, C0, C1, or F5 and above), wherever it comes after ASCII text,
    makes the handler reject the message for a [UnicodeDecodeError]: no
    file changes, and the clock is not read. *)
Theorem X5_invalid_lead_byte_rejected k tag p b rest st :
  ascii_text p -> 0x80 <= b < 0xC2 \/ 0xF5 <= b ->
  exists st',
    callback env k tag (p ++ b :: rest) st = nacked env tag st'
    /\ files (snd st') = files (snd st)
    /\ sent (snd st') = sent (snd st) ++ [BasicNack tag false]
    /\ stdout (snd st') = stdout (snd st) ++ [ErrorProcessingMessage UnicodeDecodeError]
    /\ clock_reads (snd st') = clock_reads (snd st).
Proof.
  intros Hp Hb.
  assert (Hdec : Utf8.decode (p ++ b :: rest) = None).
  { induction Hp as [|c p Hc _ IH]; cbn [app Utf8.decode].
    - destruct (N.ltb_spec b 0x80); [lia|].
      destruct (N.ltb_spec b 0xC2); [reflexivity|].
      destruct (N.ltb_spec b 0xE0); [lia|].
      destruct (N.ltb_spec b 0xF0); [lia|].
      destruct (N.ltb_spec b 0xF5); [lia | reflexivity].
    - apply N.ltb_lt in Hc. rewrite Hc, IH. reflexivity. }
  rewrite callback_cases, Hdec. eexists. split; [reflexivity|]. repeat split.
Qed.

(** X6. The text the handler writes for a decoded value is itself a
    payload that the handler accepts: it is ASCII, so it decodes as UTF-8
    to itself; it parses to the same value; and handling it, where the
    file can be opened and written, stores the very same text and
    acknowledges. *)
Theorem X6_stored_text_is_stable body text P :
  Utf8.decode body = Some text -> json_loads text = Some P ->
  Utf8.decode (json_dumps P) = Some (json_dumps P)
  /\ json_loads (json_dumps P) = Some P
  /\ forall k tag st,
       open_fault env (filepath_of env st k) = None ->
       write_fault env (filepath_of env st k) (json_dumps P) = None ->
       exists st',
         callback env k tag (json_dumps P) st = acked env tag st'
         /\ files (snd (final_state (callback env k tag (json_dumps P) st)))
            !! filepath_of env st k = Some (json_dumps P)
         /\ sent (snd st') = sent (snd st) ++ [BasicAck tag].
Proof.
  intros Hd Hl. destruct (decoded_value_ok body text P Hd Hl) as [Hok Hback].
  assert (Hascii : Utf8.decode (json_dumps P) = Some (json_dumps P)).
  { apply utf8_decode_ascii. rewrite json_dumps_pretty. apply pretty_ascii. }
  split; [exact Hascii|]. split; [exact Hback|].
  intros k tag st Ho Hw. eexists.
  rewrite (callback_processed env k tag _ st _ P Hascii Hback Ho Hw).
  split; [reflexivity|]. rewrite acked_files.
  unfold acknowledged, stored, ticked.
  cbn [fst snd files sent with_sent with_stdout with_files with_clock_reads].
  split; [apply lookup_insert_eq | reflexivity].
Qed.

(** X7. Two payloads whose decoded values differ are stored as different
    texts: what [json.dump] writes determines the value that [json.loads]
    had returned. *)
Theorem X7_distinct_values_distinct_texts body1 text1 P1 body2 text2 P2 :
  Utf8.decode body1 = Some text1 -> json_loads text1 = Some P1 ->
  Utf8.decode body2 = Some text2 -> json_loads text2 = Some P2 ->
  P1 <> P2 -> json_dumps P1 <> json_dumps P2.
Proof.
  intros Hd1 Hl1 Hd2 Hl2 Hne E. apply Hne.
  destruct (decoded_value_ok body1 text1 P1 Hd1 Hl1) as [_ H1].
  destruct (decoded_value_ok body2 text2 P2 Hd2 Hl2) as [_ H2].
  rewrite E in H1. congruence.
Qed.

(** X8. The text that is parsed holds Unicode scalar values only, and the
    value parsed from it is well formed: its strings hold code points up
    to U+10FFFF and no high surrogate followed by a low one, and the keys
    of each of its objects are pairwise distinct. So a file written for an
    object repeats no key, even when the payload does. *)
Theorem X8_decoded_value_well_formed body text P :
  Utf8.decode body = Some text -> json_loads text = Some P ->
  scalar_text text /\ json_ok P
  /\ forall d, P = JDict d -> NoDup (List.map fst d).
Proof.
  intros Hd Hl. pose proof (utf8_decode_scalar _ _ Hd) as Hs.
  pose proof (json_loads_ok _ _ Hs Hl) as Hok.
  split; [exact Hs|]. split; [exact Hok|].
  intros d ->. inversion Hok; assumption.
Qed.

End HandlerFurther.

(** ** File names: the time stamp and the slash *)

Lemma last_digits_inj w : forall n m,
  n < 10 ^ N.of_nat w -> m < 10 ^ N.of_nat w ->
  last_digits w n = last_digits w m -> n = m.
Proof.
  induction w as [|w IH]; intros n m Hn Hm H.
  - cbn in Hn, Hm. lia.
  - rewrite Nat2N.inj_succ, N.pow_succ_r' in Hn, Hm.
    cbn [last_digits] in H. apply app_inj_tail in H as [H1 H2].
    apply IH in H1; [|nlia|nlia]. nlia.
Qed.

Lemma decimal_inj n m : decimal n = decimal m -> n = m.
Proof.
  unfold decimal. intros H. apply (f_equal uint_of_digits) in H.
  rewrite !uint_of_digits_of_uint in H.
  apply (f_equal N.of_uint) in H. rewrite !DecimalN.Unsigned.of_to in H. exact H.
Qed.

Lemma zero_pad_small w n : n < 10 ^ N.of_nat w -> zero_pad w n = last_digits w n.
Proof. intros H. unfold zero_pad. apply N.ltb_lt in H. rewrite H. reflexivity. Qed.

Lemma cons_eq_tail {A} (x : A) l k : x :: l = x :: k -> l = k.
Proof. congruence. Qed.

(** Time stamps of valid dates tell the dates apart. *)
Lemma strftime_inj t1 t2 :
  datetime_ok t1 = true -> datetime_ok t2 = true ->
  strftime t1 = strftime t2 -> t1 = t2.
Proof.
  intros (Hm1 & Hd1 & Hh1 & Hmi1 & Hs1 & Hus1)%datetime_ok_fields
         (Hm2 & Hd2 & Hh2 & Hmi2 & Hs2 & Hus2)%datetime_ok_fields.
  unfold strftime. rewrite !zero_pad_small by assumption. intros H.
  apply app_inj_2 in H as [Hy H];
    [|cbn [length]; rewrite !length_app; cbn [length];
      rewrite !length_app, !last_digits_length; reflexivity].
  apply app_inj_1 in H as [Hm H]; [|rewrite !last_digits_length; reflexivity].
  apply app_inj_1 in H as [Hd H]; [|rewrite !last_digits_length; reflexivity].
  apply cons_eq_tail in H.
  apply app_inj_1 in H as [Hh H]; [|rewrite !last_digits_length; reflexivity].
  apply app_inj_1 in H as [Hmi H]; [|rewrite !last_digits_length; reflexivity].
  apply app_inj_1 in H as [Hs H]; [|rewrite !last_digits_length; reflexivity].
  apply cons_eq_tail in H. rename H into Hus.
  apply decimal_inj in Hy.
  apply last_digits_inj in Hm, Hd, Hh, Hmi, Hs, Hus; try assumption.
  destruct t1, t2. cbn in *. congruence.
Qed.

Lemma digits_no_slash s : digits s -> SLASH ∉ s.
Proof.
  intros Hd Hin. unfold digits in Hd. rewrite Forall_forall in Hd.
  specialize (Hd _ Hin). discriminate.
Qed.

Lemma strftime_no_slash t : SLASH ∉ strftime t.
Proof.
  assert (H : Forall (fun c => c <> SLASH) (strftime t)).
  { unfold strftime.
    repeat first
      [ apply Forall_app; split
      | apply Forall_cons; split; [discriminate|]
      | eapply Forall_impl;
        [first [apply decimal_digits | apply zero_pad_digits]
        |intros c Hc ->; discriminate] ]. }
  rewrite Forall_forall in H. intros Hin. exact (H _ Hin eq_refl).
Qed.

(** X9. For valid dates the file name, and so the path in a folder,
    determines the time stamp and the routing key: two messages go to the
    same file exactly when their routing keys are equal and the clock gave
    the same date and time, down to the microsecond. *)
Theorem X9_filename_of_injective t1 t2 k1 k2 folder :
  datetime_ok t1 = true -> datetime_ok t2 = true ->
  (filename_of t1 k1 = filename_of t2 k2 <-> t1 = t2 /\ k1 = k2)
  /\ (os_path_join folder (filename_of t1 k1)
      = os_path_join folder (filename_of t2 k2) <-> t1 = t2 /\ k1 = k2).
Proof.
  intros H1 H2.
  assert (Hname : filename_of t1 k1 = filename_of t2 k2 -> t1 = t2 /\ k1 = k2).
  { intros H. pose proof (filename_of_inj t1 t2 k1 k2 H1 H2 H) as ->.
    split; [|reflexivity]. unfold filename_of in H. cbv zeta in H.
    apply app_inv_tail with (l := UNDERSCORE :: k2 ++ str ".json") in H.
    apply strftime_inj; assumption. }
  split; (split; [|intros [-> ->]; reflexivity]); [exact Hname|].
  intros H. apply Hname.
  destruct (filename_of_head t1 k1 H1) as (c1 & s1 & E1 & Hc1).
  destruct (filename_of_head t2 k2 H2) as (c2 & s2 & E2 & Hc2).
  rewrite E1, E2 in *. rewrite !os_path_join_relative in H by assumption.
  apply app_inv_head in H. apply app_inv_head in H. exact H.
Qed.

(** X10. The time stamp never holds a slash, so the file name holds one
    exactly when the routing key does. And the name never starts with
    one, so [os.path.join] never drops the folder: the path is the folder,
    a separator unless the folder is empty or ends with one, and the name. *)
Theorem X10_filename_slash_from_routing_key t k folder :
  (SLASH ∈ filename_of t k <-> SLASH ∈ k)
  /\ os_path_join folder (filename_of t k)
     = folder ++ (if List.last folder SLASH =? SLASH then [] else [SLASH])
       ++ filename_of t k.
Proof.
  pose proof (strftime_no_slash t) as Ht.
  split.
  - unfold filename_of. cbv zeta. rewrite elem_of_app, elem_of_cons, elem_of_app.
    assert (Hj : SLASH ∉ str ".json").
    { cbn. rewrite !elem_of_cons, elem_of_nil. intros H.
      repeat destruct H as [H|H]; discriminate || exact H. }
    split; [intros [?|[?|[?|?]]]|]; try contradiction; try discriminate; tauto.
  - unfold os_path_join, filename_of. cbv zeta.
    destruct (strftime t) as [|c s]; cbn [app].
    + destruct (List.last folder SLASH =? SLASH); reflexivity.
    + destruct (N.eqb_spec c SLASH) as [->|_]; [exfalso; apply Ht; left|].
      destruct (List.last folder SLASH =? SLASH); reflexivity.
Qed.

(** ** The run: constructing, connecting, consuming *)

Section RunFurther.
Context {PF : PyFloat}.
Variable env : Env.

(** The loop of [connect], whatever the transport answers: at most as many
    attempts as are left, a sleep between two attempts, and a connection
    with its channel when the loop ends normally. *)
Lemma connect_loop_run n : forall a st,
  (a + n = max_retries)%nat -> (0 < n)%nat ->
  exists k,
    (1 <= k <= n)%nat
    /\ same_setup st (final_state (connect_loop env (seq a (max_retries - a)) st))
    /\ attempts_logged
         (stdout (snd (final_state (connect_loop env (seq a (max_retries - a)) st))))
       = (attempts_logged (stdout (snd st)) + k)%nat
    /\ slept (snd (final_state (connect_loop env (seq a (max_retries - a)) st)))
       = slept (snd st) + retry_delay * N.of_nat (k - 1)
    /\ (dials (snd (final_state (connect_loop env (seq a (max_retries - a)) st)))
        <= dials (snd st) + k)%nat
    /\ match connect_loop env (seq a (max_retries - a)) st with
       | Return _ st' =>
         exists c, connection (fst st') = Some c /\ channel (fst st') = Some c
       | Raise _ _ => k = n
       end.
Proof.
  induction n as [|n IH]; intros a st Ha Hn; [lia|].
  rewrite seq_attempts by lia. rewrite connect_loop_step.
  pose proof (dial_spec env st) as Hd.
  destruct (attempt_error env (url_of st) (dials (snd st))) as [e|].
  - destruct Hd as (st' & -> & Hs & Hdials & Hslept & Hlog).
    assert (Hdl : (dials (snd st') <= S (dials (snd st)))%nat)
      by (revert Hdials; destruct (url_fault env (url_of st)); intros Hdials; rewrite Hdials; lia).
    destruct (Nat.ltb_spec a (max_retries - 1)) as [Hlt|Hge].
    + cbv zeta. cbn [fst snd]. set (st2 := (fst st', _)).
      assert (Hs2 : same_setup st st2).
      { unfold st2. unfold same_setup in *. cbn [fst snd]. cbn. exact Hs. }
      destruct (IH (S a) st2 ltac:(lia) ltac:(unfold max_retries in *; lia))
        as (k & Hk & Hs3 & Hlog3 & Hslept3 & Hdials3 & Hend).
      assert (Hst2 : slept (snd st2) = slept (snd st') + retry_delay
                     /\ dials (snd st2) = dials (snd st')
                     /\ attempts_logged (stdout (snd st2))
                        = attempts_logged (stdout (snd st'))).
      { unfold st2. cbn [fst snd slept stdout dials with_slept with_stdout].
        rewrite !attempts_logged_app. cbn [attempts_logged List.filter length].
        repeat split; lia. }
      destruct Hst2 as (Hsl2 & Hdi2 & Hlo2).
      exists (S k). split; [lia|].
      split; [eapply same_setup_trans; eassumption|].
      rewrite Hlog3, Hslept3, Hsl2, Hlo2, Hlog, Hslept.
      split; [lia|]. split; [unfold retry_delay; lia|]. split; [lia|].
      destruct (connect_loop env _ _); [exact Hend | lia].
    + assert (n = 0)%nat as -> by (unfold max_retries in *; lia).
      cbv zeta. cbn [fst snd final_state]. exists 1%nat. split; [lia|].
      split; [unfold same_setup in *; cbn [fst snd]; cbn; exact Hs|].
      cbn [snd slept stdout dials with_stdout].
      rewrite !attempts_logged_app, Hlog, Hslept. cbn. repeat split; lia.
  - destruct Hd as (st' & -> & Hs & Hdials & Hslept & Hlog & Hconn & Hchan).
    cbn [final_state]. exists 1%nat. split; [lia|]. split; [exact Hs|].
    rewrite Hlog, Hslept, Hdials. cbn. repeat split; try lia. eauto.
Qed.

(** A URL that [pika.URLParameters] refuses is refused at every attempt:
    the loop never dials. *)
Lemma connect_loop_refused_url e n : forall a st,
  (a + n = max_retries)%nat -> (0 < n)%nat ->
  url_fault env (url_of st) = Some e ->
  exists st', connect_loop env (seq a (max_retries - a)) st = Raise e st'
    /\ same_setup st st'
    /\ dials (snd st') = dials (snd st)
    /\ connection (fst st') = connection (fst st)
    /\ channel (fst st') = channel (fst st).
Proof.
  induction n as [|n IH]; intros a st Ha Hn Hu; [lia|].
  rewrite seq_attempts by lia. rewrite connect_loop_step.
  assert (Hdial : dial env st
                  = Raise e (fst st,
                             with_stdout (stdout (snd st)
                                          ++ [AttemptingConnection (url_of st)])
                               (snd st))).
  { destruct st as [self w]. unfold url_of in *. cbn [fst snd] in *.
    unfold dial, print, mbind, M_bind, mret, M_ret, raise, get_self, set_world.
    cbn [fst snd]. rewrite Hu. reflexivity. }
  rewrite Hdial.
  destruct (Nat.ltb_spec a (max_retries - 1)) as [Hlt|Hge].
  - cbv zeta. cbn [fst snd]. set (st2 := (fst st, _)).
    destruct (IH (S a) st2 ltac:(lia) ltac:(unfold max_retries in *; lia) Hu)
      as (st3 & Hrun & Hs3 & Hd3 & Hc3 & Hch3).
    exists st3. split; [exact Hrun|].
    split; [eapply same_setup_trans; [|exact Hs3]; repeat split|].
    rewrite Hd3, Hc3, Hch3. repeat split.
  - cbv zeta. cbn [fst snd]. eexists. split; [reflexivity|]. repeat split.
Qed.

Lemma first_refusal_count fs : forall n e m,
  first_refusal env fs n = Some (e, m) -> (n < m <= n + length fs)%nat.
Proof.
  induction fs as [|f fs IH]; intros n e m; cbn [first_refusal length]; [discriminate|].
  destruct (broker_fault env f).
  - intros [= _ <-]. lia.
  - intros H%IH. lia.
Qed.

(** Declaring and binding, when it returns: the three requests went out,
    only the queue name was assigned and only the binding was printed. *)
Lemma declare_and_bind_returns st st' :
  declare_and_bind env st = Return tt st' ->
  first_refusal env (setup_frames env st) 0 = None
  /\ fst st' = with_queue_name (Some (server_queue_name env)) (fst st)
  /\ snd st'
     = with_stdout
         (stdout (snd st) ++ [QueueBound (server_queue_name env) (exchange (fst st))])
         (with_sent (sent (snd st) ++ setup_frames env st) (snd st)).
Proof.
  destruct st as [self w]. unfold setup_frames. cbn [first_refusal fst snd].
  unfold declare_and_bind, request, send, print, attribute, mbind, M_bind,
    mret, M_ret, raise, get_self, set_self, set_world.
  cbn [fst snd channel with_queue_name exchange].
  destruct (channel self) as [c|] eqn:Hc; [|discriminate].
  cbn [fst snd channel with_queue_name exchange].
  destruct (broker_fault env (ExchangeDeclare _ _ _)); [discriminate|].
  cbn [fst snd channel with_queue_name exchange]. rewrite Hc.
  cbn [fst snd channel with_queue_name exchange].
  destruct (broker_fault env (QueueDeclare _ _)); [discriminate|].
  cbn [fst snd channel with_queue_name exchange]. rewrite Hc.
  cbn [fst snd channel with_queue_name exchange].
  destruct (broker_fault env (QueueBind _ _ _)); [discriminate|].
  intros [= <-]. cbn [fst snd]. split; [reflexivity|]. split; [reflexivity|].
  unfold with_stdout, with_sent. cbn. rewrite <- !app_assoc. reflexivity.
Qed.

(** What [connect] leaves when it returns. *)
Lemma connect_returns_inv st st2 :
  connect env st = Return tt st2 ->
  exists st1 c,
    connect_loop env (seq 0 max_retries) st = Return tt st1
    /\ connection (fst st1) = Some c /\ channel (fst st1) = Some c
    /\ same_setup st st1
    /\ fst st2 = with_queue_name (Some (server_queue_name env)) (fst st1)
    /\ snd st2
       = with_stdout
           (stdout (snd st1)
            ++ [QueueBound (server_queue_name env) (exchange (fst st))])
           (with_sent (sent (snd st) ++ setup_frames env st) (snd st1)).
Proof.
  unfold connect, mbind, M_bind.
  destruct (connect_loop_run max_retries 0 st eq_refl ltac:(unfold max_retries; lia))
    as (k & _ & Hs & _ & _ & _ & Hend).
  change (max_retries - 0)%nat with max_retries in *.
  destruct (connect_loop env (seq 0 max_retries) st) as [[] st1|e st1];
    [|discriminate].
  cbn [final_state] in Hs. destruct Hend as (c & Hconn & Hchan).
  intros (_ & Hself & Hworld)%declare_and_bind_returns.
  exists st1, c. split; [reflexivity|].
  pose proof Hs as (_ & _ & Hex & _ & _ & Hse).
  unfold setup_frames in *. rewrite Hex, Hse in Hworld.
  repeat split; assumption || apply Hs.
Qed.

(** One delivery, when the broker accepts its confirmation: one
    confirmation with its tag, one line, and nothing else that the
    consumer or the connection would see. *)
Lemma callback_confirms k tag body st :
  broker_fault env (BasicAck tag) = None ->
  broker_fault env (BasicNack tag false) = None ->
  exists st' f l,
    callback env k tag body st = Return tt st'
    /\ fst st' = fst st
    /\ confirms (k, tag, body) f
    /\ sent (snd st') = sent (snd st) ++ [f]
    /\ handler_line l
    /\ stdout (snd st') = stdout (snd st) ++ [l]
    /\ slept (snd st') = slept (snd st)
    /\ dials (snd st') = dials (snd st).
Proof.
  intros Ha Hn. rewrite callback_cases. unfold acked, nacked. rewrite Ha, Hn.
  unfold confirms, handler_line. cbn [fst snd].
  destruct (Utf8.decode body) as [text|];
    [destruct (json_loads text) as [v|];
     [cbv zeta; destruct (open_fault env _) as [e|];
      [|destruct (write_fault env _ _) as [[e n]|]]|]|];
    do 3 eexists; (split; [reflexivity|]);
    unfold rejected, acknowledged, stored, ticked;
    cbn [fst snd sent stdout slept dials
           with_sent with_stdout with_files with_clock_reads];
    repeat split; eauto.
Qed.

(** How the loop of the library ends tells what ended the deliveries,
    whatever the broker answers. *)
Lemma dispatch_ending events : forall st,
  match dispatch env events st with
  | Return Waiting _ => ending_of events = StillWaiting
  | Return Interrupted _ => ending_of events = ByInterrupt
  | Raise _ _ => True
  end.
Proof.
  induction events as [|[k tag body| |e] later IH]; intros st;
    cbn [dispatch ending_of].
  - reflexivity.
  - unfold mbind, M_bind.
    destruct (callback env k tag body st) as [[] st1|e st1]; [apply IH | exact I].
  - reflexivity.
  - exact I.
Qed.

(** The consumer on a broker that refuses nothing: the deliveries before
    the first other event are confirmed one by one, in order. *)
Lemma dispatch_run events : accepting env -> forall st,
  exists st' fs ls,
    dispatch env events st
    = match ending_of events with
      | StillWaiting => Return Waiting st'
      | ByInterrupt => Return Interrupted st'
      | ByError e => Raise e st'
      end
    /\ fst st' = fst st
    /\ Forall2 confirms (delivered events) fs
    /\ sent (snd st') = sent (snd st) ++ fs
    /\ Forall handler_line ls
    /\ length ls = length (delivered events)
    /\ stdout (snd st') = stdout (snd st) ++ ls
    /\ slept (snd st') = slept (snd st)
    /\ dials (snd st') = dials (snd st).
Proof.
  intros Hacc. induction events as [|[k tag body| |e] later IH]; intros st.
  - exists st, [], []. cbn [dispatch ending_of delivered length].
    rewrite !app_nil_r. repeat split; constructor.
  - destruct (callback_confirms k tag body st (Hacc _) (Hacc _))
      as (st1 & f & l & Hrun & Hself & Hf & Hsent & Hl & Hout & Hslept & Hdials).
    destruct (IH st1)
      as (st' & fs & ls & Hrun' & Hself' & Hfs & Hsent' & Hls & Hlen & Hout'
          & Hslept' & Hdials').
    exists st', (f :: fs), (l :: ls).
    rewrite (dispatch_deliver env k tag body later st st1 Hrun).
    cbn [ending_of delivered length].
    split; [exact Hrun'|]. split; [congruence|].
    split; [constructor; assumption|].
    split; [rewrite Hsent', Hsent, <- app_assoc; reflexivity|].
    split; [constructor; assumption|].
    split; [congruence|].
    split; [rewrite Hout', Hout, <- app_assoc; reflexivity|].
    split; congruence.
  - exists st, [], []. cbn [dispatch ending_of delivered length].
    rewrite !app_nil_r. repeat split; constructor.
  - exists st, [], []. cbn [dispatch ending_of delivered length].
    rewrite !app_nil_r. repeat split; constructor.
Qed.

(** [start_consuming], whatever the broker answers: it returns only as
    the deliveries ended. *)
Lemma start_consuming_ending events st :
  match start_consuming env events st with
  | Return Waiting _ => ending_of events = StillWaiting
  | Return Interrupted _ => ending_of events = ByInterrupt
  | Raise _ _ => True
  end.
Proof.
  unfold start_consuming, attribute, request, send, print, get_self, set_world,
    mbind, M_bind, mret, M_ret, raise.
  cbn [fst snd].
  destruct (channel (fst st)) eqn:Hch; [|exact I].
  destruct (queue_name (fst st)) eqn:Hq; [|exact I].
  cbn [fst snd]. destruct (broker_fault env (BasicConsume _)); [exact I|].
  cbn [fst snd]. rewrite Hch.
  match goal with
  | |- context [dispatch env events ?s] =>
    pose proof (dispatch_ending events s) as Hend;
      destruct (dispatch env events s) as [[|] st1|e st1]
  end; [|exact Hend|exact I].
  cbn [fst snd].
  destruct (channel (fst st1)); [|exact I].
  cbn [fst snd]. destruct (broker_fault env BasicCancel); [exact I|].
  cbn [fst snd]. destruct (connection (fst st1)); [|exact I].
  cbn [fst snd]. destruct (broker_fault env ConnectionClose); [exact I|].
  exact Hend.
Qed.

(** [start_consuming] on a processor that holds a connection, a channel
    and the name of its queue, with a broker that refuses nothing. *)
Lemma start_consuming_spec events st c ch q :
  accepting env ->
  connection (fst st) = Some c ->
  channel (fst st) = Some ch -> queue_name (fst st) = Some q ->
  exists st' fs ls,
    start_consuming env events st
    = match ending_of events with
      | StillWaiting => Return Waiting st'
      | ByInterrupt => Return Interrupted st'
      | ByError e => Raise e st'
      end
    /\ fst st' = fst st
    /\ Forall2 confirms (delivered events) fs
    /\ sent (snd st')
       = sent (snd st) ++ BasicConsume q :: fs
         ++ match ending_of events with
            | ByInterrupt => [BasicCancel; ConnectionClose]
            | _ => []
            end
    /\ Forall handler_line ls
    /\ length ls = length (delivered events)
    /\ stdout (snd st')
       = stdout (snd st)
         ++ WaitingForMessages (exchange (fst st)) :: ListeningOnQueue q :: ls
         ++ match ending_of events with
            | ByInterrupt => [StoppingConsumer]
            | _ => []
            end
    /\ slept (snd st') = slept (snd st)
    /\ dials (snd st') = dials (snd st).
Proof.
  intros Hacc Hconn Hch Hq. destruct st as [self w]. cbn [fst snd] in *.
  unfold start_consuming, attribute, request, send, print, get_self, set_world,
    mbind, M_bind, mret, M_ret, raise.
  cbn [fst snd]. rewrite Hch. cbn [fst snd]. rewrite Hq.
  cbn [fst snd]. rewrite (Hacc (BasicConsume q)). cbn [fst snd]. rewrite Hch.
  set (st1 := (self, _)).
  destruct (dispatch_run events Hacc st1)
    as ([self' w'] & fs & ls & Hrun & Hself & Hfs & Hsent & Hls & Hlen & Hout
        & Hslept & Hdials).
  rewrite Hrun.
  unfold st1 in Hself, Hsent, Hout, Hslept, Hdials.
  cbn [fst snd sent stdout slept dials with_sent with_stdout]
    in Hself, Hsent, Hout, Hslept, Hdials.
  subst self'.
  destruct (ending_of events) as [| |e].
  - exists (self, w'), fs, ls. split; [reflexivity|]. cbn [fst snd].
    rewrite Hsent, Hout, !app_nil_r. rewrite <- ?app_assoc. cbn [app].
    rewrite <- ?app_assoc. cbn [app].
    repeat split; assumption.
  - cbn [fst snd]. rewrite Hch. cbn [fst snd]. rewrite (Hacc BasicCancel).
    cbn [fst snd]. rewrite Hconn. cbn [fst snd]. rewrite (Hacc ConnectionClose).
    eexists _, fs, ls. split; [reflexivity|].
    cbn [fst snd sent stdout slept dials with_sent with_stdout].
    rewrite Hsent, Hout. rewrite <- ?app_assoc. cbn [app].
    rewrite <- ?app_assoc. cbn [app].
    repeat split; assumption.
  - exists (self, w'), fs, ls. split; [reflexivity|]. cbn [fst snd].
    rewrite Hsent, Hout, !app_nil_r. rewrite <- ?app_assoc. cbn [app].
    rewrite <- ?app_assoc. cbn [app].
    repeat split; assumption.
Qed.

(** X11. When [OUTPUT_FOLDER] is set to the empty string the script
    cannot start: [os.makedirs] raises [FileNotFoundError] in the
    constructor, after the five lines of the configuration and before the
    line about the folder; no directory is created, no connection is
    attempted, nothing is sent, and the process exits with code 1. *)
Theorem X11_empty_folder_ends_the_script events st :
  getenv env "OUTPUT_FOLDER" = Some [] ->
  exists st',
    init env st = Raise (LibraryError "FileNotFoundError") st'
    /\ stdout (snd st')
       = stdout (snd st)
         ++ [ProcessorStarting; ConfigUrl (rabbitmq_url (fst st'));
             ConfigVHost (vhost (fst st')); ConfigExchange (exchange (fst st'));
             ConfigOutputFolder []]
    /\ dirs (snd st') = dirs (snd st)
    /\ dials (snd st') = dials (snd st)
    /\ sent (snd st') = sent (snd st)
    /\ main env events st = (Exited 1, snd st').
Proof.
  intros Hget.
  assert (Herr : folder_error env = Some (LibraryError "FileNotFoundError")).
  { unfold folder_error, os_getenv. rewrite Hget. reflexivity. }
  exists (halted env st). rewrite init_spec, Herr.
  split; [reflexivity|].
  split; [unfold halted, os_getenv; rewrite Hget; reflexivity|].
  split; [reflexivity|]. split; [reflexivity|]. split; [reflexivity|].
  apply (main_init_raises env events st _ Herr).
Qed.

(** X12. When [connect] returns the processor is set up: it holds a
    connection and a channel opened on it, and the queue name the broker
    gave; the exchange was declared as a durable topic exchange, an
    exclusive queue with an empty name was declared, and the queue was
    bound with the pattern expense.*, in this order and nothing else; the
    binding is the last line printed; the configuration and the files are
    as before. *)
Theorem X12_connect_returns_set_up st st2 :
  connect env st = Return tt st2 ->
  (exists c, connection (fst st2) = Some c /\ channel (fst st2) = Some c)
  /\ queue_name (fst st2) = Some (server_queue_name env)
  /\ sent (snd st2)
     = sent (snd st)
       ++ [ExchangeDeclare (exchange (fst st)) (str "topic") true;
           QueueDeclare [] true;
           QueueBind (exchange (fst st)) (server_queue_name env) (str "expense.*")]
  /\ (exists before,
        stdout (snd st2)
        = before ++ [QueueBound (server_queue_name env) (exchange (fst st))])
  /\ rabbitmq_url (fst st2) = rabbitmq_url (fst st)
  /\ vhost (fst st2) = vhost (fst st)
  /\ exchange (fst st2) = exchange (fst st)
  /\ output_folder (fst st2) = output_folder (fst st)
  /\ files (snd st2) = files (snd st).
Proof.
  intros (st1 & c & _ & Hconn & Hchan & Hs & Hself & Hworld)%connect_returns_inv.
  destruct Hs as (Hu & Hv & Hex & Hof & Hfl & _).
  rewrite Hself, Hworld.
  cbn [fst snd connection channel queue_name rabbitmq_url vhost exchange
         output_folder with_queue_name sent stdout files with_sent with_stdout].
  repeat split; eauto.
Qed.

(** X13. Whatever the transport and the broker answer, and whether
    [connect] returns or raises: it makes between one and five attempts,
    sleeps five seconds between two attempts and so at most twenty in
    all, dials at most one connection an attempt, changes no file, and
    sends a prefix of the three requests of the setup and nothing else. *)
Theorem X13_connect_is_bounded st :
  exists k j,
    (1 <= k <= 5)%nat /\ (j <= 3)%nat
    /\ attempts_logged (stdout (snd (final_state (connect env st))))
       = (attempts_logged (stdout (snd st)) + k)%nat
    /\ slept (snd (final_state (connect env st)))
       = slept (snd st) + 5 * N.of_nat (k - 1)
    /\ (dials (snd (final_state (connect env st))) <= dials (snd st) + k)%nat
    /\ files (snd (final_state (connect env st))) = files (snd st)
    /\ sent (snd (final_state (connect env st)))
       = sent (snd st) ++ take j (setup_frames env st).
Proof.
  destruct (connect_loop_run max_retries 0 st eq_refl ltac:(unfold max_retries; lia))
    as (k & Hk & Hs & Hlog & Hslept & Hdials & Hend).
  change (max_retries - 0)%nat with max_retries in *.
  unfold connect, mbind, M_bind.
  destruct (connect_loop env (seq 0 max_retries) st) as [[] st1|e st1];
    cbn [final_state] in *.
  - destruct Hend as (c & _ & Hchan).
    assert (Hfr : setup_frames env st1 = setup_frames env st).
    { unfold setup_frames. destruct Hs as (_ & _ & -> & _). reflexivity. }
    destruct Hs as (_ & _ & _ & _ & Hfl & Hse).
    pose proof (declare_and_bind_spec env st1 c Hchan) as Hb.
    destruct (first_refusal env (setup_frames env st1) 0) as [[e n]|] eqn:Hr.
    + destruct Hb as (st' & -> & Hsent & Hout & Hsl & Hdi & Hf).
      apply first_refusal_count in Hr. cbn [length setup_frames] in Hr.
      exists k, n. cbn [final_state].
      rewrite Hout, Hsl, Hdi, Hf, Hsent, Hfr, Hse, Hfl.
      unfold max_retries, retry_delay in *. repeat split; lia.
    + destruct Hb as (st' & Hrun & _). rewrite Hrun.
      apply declare_and_bind_returns in Hrun as (_ & _ & Hw).
      exists k, 3%nat. cbn [final_state]. rewrite Hw.
      cbn [stdout slept dials files sent with_stdout with_sent].
      rewrite attempts_logged_app, Hfr, Hse, Hfl.
      cbn [attempts_logged List.filter length take setup_frames].
      unfold max_retries, retry_delay in *. repeat split; lia.
  - destruct Hs as (_ & _ & _ & _ & Hfl & Hse).
    exists k, 0%nat. cbn [take]. rewrite app_nil_r.
    unfold max_retries, retry_delay in *. repeat split; congruence || lia.
Qed.

(** X14. A URL that [pika.URLParameters] refuses is refused inside the
    [try] block, so it is retried like a failure of the transport: five
    attempts and twenty seconds of sleep before [connect] raises the
    error, though no connection is ever dialled and nothing is sent. *)
Theorem X14_refused_url_never_dials st e :
  url_fault env (url_of st) = Some e ->
  exists st',
    connect env st = Raise e st'
    /\ dials (snd st') = dials (snd st)
    /\ attempts_logged (stdout (snd st'))
       = (attempts_logged (stdout (snd st)) + 5)%nat
    /\ slept (snd st') = slept (snd st) + 20
    /\ sent (snd st') = sent (snd st)
    /\ connection (fst st') = connection (fst st)
    /\ channel (fst st') = channel (fst st).
Proof.
  intros Hu.
  destruct (connect_loop_refused_url e max_retries 0 st eq_refl
              ltac:(unfold max_retries; lia) Hu)
    as (st' & Hrun & Hs & Hd & Hc & Hch).
  destruct (connect_loop_run max_retries 0 st eq_refl ltac:(unfold max_retries; lia))
    as (k & _ & _ & Hlog & Hslept & _ & Hend).
  change (max_retries - 0)%nat with max_retries in *.
  rewrite Hrun in Hlog, Hslept, Hend. cbn [final_state] in *. subst k.
  exists st'. split; [apply connect_loop_raises; exact Hrun|].
  destruct Hs as (_ & _ & _ & _ & _ & Hse).
  unfold max_retries, retry_delay in *. cbn in Hslept.
  repeat split; assumption.
Qed.

(** X15. Consuming, on a processor that holds a connection, a channel and
    a queue name as it does after [connect], with a broker that refuses
    no method: the consumer registers on its queue, prints that it waits
    and listens, and confirms the deliveries that come before the first
    other event one by one, in their order, each with an ack or a nack
    without requeue that carries its tag, printing one line for each. A
    delivery that comes after the interrupt is not handled. On the
    interrupt, and only then, it prints that it stops, cancels the
    consumer and closes the connection, in this order, and returns. An
    error of the library's loop leaves [start_consuming], and then the
    connection is not closed. The fields of the processor do not change. *)
Theorem X15_start_consuming_run events st c ch q :
  accepting env ->
  connection (fst st) = Some c ->
  channel (fst st) = Some ch -> queue_name (fst st) = Some q ->
  exists st' fs ls,
    start_consuming env events st
    = match ending_of events with
      | StillWaiting => Return Waiting st'
      | ByInterrupt => Return Interrupted st'
      | ByError e => Raise e st'
      end
    /\ Forall2 confirms (delivered events) fs
    /\ sent (snd st')
       = sent (snd st) ++ BasicConsume q :: fs
         ++ match ending_of events with
            | ByInterrupt => [BasicCancel; ConnectionClose]
            | _ => []
            end
    /\ Forall handler_line ls
    /\ length ls = length (delivered events)
    /\ stdout (snd st')
       = stdout (snd st)
         ++ WaitingForMessages (exchange (fst st)) :: ListeningOnQueue q :: ls
         ++ match ending_of events with
            | ByInterrupt => [StoppingConsumer]
            | _ => []
            end
    /\ fst st' = fst st.
Proof.
  intros Hacc Hconn Hch Hq.
  destruct (start_consuming_spec events st c ch q Hacc Hconn Hch Hq)
    as (st' & fs & ls & Hrun & Hself & Hfs & Hsent & Hls & Hlen & Hout & _).
  exists st', fs, ls. repeat split; assumption.
Qed.

(** X16. A processor that was constructed and not connected cannot
    consume: [start_consuming] raises an [AttributeError] for the channel
    before anything is sent. *)
Theorem X16_consuming_needs_connect events st st0 :
  init env st = Return tt st0 ->
  start_consuming env events st0 = Raise (AttributeError "channel") st0
  /\ (init env;; start_consuming env events) st
     = Raise (AttributeError "channel") st0
  /\ sent (snd st0) = sent (snd st)
  /\ files (snd st0) = files (snd st).
Proof.
  intros Hinit.
  assert (Hst : st0 = booted env st).
  { rewrite init_spec in Hinit. destruct (folder_error env); congruence. }
  assert (Hrun : start_consuming env events st0
                 = Raise (AttributeError "channel") st0)
    by (subst st0; reflexivity).
  split; [exact Hrun|].
  split; [unfold mbind, M_bind; rewrite Hinit; exact Hrun|].
  subst st0. split; reflexivity.
Qed.

(** X17. How the process ends. Whatever the environment answers, it exits
    with code 0 only when the interrupt is the first event that is not a
    delivery, and it is still consuming only when every event is a
    delivery; so an error of the library's loop that comes before any
    interrupt always ends it with code 1. With a broker that refuses
    nothing, once the constructor and [connect] have returned, the events
    alone decide: code 0 on the interrupt, code 1 on an error of the
    loop, and no delivery, whatever its payload, ends the process. *)
Theorem X17_main_status events st :
  (fst (main env events st) = Exited 0 -> ending_of events = ByInterrupt)
  /\ (fst (main env events st) = Consuming -> ending_of events = StillWaiting)
  /\ (forall e, ending_of events = ByError e -> fst (main env events st) = Exited 1)
  /\ (forall st0 st1,
        accepting env ->
        init env st = Return tt st0 -> connect env st0 = Return tt st1 ->
        fst (main env events st)
        = match ending_of events with
          | StillWaiting => Consuming
          | ByInterrupt => Exited 0
          | ByError _ => Exited 1
          end).
Proof.
  assert (Hgen : match fst (main env events st) with
                 | Exited 0 => ending_of events = ByInterrupt
                 | Exited _ => True
                 | Consuming => ending_of events = StillWaiting
                 end).
  { unfold main, mbind, M_bind.
    destruct (init env st) as [[] st0|e st0]; [|exact I].
    destruct (connect env st0) as [[] st1|e st1]; [|exact I].
    pose proof (start_consuming_ending events st1) as Hend.
    destruct (start_consuming env events st1) as [[|] st2|e st2];
      [exact Hend | exact Hend | exact I]. }
  split; [intros H; rewrite H in Hgen; exact Hgen|].
  split; [intros H; rewrite H in Hgen; exact Hgen|].
  split.
  - intros e He. rewrite He in Hgen.
    destruct (fst (main env events st)) as [[|code]|] eqn:Hm;
      [discriminate | | discriminate].
    revert Hm. unfold main, mbind, M_bind.
    destruct (init env st) as [[] st0|e0 st0]; [|intros [= <-]; reflexivity].
    destruct (connect env st0) as [[] st1|e1 st1]; [|intros [= <-]; reflexivity].
    destruct (start_consuming env events st1) as [[|] st2|e2 st2];
      intros [= <-]; reflexivity.
  - intros st0 st1 Hacc Hinit Hc. unfold main, mbind, M_bind. rewrite Hinit, Hc.
    apply connect_returns_inv in Hc
      as (st0' & c & _ & Hconn & Hchan & _ & Hself & _).
    destruct (start_consuming_spec events st1 c c (server_queue_name env) Hacc)
      as (st' & fs & ls & -> & _).
    + rewrite Hself. exact Hconn.
    + rewrite Hself. exact Hchan.
    + rewrite Hself. reflexivity.
    + destruct (ending_of events); reflexivity.
Qed.

(** X18. The methods of a whole run in which the constructor and
    [connect] return, with a broker that refuses nothing: the three
    requests of the setup for the exchange of the configuration, the
    registration of the consumer on the queue the broker named, one
    confirmation for each delivery before the first other event, in
    order, and, when that event is the interrupt, the cancellation and the
    closing of the connection. *)
Theorem X18_main_frames events st st0 st1 :
  accepting env ->
  init env st = Return tt st0 -> connect env st0 = Return tt st1 ->
  exists fs,
    Forall2 confirms (delivered events) fs
    /\ sent (snd (main env events st))
       = sent (snd st)
         ++ [ExchangeDeclare (exchange (fst st0)) (str "topic") true;
             QueueDeclare [] true;
             QueueBind (exchange (fst st0)) (server_queue_name env)
               (str "expense.*");
             BasicConsume (server_queue_name env)]
         ++ fs
         ++ match ending_of events with
            | ByInterrupt => [BasicCancel; ConnectionClose]
            | _ => []
            end.
Proof.
  intros Hacc Hinit Hc. unfold main, mbind, M_bind. rewrite Hinit, Hc.
  assert (Hst0 : sent (snd st0) = sent (snd st)).
  { rewrite init_spec in Hinit. destruct (folder_error env); [discriminate|].
    injection Hinit as <-. reflexivity. }
  apply connect_returns_inv in Hc
    as (st0' & c & _ & Hconn & Hchan & _ & Hself & Hworld).
  destruct (start_consuming_spec events st1 c c (server_queue_name env) Hacc)
    as (st' & fs & ls & -> & _ & Hfs & Hsent & _).
  - rewrite Hself. exact Hconn.
  - rewrite Hself. exact Hchan.
  - rewrite Hself. reflexivity.
  - exists fs. split; [exact Hfs|].
    assert (Hs : sent (snd st') = sent (snd st)
         ++ [ExchangeDeclare (exchange (fst st0)) (str "topic") true;
             QueueDeclare [] true;
             QueueBind (exchange (fst st0)) (server_queue_name env)
               (str "expense.*");
             BasicConsume (server_queue_name env)]
         ++ fs
         ++ match ending_of events with
            | ByInterrupt => [BasicCancel; ConnectionClose]
            | _ => []
            end).
    { rewrite Hsent, Hworld. cbn [sent with_stdout with_sent].
      unfold setup_frames. rewrite Hst0.
      rewrite <- ?app_assoc. reflexivity. }
    destruct (ending_of events); exact Hs.
Qed.

(** The files after one delivery, however the handler ends: the same, or
    one more write. *)
Lemma callback_files k tag body st :
  dirs (snd (final_state (callback env k tag body st))) = dirs (snd st)
  /\ (files (snd (final_state (callback env k tag body st))) = files (snd st)
      \/ parses body = true
         /\ exists content,
              files (snd (final_state (callback env k tag body st)))
              = <[filepath_of env st k := content]> (files (snd st))).
Proof.
  rewrite callback_cases. unfold parses.
  destruct (Utf8.decode body) as [text|];
    [destruct (json_loads text) as [v|];
     [cbv zeta; destruct (open_fault env _) as [e|];
      [|destruct (write_fault env _ _) as [[e n]|]]|]|];
    rewrite ?nacked_final, ?acked_final;
    try destruct (broker_fault env (BasicAck tag));
    unfold rejected, acknowledged, stored, ticked;
    cbn [fst snd files dirs with_sent with_stdout with_files with_clock_reads];
    (split; [reflexivity|]); eauto.
Qed.

(** X19. The consumer never deletes a file: a path that holds a file
    before the deliveries holds one after them, however the loop ends.
    There is at most one file more for each handled delivery whose
    payload parses, and no directory is created or removed. *)
Theorem X19_consumer_never_deletes events : forall st,
  (forall p, is_Some (files (snd st) !! p) ->
             is_Some (files (snd (final_state (dispatch env events st))) !! p))
  /\ (size (files (snd (final_state (dispatch env events st))))
      <= size (files (snd st))
         + length (List.filter (fun d => parses (snd d)) (delivered events)))%nat
  /\ dirs (snd (final_state (dispatch env events st))) = dirs (snd st).
Proof.
  induction events as [|[k tag body| |e] later IH]; intros st;
    try (cbn [dispatch delivered List.filter length]; unfold mret, M_ret, raise;
         cbn [final_state]; repeat split; [auto | lia]).
  destruct (callback_files k tag body st) as (Hdirs & Hfiles).
  cbn [dispatch delivered List.filter snd]. unfold mbind, M_bind.
  assert (Hstep :
    exists st1,
      final_state (callback env k tag body st) = st1
      /\ ((forall p, is_Some (files (snd st1) !! p) ->
             is_Some (files (snd (final_state
                        match callback env k tag body st with
                        | Return _ st' => dispatch env later st'
                        | Raise e st' => Raise e st'
                        end)) !! p))
          /\ (size (files (snd (final_state
                        match callback env k tag body st with
                        | Return _ st' => dispatch env later st'
                        | Raise e st' => Raise e st'
                        end)))
              <= size (files (snd st1))
                 + length (List.filter (fun d => parses (snd d)) (delivered later)))%nat
          /\ dirs (snd (final_state
                        match callback env k tag body st with
                        | Return _ st' => dispatch env later st'
                        | Raise e st' => Raise e st'
                        end)) = dirs (snd st1))).
  { destruct (callback env k tag body st) as [[] st1|e st1]; exists st1;
      cbn [final_state]; (split; [reflexivity|]);
      [apply IH | repeat split; [auto | lia]]. }
  destruct Hstep as (st1 & Hst1 & Hkeep & Hsize & Hdirs').
  rewrite Hst1 in Hdirs, Hfiles.
  destruct Hfiles as [Hsame|(Hp & content & Hput)].
  - rewrite Hsame in *. split; [exact Hkeep|]. split; [|congruence].
    destruct (parses body); cbn [length]; lia.
  - rewrite Hp. cbn [length]. split; [|split; [|congruence]].
    + intros p Hin. apply Hkeep. rewrite Hput.
      apply lookup_insert_is_Some'. right. exact Hin.
    + rewrite Hput, map_size_insert in Hsize.
      destruct (files (snd st) !! filepath_of env st k); cbn [id] in Hsize; lia.
Qed.

End RunFurther.

(** * The properties at work: the scenarios *)

#[local] Existing Instance text_floats.

(** C1 at the example of the specification: the object is stored under
    its time stamp and routing key, and acknowledged; with a routing key
    whose file cannot be opened, and on a disk that is full, the message
    is rejected. *)
Lemma C1_witness :
  Utf8.decode food_payload = Some food_payload
  /\ json_loads food_payload = Some food_value
  /\ (exists st' content,
       callback quiet_env (str "expense.food") 1 food_payload (ready_self, empty_world)
       = Return tt st'
       /\ files (snd st') = <[food_path := content]> ∅
       /\ json_loads content = Some food_value
       /\ sent (snd st') = [BasicAck 1])
  /\ (exists st',
        callback quiet_env (str "expense.a/b") 7 food_payload (ready_self, empty_world)
        = Return tt st'
        /\ files (snd st') = ∅
        /\ sent (snd st') = [BasicNack 7 false])
  /\ (exists st',
        callback (full_disk_env 10) (str "expense.food") 8 food_payload
          (ready_self, empty_world)
        = Return tt st'
        /\ sent (snd st') = [BasicNack 8 false]).
Proof.
  assert (Hd : Utf8.decode food_payload = Some food_payload)
    by (vm_compute; reflexivity).
  assert (Hl : json_loads food_payload = Some food_value)
    by (vm_compute; reflexivity).
  split; [exact Hd|]. split; [exact Hl|]. split; [|split].
  - destruct (proj1 (C1_decoded_message_persisted quiet_env (str "expense.food") 1
                       food_payload (ready_self, empty_world) food_payload food_value
                       Hd Hl))
      as (st' & content & Hrun & Hfiles & _ & Hload & Hsent);
      [vm_compute; reflexivity | vm_compute; reflexivity |].
    exists st', content. split; [exact Hrun|]. split; [exact Hfiles|].
    split; [exact Hload | exact Hsent].
  - destruct (proj1 (proj2 (C1_decoded_message_persisted quiet_env
                              (str "expense.a/b") 7 food_payload
                              (ready_self, empty_world) food_payload food_value
                              Hd Hl))
                (LibraryError "FileNotFoundError"))
      as (st' & Hrun & Hfiles & Hsent & _); [vm_compute; reflexivity|].
    exists st'. split; [exact Hrun|]. split; [exact Hfiles | exact Hsent].
  - destruct (proj2 (proj2 (C1_decoded_message_persisted (full_disk_env 10)
                              (str "expense.food") 8 food_payload
                              (ready_self, empty_world) food_payload food_value
                              Hd Hl))
                (LibraryError "OSError") 10%nat)
      as (st' & Hrun & _ & Hsent & _);
      [vm_compute; reflexivity | vm_compute; reflexivity |].
    exists st'. split; [exact Hrun | exact Hsent].
Defined.

(** C1 as stated fails: the routing key expense.a/b matches the binding,
    the payload is the well-formed object of the example, and the path of
    the file lies in a directory that does not exist. Opening raises, no
    file is created and the message is rejected, not acknowledged. *)
Lemma C1_counterexample :
  Utf8.decode food_payload = Some food_payload
  /\ json_loads food_payload = Some food_value
  /\ callback (PF := text_floats) quiet_env (str "expense.a/b") 7 food_payload
       (ready_self, empty_world)
     = Return tt
         (rejected (LibraryError "FileNotFoundError") 7
            (ticked (ready_self, empty_world)))
  /\ files (snd (rejected (LibraryError "FileNotFoundError") 7
                   (ticked (ready_self, empty_world)))) = ∅
  /\ sent (snd (rejected (LibraryError "FileNotFoundError") 7
                  (ticked (ready_self, empty_world)))) = [BasicNack 7 false].
Proof. repeat split; vm_compute; reflexivity. Qed.


(** C3 with a transport that refuses two connections, and with one that
    refuses five. *)
Lemma C3_witness :
  (exists st',
     connect_loop (flaky_env 2) (seq 0 max_retries) (fresh_self, empty_world)
     = Return tt st'
     /\ attempts_logged (stdout (snd st')) = 3%nat
     /\ dials (snd st') = 3%nat
     /\ slept (snd st') = 10
     /\ connection (fst st') = Some 2%nat
     /\ channel (fst st') = Some 2%nat)
  /\ (exists e st',
        connect (flaky_env 5) (fresh_self, empty_world) = Raise e st'
        /\ attempt_error (flaky_env 5)
             (url_of (fresh_self, empty_world)) 4 = Some e
        /\ attempts_logged (stdout (snd st')) = 5%nat
        /\ slept (snd st') = 20).
Proof.
  split.
  - apply (proj1 (C3_connect_retries_then_gives_up (PF := text_floats) (flaky_env 2)
                    (fresh_self, empty_world)) 2%nat).
    + lia.
    + intros [|[|i]] Hi; [discriminate | discriminate | lia].
    + reflexivity.
  - destruct (proj2 (C3_connect_retries_then_gives_up (PF := text_floats) (flaky_env 5)
                       (fresh_self, empty_world)))
      as (e & st' & Hrun & Hlast & Hlog & Hslept & _).
    + intros [|[|[|[|[|i]]]]] Hi; try discriminate. lia.
    + exists e, st'. repeat split; assumption.
Defined.



(** C5 as stated fails: a file of the same name exists, and the handler
    neither fails nor keeps it: the old content is gone, the message is
    acknowledged. *)
Lemma C5_counterexample :
  let st := (ready_self, with_files {[food_path := str "old"]} empty_world) in
  filepath_of quiet_env st (str "expense.food") = food_path
  /\ files (snd st) !! food_path = Some (str "old")
  /\ callback (PF := text_floats) quiet_env (str "expense.food") 1 food_payload st
     = Return tt (acknowledged food_filename 1 (stored food_path food_text (ticked st)))
  /\ files (snd (acknowledged food_filename 1 (stored food_path food_text (ticked st))))
     !! food_path = Some food_text
  /\ sent (snd (acknowledged food_filename 1 (stored food_path food_text (ticked st))))
     = [BasicAck 1].
Proof. repeat split; vm_compute; reflexivity. Qed.

(** C5 (amended) on the same state. *)
Lemma C5_witness :
  let st := (ready_self, with_files {[food_path := str "old"]} empty_world) in
  files (snd st) !! filepath_of quiet_env st (str "expense.food") = Some (str "old")
  /\ exists st',
       callback quiet_env (str "expense.food") 1 food_payload st = Return tt st'
       /\ files (snd (final_state
                        (callback quiet_env (str "expense.food") 1 food_payload st)))
          !! filepath_of quiet_env st (str "expense.food")
          = Some (json_dumps food_value)
       /\ (forall p, p <> filepath_of quiet_env st (str "expense.food") ->
             files (snd (final_state
                           (callback quiet_env (str "expense.food") 1 food_payload st)))
             !! p
             = files (snd st) !! p)
       /\ sent (snd st') = sent (snd st) ++ [BasicAck 1].
Proof.
  intros st. split; [vm_compute; reflexivity|].
  apply (C5_existing_file_replaced quiet_env (str "expense.food") 1 food_payload st
           food_payload food_value (str "old"));
    vm_compute; reflexivity.
Defined.

(** C6 with two messages of the quiet world, one after the other. *)
Lemma C6_witness :
  str "expense.food" <> str "expense.travel"
  /\ exists st1 st2,
       callback quiet_env (str "expense.food") 1 food_payload (ready_self, empty_world)
       = Return tt st1
       /\ callback quiet_env (str "expense.travel") 2 list_payload st1 = Return tt st2
       /\ filepath_of quiet_env (ready_self, empty_world) (str "expense.food")
          <> filepath_of quiet_env st1 (str "expense.travel")
       /\ files (snd st2)
          !! filepath_of quiet_env (ready_self, empty_world) (str "expense.food")
          = Some (json_dumps food_value)
       /\ files (snd st2) !! filepath_of quiet_env st1 (str "expense.travel")
          = Some (json_dumps (JList [JInt 1; JInt 2])).
Proof.
  assert (Hk : str "expense.food" <> str "expense.travel") by discriminate.
  split; [exact Hk|].
  destruct (callback_returns quiet_env (str "expense.food") 1 food_payload
              (ready_self, empty_world) eq_refl eq_refl) as [st1 H1].
  destruct (callback_returns quiet_env (str "expense.travel") 2 list_payload st1
              eq_refl eq_refl)
    as [st2 H2].
  exists st1, st2. split; [exact H1|]. split; [exact H2|].
  assert (Hst1 : st1 = acknowledged food_filename 1
                         (stored food_path food_text (ticked (ready_self, empty_world)))).
  { assert (H : Return tt st1
                = Return tt (acknowledged food_filename 1
                               (stored food_path food_text
                                  (ticked (ready_self, empty_world)))))
      by (rewrite <- H1; vm_compute; reflexivity).
    injection H as H. exact H. }
  apply (proj2 (C6_distinct_keys_distinct_files quiet_env (str "expense.food")
                  (str "expense.travel") Hk)
           1 food_payload food_payload food_value
           2 list_payload list_payload (JList [JInt 1; JInt 2])
           (ready_self, empty_world) st1 st2);
    try exact H1; try exact H2; try (subst st1; vm_compute; reflexivity).
  intros n. unfold datetime_ok, quiet_env, clock, year, month, day, hour, minute,
    second, microsecond.
  repeat (apply andb_true_intro; split); try reflexivity.
  apply N.leb_le.
  pose proof (N.mod_upper_bound (6 + N.of_nat n) 1000000 ltac:(discriminate)). lia.
Defined.

(** C7 at the example of the specification. *)
Lemma C7_witness :
  processed quiet_env (ready_self, empty_world) (str "expense.food") food_payload = true
  /\ exists st',
       callback quiet_env (str "expense.food") 1 food_payload (ready_self, empty_world)
       = Return tt st'
       /\ files (snd st') !! food_path = Some food_text
       /\ json_loads food_text = Some food_value
       /\ stdout (snd st') = [MessageSaved food_filename].
Proof.
  split; [vm_compute; reflexivity|].
  destruct (C7_path_and_content quiet_env (str "expense.food") 1 food_payload
              (ready_self, empty_world) food_payload food_value)
    as (st' & Hc & Hf & Hl & Hout & _); try (vm_compute; reflexivity).
  exists st'. split; [exact Hc|]. rewrite Hc in Hf.
  split; [exact Hf|]. split; [exact Hl | exact Hout].
Defined.

(** C8 with a payload that holds an accented letter: the two bytes of the
    letter become an escape of six ASCII characters. *)
Lemma C8_witness :
  callback quiet_env (str "expense.food") 1 cafe_payload (ready_self, empty_world)
  = Return tt (acknowledged food_filename 1
                 (stored food_path cafe_text (ticked (ready_self, empty_world))))
  /\ escape_char 0xE9 = str "\u00e9"
  /\ ascii_text cafe_text.
Proof.
  assert (Hc : callback quiet_env (str "expense.food") 1 cafe_payload
                 (ready_self, empty_world)
               = Return tt (acknowledged food_filename 1
                              (stored food_path cafe_text
                                 (ticked (ready_self, empty_world)))))
    by (vm_compute; reflexivity).
  split; [exact Hc|].
  destruct (C8_output_is_ascii quiet_env (str "expense.food") 1 cafe_payload
              (ready_self, empty_world) _ (f_equal final_state Hc))
    as (Hfiles & _ & Hesc & _).
  split; [rewrite (Hesc 0xE9) by lia; reflexivity|].
  destruct (Hfiles food_path cafe_text) as [H|H];
    [vm_compute; reflexivity | vm_compute in H; discriminate | exact H].
Defined.

(** C9 with a payload that is an array. *)
Lemma C9_witness :
  json_loads list_payload = Some (JList [JInt 1; JInt 2])
  /\ exists st',
       callback quiet_env (str "expense.food") 1 list_payload (ready_self, empty_world)
       = Return tt st'
       /\ files (snd st')
          = <[food_path
              := str "[" ++ NEWLINE :: str "  1," ++ NEWLINE :: str "  2"
                 ++ NEWLINE :: str "]"]> ∅
       /\ json_loads (str "[" ++ NEWLINE :: str "  1," ++ NEWLINE :: str "  2"
                      ++ NEWLINE :: str "]")
          = Some (JList [JInt 1; JInt 2])
       /\ sent (snd st') = [BasicAck 1]
       /\ stdout (snd st') = [MessageSaved food_filename].
Proof.
  split; [vm_compute; reflexivity|].
  destruct (proj1 (C9_any_json_value_persisted quiet_env (str "expense.food") 1
                     list_payload (ready_self, empty_world) list_payload
                     (JList [JInt 1; JInt 2])
                     ltac:(vm_compute; reflexivity) ltac:(vm_compute; reflexivity)
                     ltac:(vm_compute; reflexivity) ltac:(vm_compute; reflexivity)))
    as (st' & Hrun & Hfiles & _ & Hload & Hsent & Hout).
  exists st'. split; [exact Hrun|]. split; [exact Hfiles|].
  split; [exact Hload|]. split; [exact Hsent | exact Hout].
Defined.

(** C10 with a broker that refuses the queue declaration: two requests
    are sent, and the process exits with code 1 after one attempt. *)
Lemma C10_witness :
  let env := refusing_env (fun f => match f with QueueDeclare _ _ => true | _ => false end) in
  let st := booted env (fresh_self, empty_world) in
  exists st2,
    connect env st = Raise (LibraryError "ChannelClosedByBroker") st2
    /\ attempts_logged (stdout (snd st2)) = 1%nat
    /\ slept (snd st2) = 0
    /\ fst (main env [] (fresh_self, empty_world)) = Exited 1.
Proof.
  intros env st.
  set (st1 := match connect_loop env (seq 0 max_retries) st with
              | Return _ s | Raise _ s => s
              end).
  destruct (C10_setup_failure_not_retried env st st1
              (LibraryError "ChannelClosedByBroker") 2)
    as (st2 & Hc & Hsent & _ & Hout & Hslept & _ & Hmain);
    [vm_compute; reflexivity | vm_compute; reflexivity |].
  exists st2. split; [exact Hc|].
  split; [rewrite Hout; vm_compute; reflexivity|].
  split; [rewrite Hslept; vm_compute; reflexivity|].
  apply Hmain. reflexivity.
Defined.


(** X2 with the routing key expense.a/b, whose file would lie in a
    directory that does not exist. *)
Lemma X2_witness :
  Utf8.decode food_payload = Some food_payload
  /\ json_loads food_payload = Some food_value
  /\ open_fault quiet_env
       (filepath_of quiet_env (ready_self, empty_world) (str "expense.a/b"))
     = Some (LibraryError "FileNotFoundError")
  /\ exists st',
       callback quiet_env (str "expense.a/b") 7 food_payload (ready_self, empty_world)
       = Return tt st'
       /\ files (snd st') = ∅
       /\ sent (snd st') = [BasicNack 7 false]
       /\ stdout (snd st')
          = [ErrorProcessingMessage (LibraryError "FileNotFoundError")]
       /\ clock_reads (snd st') = 1%nat.
Proof.
  split; [vm_compute; reflexivity|]. split; [vm_compute; reflexivity|].
  split; [vm_compute; reflexivity|].
  apply (X2_open_failure_rejects quiet_env (str "expense.a/b") 7 food_payload
           (ready_self, empty_world) food_payload food_value);
    vm_compute; reflexivity.
Defined.

(** X3 with a disk that is full after ten characters, and an older file of
    the same name. *)
Lemma X3_witness :
  let st := (ready_self, with_files {[food_path := str "old"]} empty_world) in
  Utf8.decode food_payload = Some food_payload
  /\ json_loads food_payload = Some food_value
  /\ exists st',
       callback (full_disk_env 10) (str "expense.food") 1 food_payload st
       = Return tt st'
       /\ files (snd st') !! filepath_of (full_disk_env 10) st (str "expense.food")
          = Some (take 10 (pretty food_value 0))
       /\ (forall p, p <> filepath_of (full_disk_env 10) st (str "expense.food") ->
             files (snd st') !! p = files (snd st) !! p)
       /\ sent (snd st') = sent (snd st) ++ [BasicNack 1 false]
       /\ stdout (snd st')
          = stdout (snd st) ++ [ErrorProcessingMessage (LibraryError "OSError")].
Proof.
  intros st. split; [vm_compute; reflexivity|]. split; [vm_compute; reflexivity|].
  apply (X3_write_failure_leaves_partial_file (full_disk_env 10) (str "expense.food") 1
           food_payload st food_payload food_value (LibraryError "OSError") 10);
    vm_compute; reflexivity.
Defined.

(** X5 with a payload cut off by the byte FF after its first character. *)
Lemma X5_witness :
  ascii_text (str "{")
  /\ (0x80 <= 0xFF < 0xC2 \/ 0xF5 <= 0xFF)
  /\ exists st',
       callback (PF := text_floats) quiet_env (str "expense.food") 4
         (str "{" ++ 0xFF :: str "}") (ready_self, empty_world)
       = Return tt st'
       /\ files (snd st') = ∅
       /\ sent (snd st') = [BasicNack 4 false]
       /\ stdout (snd st') = [ErrorProcessingMessage UnicodeDecodeError]
       /\ clock_reads (snd st') = 0%nat.
Proof.
  assert (Hp : ascii_text (str "{")) by (repeat constructor).
  assert (Hb : 0x80 <= 0xFF < 0xC2 \/ 0xF5 <= 0xFF) by (right; lia).
  split; [exact Hp|]. split; [exact Hb|].
  exact (X5_invalid_lead_byte_rejected (PF := text_floats) quiet_env
           (str "expense.food") 4 (str "{") 0xFF (str "}") (ready_self, empty_world)
           Hp Hb).
Defined.

(** X6 with the example of the specification. *)
Lemma X6_witness :
  Utf8.decode food_payload = Some food_payload
  /\ json_loads food_payload = Some food_value
  /\ Utf8.decode (json_dumps food_value) = Some (json_dumps food_value)
  /\ json_loads (json_dumps food_value) = Some food_value
  /\ forall k tag st,
       open_fault quiet_env (filepath_of quiet_env st k) = None ->
       write_fault quiet_env (filepath_of quiet_env st k) (json_dumps food_value)
       = None ->
       exists st',
         callback quiet_env k tag (json_dumps food_value) st = Return tt st'
         /\ files (snd (final_state
                          (callback quiet_env k tag (json_dumps food_value) st)))
            !! filepath_of quiet_env st k = Some (json_dumps food_value)
         /\ sent (snd st') = sent (snd st) ++ [BasicAck tag].
Proof.
  split; [vm_compute; reflexivity|]. split; [vm_compute; reflexivity|].
  apply (X6_stored_text_is_stable quiet_env food_payload food_payload food_value);
    vm_compute; reflexivity.
Defined.

(** X7 with the object of the example and an array: two values, two
    texts. *)
Lemma X7_witness :
  Utf8.decode food_payload = Some food_payload
  /\ json_loads food_payload = Some food_value
  /\ Utf8.decode list_payload = Some list_payload
  /\ json_loads list_payload = Some (JList [JInt 1; JInt 2])
  /\ food_value <> JList [JInt 1; JInt 2]
  /\ json_dumps food_value <> json_dumps (JList [JInt 1; JInt 2]).
Proof.
  assert (Hne : food_value <> JList [JInt 1; JInt 2]) by discriminate.
  split; [vm_compute; reflexivity|]. split; [vm_compute; reflexivity|].
  split; [vm_compute; reflexivity|]. split; [vm_compute; reflexivity|].
  split; [exact Hne|].
  apply (X7_distinct_values_distinct_texts food_payload food_payload food_value
           list_payload list_payload (JList [JInt 1; JInt 2]));
    [vm_compute; reflexivity | vm_compute; reflexivity | vm_compute; reflexivity
    | vm_compute; reflexivity | exact Hne].
Defined.

(** X8 with the example of the specification. *)
Lemma X8_witness :
  Utf8.decode food_payload = Some food_payload
  /\ json_loads food_payload = Some food_value
  /\ scalar_text food_payload /\ json_ok food_value
  /\ forall d, food_value = JDict d -> NoDup (List.map fst d).
Proof.
  split; [vm_compute; reflexivity|]. split; [vm_compute; reflexivity|].
  apply (X8_decoded_value_well_formed food_payload food_payload food_value);
    vm_compute; reflexivity.
Defined.

(** X9 with two readings of the clock of the quiet world. *)
Lemma X9_witness :
  datetime_ok (clock quiet_env 0) = true
  /\ datetime_ok (clock quiet_env 1) = true
  /\ (filename_of (clock quiet_env 0) (str "expense.food")
      = filename_of (clock quiet_env 1) (str "expense.food")
      <-> clock quiet_env 0 = clock quiet_env 1
          /\ str "expense.food" = str "expense.food")
  /\ (os_path_join (str "./messages")
        (filename_of (clock quiet_env 0) (str "expense.food"))
      = os_path_join (str "./messages")
          (filename_of (clock quiet_env 1) (str "expense.food"))
      <-> clock quiet_env 0 = clock quiet_env 1
          /\ str "expense.food" = str "expense.food").
Proof.
  split; [vm_compute; reflexivity|]. split; [vm_compute; reflexivity|].
  apply (X9_filename_of_injective (clock quiet_env 0) (clock quiet_env 1)
           (str "expense.food") (str "expense.food") (str "./messages"));
    vm_compute; reflexivity.
Defined.

(** X11 in the world where the variable is set to the empty string. *)
Lemma X11_witness :
  getenv empty_folder_env "OUTPUT_FOLDER" = Some []
  /\ exists st',
       init empty_folder_env (fresh_self, empty_world)
       = Raise (LibraryError "FileNotFoundError") st'
       /\ stdout (snd st')
          = [ProcessorStarting; ConfigUrl (str "amqp://localhost");
             ConfigVHost (str "/"); ConfigExchange (str "expenses_exchange");
             ConfigOutputFolder []]
       /\ dirs (snd st') = ∅
       /\ main (PF := text_floats) empty_folder_env two_then_interrupt
            (fresh_self, empty_world)
          = (Exited 1, snd st').
Proof.
  split; [reflexivity|].
  destruct (X11_empty_folder_ends_the_script (PF := text_floats) empty_folder_env
              two_then_interrupt (fresh_self, empty_world) eq_refl)
    as (st' & Hinit & Hout & Hdirs & _ & _ & Hmain).
  exists st'. split; [exact Hinit|].
  assert (Hst : st' = halted empty_folder_env (fresh_self, empty_world))
    by (apply (f_equal final_state) in Hinit; symmetry; exact Hinit).
  split; [rewrite Hout, Hst; reflexivity|].
  split; [exact Hdirs | exact Hmain].
Defined.

(** X12 in the quiet world. *)
Lemma X12_witness :
  let st := (fresh_self, empty_world) in
  let st2 := final_state (connect quiet_env st) in
  connect quiet_env st = Return tt st2
  /\ (exists c, connection (fst st2) = Some c /\ channel (fst st2) = Some c)
  /\ queue_name (fst st2) = Some (str "amq.gen-1")
  /\ sent (snd st2)
     = [ExchangeDeclare (str "expenses_exchange") (str "topic") true;
        QueueDeclare [] true;
        QueueBind (str "expenses_exchange") (str "amq.gen-1") (str "expense.*")].
Proof.
  intros st st2.
  assert (H : connect quiet_env st = Return tt st2)
    by (vm_compute; reflexivity).
  split; [exact H|].
  destruct (X12_connect_returns_set_up quiet_env st st2 H)
    as (Hc & Hq & Hs & _).
  split; [exact Hc|]. split; [exact Hq | exact Hs].
Defined.

(** X14 in a world whose URL is refused. *)
Lemma X14_witness :
  url_fault bad_url_env (url_of (fresh_self, empty_world))
  = Some (LibraryError "ValueError")
  /\ exists st',
       connect bad_url_env (fresh_self, empty_world)
       = Raise (LibraryError "ValueError") st'
       /\ dials (snd st') = 0%nat
       /\ attempts_logged (stdout (snd st')) = 5%nat
       /\ slept (snd st') = 20
       /\ sent (snd st') = []
       /\ connection (fst st') = None
       /\ channel (fst st') = None.
Proof.
  split; [reflexivity|].
  apply (X14_refused_url_never_dials bad_url_env
           (fresh_self, empty_world) (LibraryError "ValueError")).
  reflexivity.
Defined.

(** X15 with two deliveries, the interrupt and a late delivery: an ack, a
    nack, and the shutdown; the late delivery is not confirmed. *)
Lemma X15_witness :
  accepting quiet_env
  /\ connection ready_self = Some 0%nat
  /\ channel ready_self = Some 0%nat
  /\ queue_name ready_self = Some (str "amq.gen-1")
  /\ delivered two_then_interrupt
     = [(str "expense.food", 1, food_payload);
        (str "expense.travel", 2, not_json_payload)]
  /\ exists st' fs ls,
       start_consuming (PF := text_floats) quiet_env two_then_interrupt
         (ready_self, empty_world)
       = Return Interrupted st'
       /\ Forall2 confirms (delivered two_then_interrupt) fs
       /\ sent (snd st')
          = BasicConsume (str "amq.gen-1") :: fs ++ [BasicCancel; ConnectionClose]
       /\ Forall handler_line ls
       /\ length ls = 2%nat
       /\ stdout (snd st')
          = WaitingForMessages (str "expenses_exchange")
            :: ListeningOnQueue (str "amq.gen-1") :: ls ++ [StoppingConsumer]
       /\ fst st' = ready_self.
Proof.
  assert (Hacc : accepting quiet_env) by (intros f; reflexivity).
  split; [exact Hacc|].
  split; [reflexivity|]. split; [reflexivity|]. split; [reflexivity|].
  split; [reflexivity|].
  apply (X15_start_consuming_run (PF := text_floats) quiet_env two_then_interrupt
           (ready_self, empty_world) 0%nat 0%nat (str "amq.gen-1") Hacc);
    reflexivity.
Defined.

(** X16 in the quiet world. *)
Lemma X16_witness :
  let st := (fresh_self, empty_world) in
  init quiet_env st = Return tt (booted quiet_env st)
  /\ start_consuming (PF := text_floats) quiet_env two_then_interrupt
       (booted quiet_env st)
     = Raise (AttributeError "channel") (booted quiet_env st)
  /\ sent (snd (booted quiet_env st)) = [].
Proof.
  intros st.
  assert (H : init quiet_env st = Return tt (booted quiet_env st))
    by reflexivity.
  split; [exact H|].
  destruct (X16_consuming_needs_connect (PF := text_floats) quiet_env
              two_then_interrupt st (booted quiet_env st) H)
    as (Hrun & _ & Hsent & _).
  split; [exact Hrun | exact Hsent].
Defined.

(** X17 in the quiet world: the interrupt after two deliveries ends the
    script with code 0, a lost connection with code 1. *)
Lemma X17_witness :
  let st := (fresh_self, empty_world) in
  let st1 := final_state (connect quiet_env (booted quiet_env st)) in
  accepting quiet_env
  /\ init quiet_env st = Return tt (booted quiet_env st)
  /\ connect quiet_env (booted quiet_env st) = Return tt st1
  /\ fst (main (PF := text_floats) quiet_env two_then_interrupt st) = Exited 0
  /\ fst (main (PF := text_floats) quiet_env one_then_lost st) = Exited 1.
Proof.
  intros st st1.
  assert (Hacc : accepting quiet_env) by (intros f; reflexivity).
  assert (Hinit : init quiet_env st = Return tt (booted quiet_env st))
    by reflexivity.
  assert (Hc : connect quiet_env (booted quiet_env st) = Return tt st1)
    by (vm_compute; reflexivity).
  split; [exact Hacc|]. split; [exact Hinit|]. split; [exact Hc|].
  split.
  - exact (proj2 (proj2 (proj2 (X17_main_status (PF := text_floats) quiet_env
                                  two_then_interrupt st)))
             (booted quiet_env st) st1 Hacc Hinit Hc).
  - exact (proj1 (proj2 (proj2 (X17_main_status (PF := text_floats) quiet_env
                                  one_then_lost st)))
             (LibraryError "StreamLostError") eq_refl).
Defined.

(** X18 in the quiet world: the whole run. *)
Lemma X18_witness :
  let st := (fresh_self, empty_world) in
  let st1 := final_state (connect quiet_env (booted quiet_env st)) in
  accepting quiet_env
  /\ init quiet_env st = Return tt (booted quiet_env st)
  /\ connect quiet_env (booted quiet_env st) = Return tt st1
  /\ exists fs,
       Forall2 confirms (delivered two_then_interrupt) fs
       /\ sent (snd (main (PF := text_floats) quiet_env two_then_interrupt st))
          = [ExchangeDeclare (str "expenses_exchange") (str "topic") true;
             QueueDeclare [] true;
             QueueBind (str "expenses_exchange") (str "amq.gen-1") (str "expense.*");
             BasicConsume (str "amq.gen-1")]
            ++ fs ++ [BasicCancel; ConnectionClose].
Proof.
  intros st st1.
  assert (Hacc : accepting quiet_env) by (intros f; reflexivity).
  assert (Hinit : init quiet_env st = Return tt (booted quiet_env st))
    by reflexivity.
  assert (Hc : connect quiet_env (booted quiet_env st) = Return tt st1)
    by (vm_compute; reflexivity).
  split; [exact Hacc|]. split; [exact Hinit|]. split; [exact Hc|].
  exact (X18_main_frames (PF := text_floats) quiet_env two_then_interrupt st
           (booted quiet_env st) st1 Hacc Hinit Hc).
Defined.
